(** * mindsdb_sql: the SQL lexer and the SELECT grammar

    A shallow embedding of
      - [src/mindsdb_sql/parser/lexer.py]  (class [SQLLexer], a SLY lexer),
      - [src/sql_parser/parser.py]         (function [ensure_select_keyword_order]
                                            and class [SQLParser], a SLY grammar),
    together with a model of the parts of SLY the two classes rely on: the
    ordered master regular expression of [sly.Lexer] and the LALR(1) table
    construction and driver of [sly.Parser].

    Input text is ASCII.  Python integers are [Z].  A Python float is kept as
    the exact decimal it was read from (IEEE rounding is not modelled). *)

From Stdlib Require Import List String Ascii ZArith NArith Bool Lia Arith.
From Stdlib Require Import Permutation.
Import ListNotations.
Open Scope string_scope.
Open Scope list_scope.
Open Scope nat_scope.

Set Implicit Arguments.
Set Warnings "-register-all".

(** Concatenation of strings, apart from [++] on lists. *)
Infix "+++" := String.append (at level 60, right associativity).

(* ================================================================== *)
(** ** Characters and text *)
(* ================================================================== *)

Module Chars.

Definition code (c : ascii) : N := N_of_ascii c.

Definition between (lo hi : N) (c : ascii) : bool :=
  let n := code c in ((lo <=? n) && (n <=? hi))%N.

Definition is_digit (c : ascii) : bool := between 48 57 c.
Definition is_upper (c : ascii) : bool := between 65 90 c.
Definition is_lower (c : ascii) : bool := between 97 122 c.
Definition is_alpha (c : ascii) : bool := is_upper c || is_lower c.

(** [\w] on ASCII text: [[a-zA-Z0-9_]]. *)
Definition is_word (c : ascii) : bool :=
  is_alpha c || is_digit c || Ascii.eqb c "_".

(** [[a-zA-Z_$]] *)
Definition is_idstart (c : ascii) : bool :=
  is_alpha c || Ascii.eqb c "_" || Ascii.eqb c "$".

(** [[a-zA-Z_$0-9]] *)
Definition is_idchar (c : ascii) : bool := is_idstart c || is_digit c.

(** [ignore = ' \t\n\r'] *)
Definition is_ignored (c : ascii) : bool :=
  ((code c =? 32) || (code c =? 9) || (code c =? 10) || (code c =? 13))%N.

(** Case folding used by [re.IGNORECASE] on ASCII letters: a capital
    letter and its small letter differ by 32, the sixth bit. *)
Definition to_lower (c : ascii) : ascii :=
  if is_upper c then
    match c with
    | Ascii b0 b1 b2 b3 b4 _ b6 b7 => Ascii b0 b1 b2 b3 b4 true b6 b7
    end
  else c.

(** The two characters agree on every bit but the sixth, as a letter and
    its other case do. *)
Definition agree_but_case (a b : ascii) : bool :=
  match a, b with
  | Ascii a0 a1 a2 a3 a4 _ a6 a7, Ascii b0 b1 b2 b3 b4 _ b6 b7 =>
      if Bool.eqb a0 b0 then
        if Bool.eqb a1 b1 then
          if Bool.eqb a2 b2 then
            if Bool.eqb a3 b3 then
              if Bool.eqb a4 b4 then
                if Bool.eqb a6 b6 then Bool.eqb a7 b7 else false
              else false
            else false
          else false
        else false
      else false
  end.

(** Equality of characters under [re.IGNORECASE]: the two fold to the
    same character (the first test is a shortcut, see [eqb_nocase_fold]
    below). *)
Definition eqb_nocase (a b : ascii) : bool :=
  if agree_but_case a b then Ascii.eqb (to_lower a) (to_lower b) else false.

(** [\b]: the characters on the two sides differ in being word
    characters; the outside of the text counts as a non-word character. *)
Definition word_opt (c : option ascii) : bool :=
  match c with Some x => is_word x | None => false end.

Definition boundary (before after : option ascii) : bool :=
  xorb (word_opt before) (word_opt after).

End Chars.

Module Text.

Definition head (s : string) : option ascii :=
  match s with EmptyString => None | String c _ => Some c end.

Fixpoint drop (n : nat) (s : string) : string :=
  match n, s with
  | O, _ => s
  | S k, String _ r => drop k r
  | S _, EmptyString => EmptyString
  end.

Fixpoint take (n : nat) (s : string) : string :=
  match n, s with
  | O, _ => EmptyString
  | S k, String c r => String c (take k r)
  | S _, EmptyString => EmptyString
  end.

Fixpoint last_char (d : option ascii) (s : string) : option ascii :=
  match s with
  | EmptyString => d
  | String c r => last_char (Some c) r
  end.

(** Length of the longest prefix whose characters all satisfy [p]. *)
Fixpoint span (p : ascii -> bool) (s : string) : nat :=
  match s with
  | String c r => if p c then S (span p r) else O
  | EmptyString => O
  end.

Fixpoint existsb (p : ascii -> bool) (s : string) : bool :=
  match s with
  | String c r => p c || existsb p r
  | EmptyString => false
  end.

Fixpoint forallb (p : ascii -> bool) (s : string) : bool :=
  match s with
  | String c r => p c && forallb p r
  | EmptyString => true
  end.

Fixpoint rev_onto (s acc : string) : string :=
  match s with
  | EmptyString => acc
  | String c r => rev_onto r (String c acc)
  end.

Definition rev (s : string) : string := rev_onto s EmptyString.

(** [s.startswith(w)], with or without case folding. *)
Fixpoint starts_with (eq : ascii -> ascii -> bool) (w s : string) : bool :=
  match w, s with
  | EmptyString, _ => true
  | String a w', String b s' => if eq a b then starts_with eq w' s' else false
  | String _ _, EmptyString => false
  end.


(** Python's [str.strip(chars)] for a one-character [chars]. *)
Fixpoint lstrip (q : ascii) (s : string) : string :=
  match s with
  | String c r => if Ascii.eqb c q then lstrip q r else s
  | EmptyString => EmptyString
  end.

Definition strip (q : ascii) (s : string) : string :=
  rev (lstrip q (rev (lstrip q s))).

(** [sep.join(l)] *)
Fixpoint join (sep : string) (l : list string) : string :=
  match l with
  | [] => ""
  | [x] => x
  | x :: r => (x ++ sep ++ join sep r)%string
  end.

End Text.

(* ================================================================== *)
(** ** Python values carried by tokens and constants *)
(* ================================================================== *)

(** A float literal [ip.fp] denotes [mantissa / 10^scale]; trailing zero
    digits of the fractional part are dropped, so that [1.5] and [1.50]
    are the same value. *)
Record pyfloat : Set := mkFloat { mantissa : N; scale : nat }.

Inductive pyval : Set :=
| PyStr (s : string)
| PyInt (z : Z)
| PyFloat (f : pyfloat).

Module Num.

Definition digit_val (c : ascii) : N := (Chars.code c - 48)%N.

(** [int(s)] for a string of decimal digits. *)
Fixpoint digits_acc (acc : N) (s : string) : N :=
  match s with
  | EmptyString => acc
  | String c r => digits_acc (10 * acc + digit_val c) r
  end.

Definition int_of_digits (s : string) : Z := Z.of_N (digits_acc 0 s).

Definition drop_trailing_zeros (s : string) : string :=
  Text.rev (Text.lstrip "0" (Text.rev s)).

(** [float(s)] for [s = ip ++ "." ++ fp]. *)
Definition float_of_digits (ip fp : string) : pyfloat :=
  let fp' := drop_trailing_zeros fp in
  mkFloat (digits_acc 0 (ip ++ fp')%string) (String.length fp').

Definition digit_char (n : N) : ascii := ascii_of_N (48 + n).

Fixpoint show_N_fuel (fuel : nat) (n : N) (acc : string) : string :=
  match fuel with
  | O => acc
  | S k =>
      let acc' := String (digit_char (n mod 10)) acc in
      if (n <? 10)%N then acc' else show_N_fuel k (n / 10) acc'
  end.

(** [str(n)] for a natural number. *)
Definition show_N (n : N) : string :=
  show_N_fuel (S (N.to_nat (N.log2 n))) n "".

(** [str(z)] for an integer. *)
Definition show_Z (z : Z) : string :=
  match z with
  | Zneg p => String "-" (show_N (Npos p))
  | _ => show_N (Z.to_N z)
  end.

Fixpoint pad_left (n : nat) (s : string) : string :=
  match n with
  | O => s
  | S k => if String.length s <? n then pad_left k (String "0" s) else s
  end.

(** [str(f)] in positional notation (Python switches to exponent
    notation for very large and very small magnitudes; that is not
    modelled). *)
Definition show_float (f : pyfloat) : string :=
  let p := (10 ^ N.of_nat (scale f))%N in
  let ip := show_N (mantissa f / p) in
  let fp := match scale f with
            | O => "0"
            | S _ => pad_left (scale f) (show_N (mantissa f mod p))
            end in
  (ip ++ "." ++ fp)%string.

End Num.

(** What an f-string substitutes for [{v}]. *)
Definition format_value (v : pyval) : string :=
  match v with
  | PyStr s => s
  | PyInt z => Num.show_Z z
  | PyFloat f => Num.show_float f
  end.

(* ================================================================== *)
(** ** The lexer: [class SQLLexer(Lexer)] *)
(* ================================================================== *)

(** The members of [SQLLexer.tokens].  The last five names are terminals of
    [SQLParser]'s grammar that this lexer has no rule for. *)
Inductive TokenKind : Set :=
| USE | CREATE | DESCRIBE
| SET | AUTOCOMMIT | START | TRANSACTION | COMMIT | ROLLBACK | ALTER | EXPLAIN
| SHOW | SCHEMAS | DATABASES | TABLES | TABLE | FULL
| VARIABLES | SESSION | STATUS
| GLOBAL | PROCEDURE | FUNCTION | INDEX | WARNINGS
| ENGINES | CHARSET | COLLATION | PLUGINS | CHARACTER
| WITH | SELECT | DISTINCT | FROM | WHERE | AS
| LIMIT | OFFSET | ASC | DESC | NULLS_FIRST | NULLS_LAST
| GROUP_BY | HAVING | ORDER_BY
| STAR
| JOIN | INNER | OUTER | CROSS | LEFT | RIGHT | ON
| UNION | ALL
| DOT | COMMA | LPAREN | RPAREN | PARAMETER
| PLUS | MINUS | DIVIDE | MODULO
| EQUALS | NEQUALS | GREATER | GEQ | LESS | LEQ
| AND | OR | NOT | IS
| IN | LIKE | CONCAT | BETWEEN | WINDOW
| CAST | ID | INTEGER | FLOAT | STRING | NULL | TRUE | FALSE
| LEFT_JOIN | RIGHT_JOIN | INNER_JOIN | FULL_JOIN | ISNOT.

(** A numbering of the token names, used to compare them and to index
    the parse tables. *)
Definition kind_code (k : TokenKind) : N :=
  match k with
  | USE => 1 | CREATE => 2 | DESCRIBE => 3 | SET => 4 | AUTOCOMMIT => 5
  | START => 6 | TRANSACTION => 7 | COMMIT => 8 | ROLLBACK => 9
  | ALTER => 10 | EXPLAIN => 11 | SHOW => 12 | SCHEMAS => 13
  | DATABASES => 14 | TABLES => 15 | TABLE => 16 | FULL => 17
  | VARIABLES => 18 | SESSION => 19 | STATUS => 20 | GLOBAL => 21
  | PROCEDURE => 22 | FUNCTION => 23 | INDEX => 24 | WARNINGS => 25
  | ENGINES => 26 | CHARSET => 27 | COLLATION => 28 | PLUGINS => 29
  | CHARACTER => 30 | WITH => 31 | SELECT => 32 | DISTINCT => 33
  | FROM => 34 | WHERE => 35 | AS => 36 | LIMIT => 37 | OFFSET => 38
  | ASC => 39 | DESC => 40 | NULLS_FIRST => 41 | NULLS_LAST => 42
  | GROUP_BY => 43 | HAVING => 44 | ORDER_BY => 45 | STAR => 46 | JOIN => 47
  | INNER => 48 | OUTER => 49 | CROSS => 50 | LEFT => 51 | RIGHT => 52
  | ON => 53 | UNION => 54 | ALL => 55 | DOT => 56 | COMMA => 57
  | LPAREN => 58 | RPAREN => 59 | PARAMETER => 60 | PLUS => 61 | MINUS => 62
  | DIVIDE => 63 | MODULO => 64 | EQUALS => 65 | NEQUALS => 66
  | GREATER => 67 | GEQ => 68 | LESS => 69 | LEQ => 70 | AND => 71
  | OR => 72 | NOT => 73 | IS => 74 | IN => 75 | LIKE => 76 | CONCAT => 77
  | BETWEEN => 78 | WINDOW => 79 | CAST => 80 | ID => 81 | INTEGER => 82
  | FLOAT => 83 | STRING => 84 | NULL => 85 | TRUE => 86 | FALSE => 87
  | LEFT_JOIN => 88 | RIGHT_JOIN => 89 | INNER_JOIN => 90 | FULL_JOIN => 91
  | ISNOT => 92
  end%N.

Definition all_kinds : list TokenKind :=
  [ USE; CREATE; DESCRIBE; SET; AUTOCOMMIT; START; TRANSACTION; COMMIT;
    ROLLBACK; ALTER; EXPLAIN; SHOW; SCHEMAS; DATABASES; TABLES; TABLE; FULL;
    VARIABLES; SESSION; STATUS; GLOBAL; PROCEDURE; FUNCTION; INDEX;
    WARNINGS; ENGINES; CHARSET; COLLATION; PLUGINS; CHARACTER; WITH; SELECT;
    DISTINCT; FROM; WHERE; AS; LIMIT; OFFSET; ASC; DESC; NULLS_FIRST;
    NULLS_LAST; GROUP_BY; HAVING; ORDER_BY; STAR; JOIN; INNER; OUTER; CROSS;
    LEFT; RIGHT; ON; UNION; ALL; DOT; COMMA; LPAREN; RPAREN; PARAMETER;
    PLUS; MINUS; DIVIDE; MODULO; EQUALS; NEQUALS; GREATER; GEQ; LESS; LEQ;
    AND; OR; NOT; IS; IN; LIKE; CONCAT; BETWEEN; WINDOW; CAST; ID; INTEGER;
    FLOAT; STRING; NULL; TRUE; FALSE; LEFT_JOIN; RIGHT_JOIN; INNER_JOIN;
    FULL_JOIN; ISNOT ].

Definition kind_eqb (a b : TokenKind) : bool := (kind_code a =? kind_code b)%N.

(** The name of a token, as [tok.type] prints. *)
Definition kind_name (k : TokenKind) : string :=
  match k with
  | USE => "USE" | CREATE => "CREATE" | DESCRIBE => "DESCRIBE"
  | SET => "SET" | AUTOCOMMIT => "AUTOCOMMIT" | START => "START"
  | TRANSACTION => "TRANSACTION" | COMMIT => "COMMIT"
  | ROLLBACK => "ROLLBACK" | ALTER => "ALTER" | EXPLAIN => "EXPLAIN"
  | SHOW => "SHOW" | SCHEMAS => "SCHEMAS" | DATABASES => "DATABASES"
  | TABLES => "TABLES" | TABLE => "TABLE" | FULL => "FULL"
  | VARIABLES => "VARIABLES" | SESSION => "SESSION" | STATUS => "STATUS"
  | GLOBAL => "GLOBAL" | PROCEDURE => "PROCEDURE" | FUNCTION => "FUNCTION"
  | INDEX => "INDEX" | WARNINGS => "WARNINGS" | ENGINES => "ENGINES"
  | CHARSET => "CHARSET" | COLLATION => "COLLATION" | PLUGINS => "PLUGINS"
  | CHARACTER => "CHARACTER" | WITH => "WITH" | SELECT => "SELECT"
  | DISTINCT => "DISTINCT" | FROM => "FROM" | WHERE => "WHERE" | AS => "AS"
  | LIMIT => "LIMIT" | OFFSET => "OFFSET" | ASC => "ASC" | DESC => "DESC"
  | NULLS_FIRST => "NULLS_FIRST" | NULLS_LAST => "NULLS_LAST"
  | GROUP_BY => "GROUP_BY" | HAVING => "HAVING" | ORDER_BY => "ORDER_BY"
  | STAR => "STAR" | JOIN => "JOIN" | INNER => "INNER" | OUTER => "OUTER"
  | CROSS => "CROSS" | LEFT => "LEFT" | RIGHT => "RIGHT" | ON => "ON"
  | UNION => "UNION" | ALL => "ALL" | DOT => "DOT" | COMMA => "COMMA"
  | LPAREN => "LPAREN" | RPAREN => "RPAREN" | PARAMETER => "PARAMETER"
  | PLUS => "PLUS" | MINUS => "MINUS" | DIVIDE => "DIVIDE"
  | MODULO => "MODULO" | EQUALS => "EQUALS" | NEQUALS => "NEQUALS"
  | GREATER => "GREATER" | GEQ => "GEQ" | LESS => "LESS" | LEQ => "LEQ"
  | AND => "AND" | OR => "OR" | NOT => "NOT" | IS => "IS" | IN => "IN"
  | LIKE => "LIKE" | CONCAT => "CONCAT" | BETWEEN => "BETWEEN"
  | WINDOW => "WINDOW" | CAST => "CAST" | ID => "ID" | INTEGER => "INTEGER"
  | FLOAT => "FLOAT" | STRING => "STRING" | NULL => "NULL" | TRUE => "TRUE"
  | FALSE => "FALSE" | LEFT_JOIN => "LEFT_JOIN" | RIGHT_JOIN => "RIGHT_JOIN"
  | INNER_JOIN => "INNER_JOIN" | FULL_JOIN => "FULL_JOIN" | ISNOT => "ISNOT"
  end.

Record Token : Set := mkToken {
  type : TokenKind;      (* [tok.type]  *)
  value : pyval;         (* [tok.value] *)
  index : nat;           (* [tok.index] *)
  end_ : nat             (* [tok.end]   *)
}.

Module Lexer.

Import Chars.

(** The shapes of regular expression the class uses.  [Keyword w] is
    [r'\bw\b'], [Literal w] is [w] with its characters escaped; the
    remaining four are the patterns of the methods [ID], [FLOAT],
    [INTEGER] and [STRING]. *)
Inductive pattern : Set :=
| Keyword (w : string)
| Literal (w : string)
| PatID
| PatFLOAT
| PatINTEGER
| PatSTRING.

(** Every matcher gets the character before the scan position (for
    [\b]) and the text from the scan position on, and answers with the
    length of the match. *)

Definition match_literal (w s : string) : option nat :=
  if Text.starts_with Ascii.eqb w s then Some (String.length w) else None.

(** [\bw\b]: the text goes on with [w], in any case, and there is a
    word boundary before it and after it. *)
Definition match_keyword (w : string) (before : option ascii) (s : string)
  : option nat :=
  let n := String.length w in
  if Text.starts_with eqb_nocase w s then
    if boundary before (Text.head s) then
      if boundary (Text.last_char before (Text.take n s))
                  (Text.head (Text.drop n s))
      then Some n else None
    else None
  else None.

(** [[a-zA-Z_$0-9]*[a-zA-Z_$]+[a-zA-Z_$0-9]*]: the three greedy loops
    together take the longest run of identifier characters, and the
    pattern matches when that run holds a character that is not a
    digit. *)
Definition match_bare (s : string) : option nat :=
  let n := Text.span is_idchar s in
  if Text.existsb is_idstart (Text.take n s) then Some n else None.

(** [`([^`]+)`] *)
Definition match_quoted_segment (s : string) : option nat :=
  match s with
  | String "`" r =>
      let n := Text.span (fun c => negb (Ascii.eqb c "`")) r in
      match n, Text.drop n r with
      | S _, String "`" _ => Some (n + 2)
      | _, _ => None
      end
  | _ => None
  end.

(** One segment: the bare alternative is tried first. *)
Definition match_segment (s : string) : option nat :=
  match match_bare s with
  | Some n => Some n
  | None => match_quoted_segment s
  end.

(** [(?:\.(?:segment))*], greedy. *)
Fixpoint match_more_segments (fuel : nat) (s : string) : nat :=
  match fuel with
  | O => O
  | S k =>
      match s with
      | String "." r =>
          match match_segment r with
          | Some n => S n + match_more_segments k (Text.drop n r)
          | None => O
          end
      | _ => O
      end
  end.

Definition match_ID (s : string) : option nat :=
  match match_segment s with
  | Some n => Some (n + match_more_segments (String.length s) (Text.drop n s))
  | None => None
  end.

(** [\d+\.\d+] *)
Definition match_FLOAT (s : string) : option nat :=
  let n := Text.span is_digit s in
  match n, Text.drop n s with
  | S _, String "." r =>
      match Text.span is_digit r with
      | S m => Some (n + 1 + S m)
      | O => None
      end
  | _, _ => None
  end.

(** [\d+] *)
Definition match_INTEGER (s : string) : option nat :=
  match Text.span is_digit s with
  | S n => Some (S n)
  | O => None
  end.

(** A run of characters other than the quote [q], between two [q]:
    the double-quoted and the single-quoted alternative of [STRING]. *)
Definition match_delimited (q : ascii) (s : string) : option nat :=
  match s with
  | String c r =>
      if Ascii.eqb c q then
        let n := Text.span (fun x => negb (Ascii.eqb x q)) r in
        match Text.drop n r with
        | String _ _ => Some (n + 2)
        | EmptyString => None
        end
      else None
  | EmptyString => None
  end.

Definition dquote : ascii := ascii_of_nat 34.

Definition match_STRING (s : string) : option nat :=
  match match_delimited dquote s with
  | Some n => Some n
  | None => match_delimited "'" s
  end.

Definition match_pattern (p : pattern) (before : option ascii) (s : string)
  : option nat :=
  match p with
  | Keyword w => match_keyword w before s
  | Literal w => match_literal w s
  | PatID => match_ID s
  | PatFLOAT => match_FLOAT s
  | PatINTEGER => match_INTEGER s
  | PatSTRING => match_STRING s
  end.

(** The rules in the order the class body defines them: SLY joins them
    into one alternation, and the first alternative that matches at the
    scan position decides the token. *)
Definition rules : list (TokenKind * pattern) :=
  [
    (* Misc *)
    (SET, Keyword "SET");
    (AUTOCOMMIT, Keyword "AUTOCOMMIT");
    (START, Keyword "START");
    (TRANSACTION, Keyword "TRANSACTION");
    (COMMIT, Keyword "COMMIT");
    (ROLLBACK, Keyword "ROLLBACK");
    (EXPLAIN, Keyword "EXPLAIN");
    (ALTER, Keyword "ALTER");
    (USE, Keyword "USE");
    (DESCRIBE, Keyword "DESCRIBE");
    (* SHOW *)
    (SHOW, Keyword "SHOW");
    (SCHEMAS, Keyword "SCHEMAS");
    (DATABASES, Keyword "DATABASES");
    (TABLES, Keyword "TABLES");
    (TABLE, Keyword "TABLE");
    (FULL, Keyword "FULL");
    (VARIABLES, Keyword "VARIABLES");
    (SESSION, Keyword "SESSION");
    (STATUS, Keyword "STATUS");
    (GLOBAL, Keyword "GLOBAL");
    (PROCEDURE, Keyword "PROCEDURE");
    (FUNCTION, Keyword "FUNCTION");
    (INDEX, Keyword "INDEX");
    (CREATE, Keyword "CREATE");
    (WARNINGS, Keyword "WARNINGS");
    (ENGINES, Keyword "ENGINES");
    (CHARSET, Keyword "CHARSET");
    (CHARACTER, Keyword "CHARACTER");
    (COLLATION, Keyword "COLLATION");
    (PLUGINS, Keyword "PLUGINS");
    (* SELECT *)
    (ON, Keyword "ON");
    (ASC, Keyword "ASC");
    (DESC, Keyword "DESC");
    (NULLS_FIRST, Keyword "NULLS FIRST");
    (NULLS_LAST, Keyword "NULLS LAST");
    (WITH, Keyword "WITH");
    (SELECT, Keyword "SELECT");
    (DISTINCT, Keyword "DISTINCT");
    (FROM, Keyword "FROM");
    (AS, Keyword "AS");
    (WHERE, Keyword "WHERE");
    (LIMIT, Keyword "LIMIT");
    (OFFSET, Keyword "OFFSET");
    (GROUP_BY, Keyword "GROUP BY");
    (HAVING, Keyword "HAVING");
    (ORDER_BY, Keyword "ORDER BY");
    (STAR, Literal "*");
    (JOIN, Keyword "JOIN");
    (INNER, Keyword "INNER");
    (OUTER, Keyword "OUTER");
    (CROSS, Keyword "CROSS");
    (LEFT, Keyword "LEFT");
    (RIGHT, Keyword "RIGHT");
    (* UNION *)
    (UNION, Keyword "UNION");
    (ALL, Keyword "ALL");
    (* Special *)
    (DOT, Literal ".");
    (COMMA, Literal ",");
    (LPAREN, Literal "(");
    (RPAREN, Literal ")");
    (PARAMETER, Literal "?");
    (* Operators *)
    (PLUS, Literal "+");
    (MINUS, Literal "-");
    (DIVIDE, Literal "/");
    (MODULO, Literal "%");
    (EQUALS, Literal "=");
    (NEQUALS, Literal "!=");
    (GEQ, Literal ">=");
    (GREATER, Literal ">");
    (LEQ, Literal "<=");
    (LESS, Literal "<");
    (AND, Keyword "AND");
    (OR, Keyword "OR");
    (NOT, Keyword "NOT");
    (IS, Keyword "IS");
    (LIKE, Keyword "LIKE");
    (IN, Keyword "IN");
    (CAST, Keyword "CAST");
    (CONCAT, Literal "||");
    (BETWEEN, Keyword "BETWEEN");
    (WINDOW, Keyword "WINDOW");
    (* Data types *)
    (NULL, Keyword "NULL");
    (TRUE, Keyword "TRUE");
    (FALSE, Keyword "FALSE");
    (ID, PatID);
    (FLOAT, PatFLOAT);
    (INTEGER, PatINTEGER);
    (STRING, PatSTRING)
  ].

(** The bodies of the methods [ID], [FLOAT], [INTEGER] and [STRING];
    every other token keeps the matched text as its value. *)
Definition token_value (k : TokenKind) (text : string) : pyval :=
  match k with
  | FLOAT =>
      let n := Text.span is_digit text in
      PyFloat (Num.float_of_digits (Text.take n text) (Text.drop (S n) text))
  | INTEGER => PyInt (Num.int_of_digits text)
  | STRING =>
      match text with
      | String c _ =>
          if Ascii.eqb c dquote then PyStr (Text.strip dquote text)
          else PyStr (Text.strip "'" text)
      | EmptyString => PyStr text
      end
  | _ => PyStr text
  end.

Fixpoint first_match (rs : list (TokenKind * pattern))
         (before : option ascii) (s : string) : option (TokenKind * nat) :=
  match rs with
  | [] => None
  | (k, p) :: rs' =>
      match match_pattern p before s with
      | Some n => Some (k, n)
      | None => first_match rs' before s
      end
  end.

(** The position of the generator [tokenize]: the character before the
    scan index, the text from the scan index on, and the index. *)
Record scanner : Set := mkScanner {
  before : option ascii;
  rest : string;
  pos : nat
}.

Definition start (text : string) : scanner := mkScanner None text 0.

Definition advance (n : nat) (sc : scanner) : scanner :=
  mkScanner (Text.last_char (before sc) (Text.take n (rest sc)))
            (Text.drop n (rest sc)) (pos sc + n).

(** [LexError]: the index and the text that is left. *)
Record LexError : Set := mkLexError { error_index : nat; error_text : string }.

Inductive scan_result : Set :=
| ScanEnd
| ScanToken (t : Token) (next : scanner)
| ScanError (e : LexError).

(** One turn of the loop of [tokenize] with the rules [rs]: skip the
    ignored characters, then match. *)
Fixpoint scan_text (rs : list (TokenKind * pattern))
         (b : option ascii) (s : string) (i : nat) : scan_result :=
  let try_match :=
    match first_match rs b s with
    | Some (k, n) =>
        ScanToken (mkToken k (token_value k (Text.take n s)) i (i + n))
                  (advance n (mkScanner b s i))
    | None => ScanError (mkLexError i s)
    end in
  match s with
  | EmptyString => ScanEnd
  | String c r => if is_ignored c then scan_text rs (Some c) r (S i) else try_match
  end.

Definition scan_with (rs : list (TokenKind * pattern)) (sc : scanner)
  : scan_result :=
  scan_text rs (before sc) (rest sc) (pos sc).

Definition next_token : scanner -> scan_result := scan_with rules.

(** Everything the generator yields, and the error it stops with, if
    any. *)
Fixpoint drain (rs : list (TokenKind * pattern)) (fuel : nat) (sc : scanner)
  : list Token * option LexError :=
  match fuel with
  | O => ([], None)
  | S k =>
      match scan_with rs sc with
      | ScanEnd => ([], None)
      | ScanError e => ([], Some e)
      | ScanToken t sc' =>
          let (ts, e) := drain rs k sc' in (t :: ts, e)
      end
  end.

Definition tokenize_with (rs : list (TokenKind * pattern)) (text : string)
  : list Token * option LexError :=
  drain rs (S (String.length text)) (start text).

Definition tokenize : string -> list Token * option LexError :=
  tokenize_with rules.

(** Modelled from the spec: the rules of the tokens [INNER_JOIN],
    [LEFT_JOIN], [RIGHT_JOIN] and [FULL_JOIN] of [sql_parser.lexer], the
    lexer that [parser.py] imports and the sources at hand lack.  The spec
    has the join type keywords [INNER JOIN], [LEFT JOIN], [RIGHT JOIN] and
    [FULL JOIN]; they are written here the way the class writes its other
    two-word keywords, and stand before the one-word rules. *)
Definition join_rules : list (TokenKind * pattern) :=
  [ (INNER_JOIN, Keyword "INNER JOIN");
    (LEFT_JOIN, Keyword "LEFT JOIN");
    (RIGHT_JOIN, Keyword "RIGHT JOIN");
    (FULL_JOIN, Keyword "FULL JOIN") ].

Definition rules_with_joins : list (TokenKind * pattern) :=
  join_rules ++ rules.

End Lexer.


(* ================================================================== *)
(** ** SLY's table construction: [sly.yacc.LRTable] *)
(* ================================================================== *)

(** Symbols are numbers: [0] is [$end], a token is its [kind_code], a
    nonterminal is any other number.  Production number [0] is the
    augmented [S' -> start]. *)
Module LALR.

Inductive assoc : Set := left_assoc | right_assoc | nonassoc.

Record production : Set := mkProd {
  p_lhs : N;
  p_rhs : list N;
  p_prec : assoc * nat;   (* [Production.prec] *)
  p_line : nat            (* [Production.line] *)
}.

Record grammar : Set := mkGrammar {
  productions : list production;
  terminals : list N;              (* [tokens] *)
  precedence : N -> assoc * nat    (* [Precedence.get(a, ('right', 0))] *)
}.

(** An LR item: production number and position of the dot. *)
Definition item : Set := (nat * nat)%type.

Definition item_eqb (a b : item) : bool :=
  (fst a =? fst b) && (snd a =? snd b).

Fixpoint items_eqb (a b : list item) : bool :=
  match a, b with
  | [], [] => true
  | x :: a', y :: b' => item_eqb x y && items_eqb a' b'
  | _, _ => false
  end.

Definition mem (x : N) (l : list N) : bool := existsb (N.eqb x) l.

Definition is_terminal (g : grammar) (x : N) : bool :=
  N.eqb x 0 || mem x (terminals g).

(** An entry of [lr_action]: SLY writes a shift to state [j] as [j], a
    reduction by production [p] as [-p], accept as [0], and a lookahead
    ruled out by [nonassoc] as [None]. *)
Inductive action : Set :=
| Shift (j : nat)
| Reduce (p : nat)
| Accept
| NoAction.

Fixpoint dedup_onto (seen : list N) (l : list N) : list N :=
  match l with
  | [] => []
  | x :: r => if mem x seen then dedup_onto seen r
              else x :: dedup_onto (x :: seen) r
  end.

Section Tables.

Variable g : grammar.

Definition prod (n : nat) : production :=
  nth n (productions g) (mkProd 0 [] (right_assoc, 0) 0).

Definition rhs_of (it : item) : list N := p_rhs (prod (fst it)).

(** The symbol right after the dot. *)
Definition after_dot (it : item) : option N := nth_error (rhs_of it) (snd it).

Definition beyond_dot (it : item) : list N := skipn (S (snd it)) (rhs_of it).

Definition advance (it : item) : item := (fst it, S (snd it)).

(** The items [B -> . gamma], in the order of the productions. *)
Fixpoint initial_items_from (n : nat) (ps : list production) (b : N)
  : list item :=
  match ps with
  | [] => []
  | p :: ps' =>
      if N.eqb (p_lhs p) b then (n, 0) :: initial_items_from (S n) ps' b
      else initial_items_from (S n) ps' b
  end.

Definition initial_items (b : N) : list item :=
  initial_items_from 0 (productions g) b.

(** [lr0_closure]: one pass over the growing list [J]. *)
Fixpoint closure_from (fuel : nat) (J : list item) (i : nat)
         (added : list N) : list item :=
  match fuel with
  | O => J
  | S k =>
      match nth_error J i with
      | None => J
      | Some it =>
          match after_dot it with
          | Some b =>
              if is_terminal g b || mem b added
              then closure_from k J (S i) added
              else closure_from k (J ++ initial_items b) (S i) (b :: added)
          | None => closure_from k J (S i) added
          end
      end
  end.

Definition lr0_closure (kernel : list item) : list item :=
  closure_from (List.length kernel + List.length (productions g) + 1) kernel 0 [].

(** [lr0_goto]: the kernel reached from the item set [I] over [x]. *)
Definition goto_kernel (I : list item) (x : N) : list item :=
  flat_map (fun it => match after_dot it with
                      | Some y => if N.eqb x y then [advance it] else []
                      | None => []
                      end) I.

(** The symbols of the productions of the items of [I] ([usyms]). *)
Definition symbols_of (I : list item) : list N :=
  dedup_onto [] (flat_map rhs_of I).

(** A state is known by its kernel. *)
Fixpoint find_state (n : nat) (kernels : list (list item)) (k : list item)
  : option nat :=
  match kernels with
  | [] => None
  | k' :: r => if items_eqb k k' then Some n else find_state (S n) r k
  end.

Fixpoint add_targets (kernels : list (list item)) (I : list item)
         (xs : list N) : list (list item) :=
  match xs with
  | [] => kernels
  | x :: xs' =>
      let k := goto_kernel I x in
      match k with
      | [] => add_targets kernels I xs'
      | _ :: _ =>
          match find_state 0 kernels k with
          | Some _ => add_targets kernels I xs'
          | None => add_targets (kernels ++ [k]) I xs'
          end
      end
  end.

(** [lr0_items]: the kernels of the collection, in the order SLY
    numbers the states. *)
Fixpoint collect (fuel : nat) (kernels : list (list item)) (i : nat)
  : list (list item) :=
  match fuel with
  | O => kernels
  | S f =>
      match nth_error kernels i with
      | None => kernels
      | Some k =>
          let I := lr0_closure k in
          collect f (add_targets kernels I (symbols_of I)) (S i)
      end
  end.

Definition kernels (max_states : nat) : list (list item) :=
  collect max_states [[(0, 0)]] 0.

(** A state with its closure and its transitions. *)
Record state : Set := mkState {
  st_kernel : list item;
  st_items : list item;
  st_trans : list (N * nat)
}.

Definition transitions (ks : list (list item)) (I : list item)
  : list (N * nat) :=
  flat_map (fun x => match goto_kernel I x with
                     | [] => []
                     | k => match find_state 0 ks k with
                            | Some j => [(x, j)]
                            | None => []
                            end
                     end) (symbols_of I).

Definition states (ks : list (list item)) : list state :=
  map (fun k => let I := lr0_closure k in mkState k I (transitions ks I)) ks.

Fixpoint assoc_nat (x : N) (l : list (N * nat)) : option nat :=
  match l with
  | [] => None
  | (y, j) :: r => if N.eqb x y then Some j else assoc_nat x r
  end.

(** *** Sets of terminals, as bit masks *)

Definition bit (a : N) : N := N.shiftl 1 a.

Fixpoint assoc_set (x : N) (l : list (N * N)) : N :=
  match l with
  | [] => 0%N
  | (y, s) :: r => if N.eqb x y then s else assoc_set x r
  end.

Fixpoint join_set (x s : N) (l : list (N * N)) : list (N * N) :=
  match l with
  | [] => [(x, s)]
  | (y, s') :: r =>
      if N.eqb x y then (y, N.lor s s') :: r else (y, s') :: join_set x s r
  end.

Fixpoint iterate {A : Type} (n : nat) (f : A -> A) (x : A) : A :=
  match n with
  | O => x
  | S k => iterate k f (f x)
  end.

(** Nonterminals that derive the empty string. *)
Definition nullable_step (nl : list N) : list N :=
  fold_left (fun acc p =>
               if forallb (fun x => mem x acc) (p_rhs p) && negb (mem (p_lhs p) acc)
               then p_lhs p :: acc else acc)
            (productions g) nl.

Definition nullable : list N :=
  iterate (List.length (productions g)) nullable_step [].

(** The tables below are computed once and handed on: [nl] is
    [nullable], [fm] the FIRST sets, [sts] the states. *)
Section Lookaheads.

Variable nl : list N.

(** FIRST of a string of symbols followed by the set [L]. *)
Fixpoint first_seq (fm : list (N * N)) (beta : list N) (L : N) : N :=
  match beta with
  | [] => L
  | x :: r =>
      if is_terminal g x then bit x
      else N.lor (assoc_set x fm)
                 (if mem x nl then first_seq fm r L else 0%N)
  end.

Definition first_step (fm : list (N * N)) : list (N * N) :=
  fold_left (fun acc p => join_set (p_lhs p) (first_seq acc (p_rhs p) 0%N) acc)
            (productions g) fm.

Definition first_sets : list (N * N) :=
  iterate (List.length (productions g)) first_step [].

Variable fm : list (N * N).
Variable sts : list state.

(** The lookahead sets with which the closure items of each
    nonterminal enter a state whose kernel items carry [kl]. *)
Definition spread (cl : list item) (kl : list (item * N)) (m : list (N * N))
  : list (N * N) :=
  let from (m : list (N * N)) (it : item) (L : N) :=
    match after_dot it with
    | Some b => if is_terminal g b then m
                else join_set b (first_seq fm (beyond_dot it) L) m
    | None => m
    end in
  let m1 := fold_left (fun acc x => from acc (fst x) (snd x)) kl m in
  fold_left (fun acc it => from acc it (assoc_set (p_lhs (prod (fst it))) acc))
            cl m1.

Definition closure_sets (st : state) (las : list N) : list (N * N) :=
  let nk := List.length (st_kernel st) in
  iterate (S (List.length (productions g)))
          (spread (skipn nk (st_items st)) (combine (st_kernel st) las)) [].

(** Every item of the state with its lookahead set. *)
Definition items_with_lookahead (st : state) (las : list N)
  : list (item * N) :=
  let nk := List.length (st_kernel st) in
  let m := closure_sets st las in
  combine (st_kernel st) las ++
  map (fun it => (it, assoc_set (p_lhs (prod (fst it))) m))
      (skipn nk (st_items st)).

Fixpoint position (it : item) (l : list item) : option nat :=
  match l with
  | [] => None
  | x :: r => if item_eqb it x then Some 0
              else option_map S (position it r)
  end.

Fixpoint update {A : Type} (n : nat) (f : A -> A) (l : list A) : list A :=
  match l, n with
  | [], _ => []
  | x :: r, O => f x :: r
  | x :: r, S k => x :: update k f r
  end.

(** The lookaheads of the items of one state flow into the kernels
    of its successors. *)
Definition flow_from (table : list (list N)) (sn : state * nat)
  : list (list N) :=
  let (st, n) := sn in
  fold_left
    (fun tb x =>
       let '(it, L) := x in
       match after_dot it with
       | None => tb
       | Some y =>
           match assoc_nat y (st_trans st) with
           | None => tb
           | Some j =>
               match position (advance it) (st_kernel (nth j sts st)) with
               | None => tb
               | Some k => update j (update k (N.lor L)) tb
               end
           end
       end)
    (items_with_lookahead st (nth n table [])) table.

Definition flow_round (table : list (list N)) : list (list N) :=
  fold_left flow_from (combine sts (seq 0 (List.length sts))) table.

Definition table_eqb (a b : list (list N)) : bool :=
  (List.length a =? List.length b) &&
  forallb (fun p => (List.length (fst p) =? List.length (snd p)) &&
                    forallb (fun q => N.eqb (fst q) (snd q))
                            (combine (fst p) (snd p)))
          (combine a b).

Fixpoint flow (fuel : nat) (table : list (list N)) : list (list N) :=
  match fuel with
  | O => table
  | S k =>
      let table' := flow_round table in
      if table_eqb table table' then table else flow k table'
  end.

(** The LALR(1) lookahead sets of the kernel items. *)
Definition lookaheads (max_rounds : nat) : list (list N) :=
  flow max_rounds
       (map (fun st => map (fun it => if item_eqb it (0, 0) then bit 0 else 0%N)
                           (st_kernel st)) sts).

End Lookaheads.

(** *** The action table of one state *)

Fixpoint assoc_action (a : N) (l : list (N * action)) : option action :=
  match l with
  | [] => None
  | (b, x) :: r => if N.eqb a b then Some x else assoc_action a r
  end.

Fixpoint set_action (a : N) (x : action) (l : list (N * action))
  : list (N * action) :=
  match l with
  | [] => [(a, x)]
  | (b, y) :: r => if N.eqb a b then (b, x) :: r else (b, y) :: set_action a x r
  end.

Definition is_left (a : assoc) : bool :=
  match a with left_assoc => true | _ => false end.
Definition is_right (a : assoc) : bool :=
  match a with right_assoc => true | _ => false end.
Definition is_nonassoc (a : assoc) : bool :=
  match a with nonassoc => true | _ => false end.

(** What the table construction has to report. *)
Inductive remark : Set :=
| ReduceReduce (a : N) (chosen rejected : nat)
| ShiftShift (a : N)
| AfterNonassoc (a : N).

Definition entries : Set := (list (N * action) * list remark)%type.

(** A completed item of production [pn] asks for a reduction on the
    lookahead [a]. *)
Definition add_reduce (pn : nat) (st : entries) (a : N) : entries :=
  let (acts, rs) := st in
  let resolve_rr (old : nat) :=
    if p_line (prod pn) <? p_line (prod old)
    then (set_action a (Reduce pn) acts, ReduceReduce a pn old :: rs)
    else (acts, ReduceReduce a old pn :: rs) in
  match assoc_action a acts with
  | None => (set_action a (Reduce pn) acts, rs)
  | Some (Shift _) =>
      let slevel := snd (precedence g a) in
      let (rprec, rlevel) := p_prec (prod pn) in
      if (slevel <? rlevel) || ((slevel =? rlevel) && is_left rprec)
      then (set_action a (Reduce pn) acts, rs)
      else if (slevel =? rlevel) && is_nonassoc rprec
           then (set_action a NoAction acts, rs)
           else st
  | Some (Reduce old) => resolve_rr old
  | Some Accept => resolve_rr 0
  | Some NoAction => (acts, AfterNonassoc a :: rs)
  end.

(** An item with the terminal [a] after the dot asks for a shift to
    state [j]. *)
Definition add_shift (j : nat) (st : entries) (a : N) : entries :=
  let (acts, rs) := st in
  let resolve_sr (old : nat) :=
    let slevel := snd (precedence g a) in
    let (rprec, rlevel) := p_prec (prod old) in
    if (rlevel <? slevel) || ((slevel =? rlevel) && is_right rprec)
    then (set_action a (Shift j) acts, rs)
    else if (slevel =? rlevel) && is_nonassoc rprec
         then (set_action a NoAction acts, rs)
         else st in
  match assoc_action a acts with
  | None => (set_action a (Shift j) acts, rs)
  | Some (Shift r) => if r =? j then st else (acts, ShiftShift a :: rs)
  | Some (Reduce old) => resolve_sr old
  | Some Accept => resolve_sr 0
  | Some NoAction => (acts, AfterNonassoc a :: rs)
  end.

Definition members (L : N) : list N :=
  filter (N.testbit L) (0%N :: terminals g).

Definition state_entries (st : state) (its : list (item * N)) : entries :=
  fold_left
    (fun acc x =>
       let '(it, L) := x in
       match after_dot it with
       | None =>
           match fst it with
           | O => (set_action 0%N Accept (fst acc), snd acc)
           | S _ => fold_left (add_reduce (fst it)) (members L) acc
           end
       | Some a =>
           if is_terminal g a then
             match assoc_nat a (st_trans st) with
             | Some j => add_shift j acc a
             | None => acc
             end
           else acc
       end)
    its ([], []).

(** [set_defaulted_states]: a state whose only entry is a reduction
    reduces without looking at the next token. *)
Definition default_of (acts : list (N * action)) : option nat :=
  match acts with
  | [(_, Reduce p)] => Some p
  | _ => None
  end.

Record tables : Set := mkTables {
  lr_action : list (list (N * action));
  lr_goto : list (list (N * nat));
  defaulted_states : list (option nat);
  remarks : list (nat * remark)
}.

Definition build (max_states max_rounds : nat) : tables :=
  let nl := nullable in
  let fm := first_sets nl in
  let ks := kernels max_states in
  let sts := states ks in
  let las := lookaheads nl fm sts max_rounds in
  let per_state :=
    map (fun x => let '(st, la) := x in
                  state_entries st (items_with_lookahead nl fm st la))
        (combine sts las) in
  mkTables
    (map fst per_state)
    (map (fun st => filter (fun x => negb (is_terminal g (fst x))) (st_trans st))
         sts)
    (map (fun e => default_of (fst e)) per_state)
    (flat_map (fun x => map (pair (snd x)) (snd (fst x)))
              (combine per_state (seq 0 (List.length per_state)))).

End Tables.

End LALR.

(* ================================================================== *)
(** ** The syntax trees built by the grammar *)
(* ================================================================== *)

(** The classes of [sql_parser.ast] are not part of the sources at hand;
    the types below hold the attributes that [parser.py] and the tests
    read and write.  Every expression node has [alias] (unset: [None])
    and [parentheses] (unset: [false]). *)
Inductive ASTNode : Set :=
| Constant (value : pyval) (alias : option string) (parentheses : bool)
| Identifier (value : string) (alias : option string) (parentheses : bool)
| BinaryOperation (op : string) (arg0 arg1 : ASTNode)
                  (alias : option string) (parentheses : bool)
| UnaryOperation (op : string) (arg0 : ASTNode)
                 (alias : option string) (parentheses : bool)
| Function (op : string) (args : list ASTNode)
           (alias : option string) (parentheses : bool).

Record Join : Set := mkJoin {
  left : ASTNode;
  right : ASTNode;
  join_type : string;
  condition : option ASTNode;
  implicit : bool
}.

Inductive FromTable : Set :=
| FromNode (n : ASTNode)
| FromJoin (j : Join).

Record OrderBy : Set := mkOrderBy {
  field : ASTNode;
  direction : string;
  nulls : option string
}.

Record Select : Set := mkSelect {
  targets : list ASTNode;
  distinct : bool;
  from_table : option FromTable;
  where_ : option ASTNode;
  group_by : option (list ASTNode);
  having : option ASTNode;
  order_by : option (list OrderBy);
  limit : option ASTNode;
  offset : option ASTNode
}.

Module Node.

(** [node.alias = a] *)
Definition set_alias (a : string) (n : ASTNode) : ASTNode :=
  match n with
  | Constant v _ p => Constant v (Some a) p
  | Identifier v _ p => Identifier v (Some a) p
  | BinaryOperation o x y _ p => BinaryOperation o x y (Some a) p
  | UnaryOperation o x _ p => UnaryOperation o x (Some a) p
  | Function o xs _ p => Function o xs (Some a) p
  end.

(** [node.parentheses = True] *)
Definition set_parentheses (n : ASTNode) : ASTNode :=
  match n with
  | Constant v a _ => Constant v a true
  | Identifier v a _ => Identifier v a true
  | BinaryOperation o x y a _ => BinaryOperation o x y a true
  | UnaryOperation o x a _ => UnaryOperation o x a true
  | Function o xs a _ => Function o xs a true
  end.

Definition is_Identifier (n : ASTNode) : bool :=
  match n with Identifier _ _ _ => true | _ => false end.

Definition is_Constant (n : ASTNode) : bool :=
  match n with Constant _ _ _ => true | _ => false end.

(** [isinstance(n, Operation)]: the operation classes are
    [BinaryOperation], [UnaryOperation] and [Function], which
    [parser.py] imports from [sql_parser.ast.operation] next to
    [Operation] and builds with the same [op]/[args] arguments. *)
Definition is_Operation (n : ASTNode) : bool :=
  match n with
  | BinaryOperation _ _ _ _ _ | UnaryOperation _ _ _ _
  | Function _ _ _ _ => true
  | _ => false
  end.

End Node.

Definition dquote : string := String Lexer.dquote "".

Module Render.

(** Modelled from the spec: the text form of an expression node
    ([__str__] of the classes of [sql_parser.ast], which the sources at
    hand lack).  Identifiers render their value, an alias renders as
    [<expr> AS <alias>], an operator stands between single spaces, a
    node with the [parentheses] flag is wrapped in parentheses, and a
    string constant is written between double quotes (the test
    [test_select_constant] expects [SELECT "string"] back). *)
Fixpoint to_string (n : ASTNode) : string :=
  let wrap (alias : option string) (parentheses : bool) (body : string) :=
    let inner := if parentheses then "(" +++ body +++ ")" else body in
    match alias with
    | Some a => inner +++ " AS " +++ a
    | None => inner
    end in
  (match n with
   | Constant (PyStr s) a p => wrap a p (dquote +++ s +++ dquote)
   | Constant v a p => wrap a p (format_value v)
   | Identifier v a p => wrap a p v
   | BinaryOperation o x y a p =>
       wrap a p (to_string x +++ " " +++ o +++ " " +++ to_string y)
   | UnaryOperation o x a p => wrap a p (o +++ " " +++ to_string x)
   | Function o xs a p =>
       wrap a p (o +++ "(" +++ Text.join ", " (map to_string xs) +++ ")")
   end).

(** Modelled from the spec: [str] of a list of nodes. *)
Definition list_to_string (l : list ASTNode) : string :=
  ("[" +++ Text.join ", " (map to_string l) +++ "]").

(** Modelled from the spec: the text of an [OrderBy], its field followed
    by the direction when one was written and by the [NULLS] phrase when
    there is one. *)
Definition order_by_to_string (o : OrderBy) : string :=
  to_string (field o)
  +++ (if String.eqb (direction o) "default" then "" else " " +++ direction o)
  +++ (match nulls o with Some n => " " +++ n | None => "" end).

(** Modelled from the spec: the text of the [FROM] operand; an implicit
    join is written with a comma, any other join with its keyword and, when
    it has one, its condition after [ON]. *)
Definition from_to_string (f : FromTable) : string :=
  match f with
  | FromNode n => to_string n
  | FromJoin j =>
      if implicit j then to_string (left j) +++ ", " +++ to_string (right j)
      else to_string (left j) +++ " " +++ join_type j +++ " " +++ to_string (right j)
           +++ (match condition j with
                | Some c => " ON " +++ to_string c
                | None => ""
                end)
  end.

Definition clause {A : Type} (keyword : string) (show : A -> string)
           (x : option A) : string :=
  match x with
  | Some v => " " +++ keyword +++ " " +++ show v
  | None => ""
  end.

(** Modelled from the spec: the text of a [Select]; the clauses come in
    the canonical order and a clause that is not set is left out. *)
Definition select_to_string (s : Select) : string :=
  "SELECT " +++ (if distinct s then "DISTINCT " else "")
  +++ Text.join ", " (map to_string (targets s))
  +++ clause "FROM" from_to_string (from_table s)
  +++ clause "WHERE" to_string (where_ s)
  +++ clause "GROUP BY" (fun l => Text.join ", " (map to_string l)) (group_by s)
  +++ clause "HAVING" to_string (having s)
  +++ clause "ORDER BY" (fun l => Text.join ", " (map order_by_to_string l))
             (order_by s)
  +++ clause "LIMIT" to_string (limit s)
  +++ clause "OFFSET" to_string (offset s).

End Render.

(* ================================================================== *)
(** ** Exceptions *)
(* ================================================================== *)

Inductive exn : Set :=
| ParsingException (msg : string)
| LexError (e : Lexer.LexError)
| Impossible (what : string)   (* a Python error the grammar never meets *)
| OutOfFuel.

Inductive result (A : Type) : Type :=
| Ok (a : A)
| Raise (e : exn).

Arguments Ok {A} a.
Arguments Raise {A} e.

Definition bind {A B : Type} (r : result A) (f : A -> result B) : result B :=
  match r with
  | Ok a => f a
  | Raise e => Raise e
  end.

Notation "x <- r ;; k" := (bind r (fun x => k))
  (at level 61, r at next level, right associativity).
Notation "r ;;; k" := (bind r (fun _ => k))
  (at level 61, right associativity).

(* ================================================================== *)
(** ** [ensure_select_keyword_order] *)
(* ================================================================== *)

(** Truth value of an attribute: [None] is false, a node object is true,
    a list is true when it is not empty. *)
Definition truth {A : Type} (x : option A) : bool :=
  match x with Some _ => true | None => false end.

Definition truth_list {A : Type} (x : option (list A)) : bool :=
  match x with Some (_ :: _) => true | _ => false end.

Fixpoint get {A : Type} (k : string) (d : list (string * A)) : option A :=
  match d with
  | [] => None
  | (k', v) :: r => if String.eqb k k' then Some v else get k r
  end.

(** [l.index(x)] *)
Fixpoint index_of (x : string) (l : list string) : option nat :=
  match l with
  | [] => None
  | y :: r => if String.eqb x y then Some 0 else option_map S (index_of x r)
  end.

(** The dictionary [op_to_attr], each attribute with its truth value. *)
Definition op_to_attr (select : Select) : list (string * bool) :=
  [ ("FROM", truth (from_table select));
    ("WHERE", truth (where_ select));
    ("GROUP BY", truth_list (group_by select));
    ("HAVING", truth (having select));
    ("ORDER BY", truth_list (order_by select));
    ("LIMIT", truth (limit select));
    ("OFFSET", truth (offset select)) ].

Definition requirements : list (string * list string) :=
  [ ("WHERE", ["FROM"]);
    ("GROUP BY", ["FROM"]);
    ("ORDER BY", ["FROM"]);
    ("HAVING", ["GROUP BY"]) ].

Definition precedence : list string :=
  ["FROM"; "WHERE"; "GROUP BY"; "HAVING"; "ORDER BY"; "LIMIT"; "OFFSET"].

Definition attr (d : list (string * bool)) (k : string) : result bool :=
  match get k d with
  | Some b => Ok b
  | None => Raise (Impossible "KeyError")
  end.

(** [for req in op_requires: if not op_to_attr[req]: raise ...] *)
Fixpoint check_requirements (d : list (string * bool)) (operation : string)
         (reqs : list string) : result unit :=
  match reqs with
  | [] => Ok tt
  | req :: r =>
      b <- attr d req ;;
      if b then check_requirements d operation r
      else Raise (ParsingException (operation +++ " requires " +++ req))
  end.

(** [for next_op in precedence[pos:]: if op_to_attr[next_op]: raise ...] *)
Fixpoint check_later (d : list (string * bool)) (operation : string)
         (later : list string) : result unit :=
  match later with
  | [] => Ok tt
  | next_op :: r =>
      b <- attr d next_op ;;
      if b then Raise (ParsingException (operation +++ " must go after " +++ next_op))
      else check_later d operation r
  end.

Definition ensure_select_keyword_order (select : Select) (operation : string)
  : result unit :=
  let d := op_to_attr select in
  b <- attr d operation ;;
  if b then
    Raise (ParsingException ("Duplicate " +++ operation +++ " clause. Only one "
                               +++ operation +++ " allowed per SELECT."))
  else
    let op_requires := match get operation requirements with
                       | Some l => l
                       | None => []
                       end in
    check_requirements d operation op_requires ;;;
    match index_of operation precedence with
    | None => Raise (Impossible "ValueError")
    | Some op_precedence_pos =>
        check_later d operation (skipn op_precedence_pos precedence)
    end.

(* ================================================================== *)
(** ** The grammar rules of [class SQLParser(Parser)] *)
(* ================================================================== *)

(** What a grammar symbol stands for on the parser's stack: the value of
    a token, or what the method of a rule returned. *)
Inductive sval : Set :=
| VToken (v : pyval)
| VNode (n : ASTNode)
| VNodes (l : list ASTNode)
| VOrder (o : OrderBy)
| VOrders (l : list OrderBy)
| VFrom (f : FromTable)
| VSelect (s : Select).

Module Rules.

Definition text_of (v : pyval) : string := format_value v.

Definition ill_typed {A : Type} : result A := Raise (Impossible "TypeError").

Definition set_offset (x : ASTNode) (s : Select) : Select :=
  mkSelect (targets s) (distinct s) (from_table s) (where_ s) (group_by s)
           (having s) (order_by s) (limit s) (Some x).
Definition set_limit (x : ASTNode) (s : Select) : Select :=
  mkSelect (targets s) (distinct s) (from_table s) (where_ s) (group_by s)
           (having s) (order_by s) (Some x) (offset s).
Definition set_order_by (x : list OrderBy) (s : Select) : Select :=
  mkSelect (targets s) (distinct s) (from_table s) (where_ s) (group_by s)
           (having s) (Some x) (limit s) (offset s).
Definition set_having (x : ASTNode) (s : Select) : Select :=
  mkSelect (targets s) (distinct s) (from_table s) (where_ s) (group_by s)
           (Some x) (order_by s) (limit s) (offset s).
Definition set_group_by (x : list ASTNode) (s : Select) : Select :=
  mkSelect (targets s) (distinct s) (from_table s) (where_ s) (Some x)
           (having s) (order_by s) (limit s) (offset s).
Definition set_where (x : ASTNode) (s : Select) : Select :=
  mkSelect (targets s) (distinct s) (from_table s) (Some x) (group_by s)
           (having s) (order_by s) (limit s) (offset s).
Definition set_from_table (x : FromTable) (s : Select) : Select :=
  mkSelect (targets s) (distinct s) (Some x) (where_ s) (group_by s)
           (having s) (order_by s) (limit s) (offset s).

(** [Select(targets=targets, distinct=d)] *)
Definition new_Select (targets : list ASTNode) (d : bool) : Select :=
  mkSelect targets d None None None None None None None.

(** [isinstance(constant.value, int)], with the value for the message. *)
Definition int_valued (c : ASTNode) : result (bool * pyval) :=
  match c with
  | Constant (PyInt z) _ _ => Ok (true, PyInt z)
  | Constant v _ _ => Ok (false, v)
  | _ => ill_typed
  end.

(** [@_('select OFFSET constant')] *)
Definition select_OFFSET (p : list sval) : result sval :=
  match p with
  | [VSelect select; VToken _; VNode constant] =>
      ensure_select_keyword_order select "OFFSET" ;;;
      iv <- int_valued constant ;;
      if fst iv then Ok (VSelect (set_offset constant select))
      else Raise (ParsingException
                    ("OFFSET must be an integer value, got: "
                       +++ format_value (snd iv)))
  | _ => ill_typed
  end.

(** [@_('select LIMIT constant')] *)
Definition select_LIMIT (p : list sval) : result sval :=
  match p with
  | [VSelect select; VToken _; VNode constant] =>
      ensure_select_keyword_order select "LIMIT" ;;;
      iv <- int_valued constant ;;
      if fst iv then Ok (VSelect (set_limit constant select))
      else Raise (ParsingException
                    ("LIMIT must be an integer value, got: "
                       +++ format_value (snd iv)))
  | _ => ill_typed
  end.

(** [@_('select ORDER_BY ordering_terms')] *)
Definition select_ORDER_BY (p : list sval) : result sval :=
  match p with
  | [VSelect select; VToken _; VOrders ordering_terms] =>
      ensure_select_keyword_order select "ORDER BY" ;;;
      Ok (VSelect (set_order_by ordering_terms select))
  | _ => ill_typed
  end.

(** [@_('ordering_terms COMMA ordering_term')] *)
Definition ordering_terms_append (p : list sval) : result sval :=
  match p with
  | [VOrders terms; VToken _; VOrder ordering_term] =>
      Ok (VOrders (terms ++ [ordering_term]))
  | _ => ill_typed
  end.

(** [@_('ordering_term')] *)
Definition ordering_terms_single (p : list sval) : result sval :=
  match p with
  | [VOrder ordering_term] => Ok (VOrders [ordering_term])
  | _ => ill_typed
  end.

(** [@_('ordering_term NULLS_FIRST')] and [@_('ordering_term NULLS_LAST')] *)
Definition ordering_term_NULLS (p : list sval) : result sval :=
  match p with
  | [VOrder ordering_term; VToken v] =>
      Ok (VOrder (mkOrderBy (field ordering_term) (direction ordering_term)
                            (Some (text_of v))))
  | _ => ill_typed
  end.

(** [@_('identifier DESC')], [@_('identifier ASC')]: the direction is
    the literal of the rule, not the text of the token. *)
Definition ordering_term_directed (dir : string) (p : list sval)
  : result sval :=
  match p with
  | [VNode identifier; VToken _] => Ok (VOrder (mkOrderBy identifier dir None))
  | _ => ill_typed
  end.

(** [@_('identifier')] *)
Definition ordering_term_plain (p : list sval) : result sval :=
  match p with
  | [VNode identifier] => Ok (VOrder (mkOrderBy identifier "default" None))
  | _ => ill_typed
  end.

(** [@_('select HAVING expr')] *)
Definition select_HAVING (p : list sval) : result sval :=
  match p with
  | [VSelect select; VToken _; VNode having] =>
      ensure_select_keyword_order select "HAVING" ;;;
      if Node.is_Operation having then Ok (VSelect (set_having having select))
      else Raise (ParsingException
                    ("HAVING must contain an operation that evaluates to a boolean, got: "
                       +++ Render.to_string having))
  | _ => ill_typed
  end.

(** [@_('select GROUP_BY expr_list')] *)
Definition select_GROUP_BY (p : list sval) : result sval :=
  match p with
  | [VSelect select; VToken _; VNodes group_by] =>
      ensure_select_keyword_order select "GROUP BY" ;;;
      if forallb Node.is_Identifier group_by
      then Ok (VSelect (set_group_by group_by select))
      else Raise (ParsingException
                    ("GROUP BY must contain a list identifiers, got: "
                       +++ Render.list_to_string group_by))
  | _ => ill_typed
  end.

(** [@_('select WHERE expr')] *)
Definition select_WHERE (p : list sval) : result sval :=
  match p with
  | [VSelect select; VToken _; VNode where_expr] =>
      ensure_select_keyword_order select "WHERE" ;;;
      if Node.is_Operation where_expr
      then Ok (VSelect (set_where where_expr select))
      else Raise (ParsingException
                    ("WHERE must contain an operation that evaluates to a boolean, got: "
                       +++ Render.to_string where_expr))
  | _ => ill_typed
  end.

(** [@_('select FROM from_table')] *)
Definition select_FROM (p : list sval) : result sval :=
  match p with
  | [VSelect select; VToken _; VFrom from_table] =>
      ensure_select_keyword_order select "FROM" ;;;
      Ok (VSelect (set_from_table from_table select))
  | _ => ill_typed
  end.

(** [@_('table_or_subquery join_clause table_or_subquery')] *)
Definition from_table_join (p : list sval) : result sval :=
  match p with
  | [VNode t0; VToken join_clause; VNode t1] =>
      Ok (VFrom (FromJoin (mkJoin t0 t1 (text_of join_clause) None false)))
  | _ => ill_typed
  end.

(** [@_('table_or_subquery COMMA table_or_subquery')] *)
Definition from_table_comma (p : list sval) : result sval :=
  match p with
  | [VNode t0; VToken _; VNode t1] =>
      Ok (VFrom (FromJoin (mkJoin t0 t1 "INNER JOIN" None true)))
  | _ => ill_typed
  end.

(** [@_('table_or_subquery join_clause table_or_subquery ON expr')] *)
Definition from_table_join_on (p : list sval) : result sval :=
  match p with
  | [VNode t0; VToken join_clause; VNode t1; VToken _; VNode expr] =>
      Ok (VFrom (FromJoin (mkJoin t0 t1 (text_of join_clause) (Some expr) false)))
  | _ => ill_typed
  end.

(** [@_('table_or_subquery')] *)
Definition from_table_single (p : list sval) : result sval :=
  match p with
  | [VNode t] => Ok (VFrom (FromNode t))
  | _ => ill_typed
  end.

(** Rules that hand their only symbol on: [table_or_subquery :
    identifier], [result_column : expr], [expr_list : enumeration],
    [expr : identifier], [expr : constant], and [join_clause], which
    returns [p[0]]. *)
Definition pass (p : list sval) : result sval :=
  match p with
  | [v] => Ok v
  | _ => ill_typed
  end.

(** [@_('SELECT DISTINCT result_columns')] *)
Definition select_DISTINCT (p : list sval) : result sval :=
  match p with
  | [VToken _; VToken _; VNodes targets] => Ok (VSelect (new_Select targets true))
  | _ => ill_typed
  end.

(** [@_('SELECT result_columns')] *)
Definition select_plain (p : list sval) : result sval :=
  match p with
  | [VToken _; VNodes targets] => Ok (VSelect (new_Select targets false))
  | _ => ill_typed
  end.

(** [@_('result_columns COMMA result_column')] *)
Definition result_columns_append (p : list sval) : result sval :=
  match p with
  | [VNodes result_columns; VToken _; VNode result_column] =>
      Ok (VNodes (result_columns ++ [result_column]))
  | _ => ill_typed
  end.

(** [@_('result_column')] and [@_('expr')] of [expr_list] *)
Definition singleton (p : list sval) : result sval :=
  match p with
  | [VNode x] => Ok (VNodes [x])
  | _ => ill_typed
  end.

(** [@_('result_column AS identifier')] *)
Definition result_column_AS (p : list sval) : result sval :=
  match p with
  | [VNode col; VToken _; VNode (Identifier value _ _)] =>
      Ok (VNode (Node.set_alias value col))
  | _ => ill_typed
  end.

(** [@_('ID LPAREN expr_list RPAREN')] *)
Definition expr_function (p : list sval) : result sval :=
  match p with
  | [VToken id; VToken _; VNodes expr_list; VToken _] =>
      Ok (VNode (Function (text_of id) expr_list None false))
  | _ => ill_typed
  end.

(** [@_('LPAREN expr RPAREN')] *)
Definition expr_parentheses (p : list sval) : result sval :=
  match p with
  | [VToken _; VNode expr; VToken _] => Ok (VNode (Node.set_parentheses expr))
  | _ => ill_typed
  end.

(** [@_('STAR')] and [@_('ID')] of [identifier] *)
Definition identifier_of_token (p : list sval) : result sval :=
  match p with
  | [VToken v] => Ok (VNode (Identifier (text_of v) None false))
  | _ => ill_typed
  end.

(** [@_('expr PLUS expr', ..., 'expr IN expr')] *)
Definition expr_binary (p : list sval) : result sval :=
  match p with
  | [VNode expr0; VToken op; VNode expr1] =>
      Ok (VNode (BinaryOperation (text_of op) expr0 expr1 None false))
  | _ => ill_typed
  end.

(** [@_('MINUS expr %prec UMINUS', 'NOT expr %prec UNOT')] *)
Definition expr_unary (p : list sval) : result sval :=
  match p with
  | [VToken op; VNode expr] =>
      Ok (VNode (UnaryOperation (text_of op) expr None false))
  | _ => ill_typed
  end.

(** [@_('enumeration COMMA expr')] *)
Definition enumeration_append (p : list sval) : result sval :=
  match p with
  | [VNodes enumeration; VToken _; VNode expr] => Ok (VNodes (enumeration ++ [expr]))
  | _ => ill_typed
  end.

(** [@_('expr COMMA expr')] *)
Definition enumeration_pair (p : list sval) : result sval :=
  match p with
  | [VNode expr0; VToken _; VNode expr1] => Ok (VNodes [expr0; expr1])
  | _ => ill_typed
  end.

(** [@_('INTEGER')]: [Constant(value=int(p.INTEGER))] *)
Definition constant_INTEGER (p : list sval) : result sval :=
  match p with
  | [VToken (PyInt z)] => Ok (VNode (Constant (PyInt z) None false))
  | _ => ill_typed
  end.

(** [@_('FLOAT')]: [Constant(value=float(p.FLOAT))] *)
Definition constant_FLOAT (p : list sval) : result sval :=
  match p with
  | [VToken (PyFloat f)] => Ok (VNode (Constant (PyFloat f) None false))
  | _ => ill_typed
  end.

(** [@_('STRING')]: [Constant(value=str(p.STRING))] *)
Definition constant_STRING (p : list sval) : result sval :=
  match p with
  | [VToken v] => Ok (VNode (Constant (PyStr (text_of v)) None false))
  | _ => ill_typed
  end.

End Rules.

Module Grammar.

Inductive nonterminal : Set :=
| select | ordering_terms | ordering_term | from_table | table_or_subquery
| join_clause | result_columns | result_column | expr | expr_list
| identifier | enumeration | constant.

Definition nonterminal_code (n : nonterminal) : N :=
  match n with
  | select => 101 | ordering_terms => 102 | ordering_term => 103
  | from_table => 104 | table_or_subquery => 105 | join_clause => 106
  | result_columns => 107 | result_column => 108 | expr => 109
  | expr_list => 110 | identifier => 111 | enumeration => 112
  | constant => 113
  end%N.

Inductive symbol : Set :=
| T (k : TokenKind)
| NT (n : nonterminal).

Definition symbol_code (s : symbol) : N :=
  match s with
  | T k => kind_code k
  | NT n => nonterminal_code n
  end.

(** The names of the precedence table: tokens, and the two names that
    only [%prec] uses. *)
Inductive prec_name : Set :=
| OfToken (k : TokenKind)
| UMINUS
| UNOT.

(** [[
  precedence = (
      ('nonassoc', LESS, LEQ, GREATER, GEQ, EQUALS, NEQUALS),
      ('left', PLUS, MINUS),
      ('left', STAR, DIVIDE),
      ('right', UMINUS, UNOT),
  )
]] *)
Definition precedence : list (LALR.assoc * list prec_name) :=
  [ (LALR.nonassoc, [OfToken LESS; OfToken LEQ; OfToken GREATER;
                     OfToken GEQ; OfToken EQUALS; OfToken NEQUALS]);
    (LALR.left_assoc, [OfToken PLUS; OfToken MINUS]);
    (LALR.left_assoc, [OfToken STAR; OfToken DIVIDE]);
    (LALR.right_assoc, [UMINUS; UNOT]) ].

Definition prec_name_eqb (a b : prec_name) : bool :=
  match a, b with
  | OfToken x, OfToken y => kind_eqb x y
  | UMINUS, UMINUS => true
  | UNOT, UNOT => true
  | _, _ => false
  end.

(** [Precedence.get(name, ('right', 0))]; the levels count from 1. *)
Fixpoint prec_lookup (level : nat) (tbl : list (LALR.assoc * list prec_name))
         (x : prec_name) : LALR.assoc * nat :=
  match tbl with
  | [] => (LALR.right_assoc, 0)
  | (a, names) :: r =>
      if existsb (prec_name_eqb x) names then (a, level)
      else prec_lookup (S level) r x
  end.

Definition prec_of (x : prec_name) : LALR.assoc * nat :=
  prec_lookup 1 precedence x.

(** One grammar rule: the nonterminal is the name of the method, [syms]
    the string given to [@_], [line] where it stands in [parser.py]. *)
Record rule : Type := mkRule {
  name : nonterminal;
  syms : list symbol;
  prec : option prec_name;       (* [%prec] *)
  line : nat;
  func : list sval -> result sval
}.

Definition binary (op : TokenKind) (ln : nat) : rule :=
  mkRule expr [NT expr; T op; NT expr] None ln Rules.expr_binary.

(** The productions in the order SLY numbers them: the methods by the
    first appearance of their name, under one name the latest definition
    first, and the rules of one decorator last to first. *)
Definition rules : list rule :=
  [ (* select *)
    mkRule select [T SELECT; NT result_columns] None 203 Rules.select_plain;
    mkRule select [T SELECT; T DISTINCT; NT result_columns] None 198
           Rules.select_DISTINCT;
    mkRule select [NT select; T FROM; NT from_table] None 156 Rules.select_FROM;
    mkRule select [NT select; T WHERE; NT expr] None 146 Rules.select_WHERE;
    mkRule select [NT select; T GROUP_BY; NT expr_list] None 131
           Rules.select_GROUP_BY;
    mkRule select [NT select; T HAVING; NT expr] None 120 Rules.select_HAVING;
    mkRule select [NT select; T ORDER_BY; NT ordering_terms] None 81
           Rules.select_ORDER_BY;
    mkRule select [NT select; T LIMIT; NT constant] None 72 Rules.select_LIMIT;
    mkRule select [NT select; T OFFSET; NT constant] None 62 Rules.select_OFFSET;
    (* ordering_terms *)
    mkRule ordering_terms [NT ordering_term] None 94 Rules.ordering_terms_single;
    mkRule ordering_terms [NT ordering_terms; T COMMA; NT ordering_term] None 88
           Rules.ordering_terms_append;
    (* ordering_term *)
    mkRule ordering_term [NT identifier] None 116 Rules.ordering_term_plain;
    mkRule ordering_term [NT identifier; T ASC] None 112
           (Rules.ordering_term_directed "ASC");
    mkRule ordering_term [NT identifier; T DESC] None 108
           (Rules.ordering_term_directed "DESC");
    mkRule ordering_term [NT ordering_term; T NULLS_LAST] None 103
           Rules.ordering_term_NULLS;
    mkRule ordering_term [NT ordering_term; T NULLS_FIRST] None 98
           Rules.ordering_term_NULLS;
    (* from_table *)
    mkRule from_table [NT table_or_subquery] None 183 Rules.from_table_single;
    mkRule from_table [NT table_or_subquery; NT join_clause;
                       NT table_or_subquery; T ON; NT expr] None 176
           Rules.from_table_join_on;
    mkRule from_table [NT table_or_subquery; T COMMA; NT table_or_subquery]
           None 169 Rules.from_table_comma;
    mkRule from_table [NT table_or_subquery; NT join_clause;
                       NT table_or_subquery] None 163 Rules.from_table_join;
    (* table_or_subquery *)
    mkRule table_or_subquery [NT identifier] None 187 Rules.pass;
    (* join_clause *)
    mkRule join_clause [T FULL_JOIN] None 194 Rules.pass;
    mkRule join_clause [T INNER_JOIN] None 193 Rules.pass;
    mkRule join_clause [T RIGHT_JOIN] None 192 Rules.pass;
    mkRule join_clause [T LEFT_JOIN] None 191 Rules.pass;
    (* result_columns *)
    mkRule result_columns [NT result_column] None 213 Rules.singleton;
    mkRule result_columns [NT result_columns; T COMMA; NT result_column] None 208
           Rules.result_columns_append;
    (* result_column *)
    mkRule result_column [NT expr] None 223 Rules.pass;
    mkRule result_column [NT result_column; T AS; NT identifier] None 217
           Rules.result_column_AS;
    (* expr *)
    mkRule expr [NT constant] None 293 Rules.pass;
    mkRule expr [NT identifier] None 289 Rules.pass;
    mkRule expr [T NOT; NT expr] (Some UNOT) 275 Rules.expr_unary;
    mkRule expr [T MINUS; NT expr] (Some UMINUS) 274 Rules.expr_unary;
    binary IN 270; binary LIKE 269; binary IS 268; binary ISNOT 267;
    binary NOT 266; binary OR 265; binary AND 264; binary LESS 263;
    binary LEQ 262; binary GREATER 261; binary GEQ 260; binary NEQUALS 259;
    binary EQUALS 258; binary MODULO 257; binary DIVIDE 256; binary STAR 255;
    binary MINUS 254; binary PLUS 253;
    mkRule expr [T LPAREN; NT expr; T RPAREN] None 235 Rules.expr_parentheses;
    mkRule expr [T ID; T LPAREN; NT expr_list; T RPAREN] None 231
           Rules.expr_function;
    (* expr_list *)
    mkRule expr_list [NT expr] None 245 Rules.singleton;
    mkRule expr_list [NT enumeration] None 241 Rules.pass;
    (* identifier *)
    mkRule identifier [T ID] None 309 Rules.identifier_of_token;
    mkRule identifier [T STAR] None 249 Rules.identifier_of_token;
    (* enumeration *)
    mkRule enumeration [NT expr; T COMMA; NT expr] None 285 Rules.enumeration_pair;
    mkRule enumeration [NT enumeration; T COMMA; NT expr] None 281
           Rules.enumeration_append;
    (* constant *)
    mkRule constant [T STRING] None 305 Rules.constant_STRING;
    mkRule constant [T FLOAT] None 301 Rules.constant_FLOAT;
    mkRule constant [T INTEGER] None 297 Rules.constant_INTEGER ].

(** A production takes the precedence named by [%prec], or else that of
    its rightmost terminal. *)
Fixpoint rightmost_terminal (l : list symbol) : option TokenKind :=
  match l with
  | [] => None
  | s :: r =>
      match rightmost_terminal r, s with
      | Some k, _ => Some k
      | None, T k => Some k
      | None, NT _ => None
      end
  end.

Definition rule_prec (r : rule) : LALR.assoc * nat :=
  match prec r with
  | Some x => prec_of x
  | None =>
      match rightmost_terminal (syms r) with
      | Some k => prec_of (OfToken k)
      | None => (LALR.right_assoc, 0)
      end
  end.

Definition production_of (r : rule) : LALR.production :=
  LALR.mkProd (nonterminal_code (name r)) (map symbol_code (syms r))
              (rule_prec r) (line r).

(** The start symbol is the name of the first rule; production 0 is
    [S' -> select]. *)
Definition start : nonterminal := select.

Definition token_prec (a : N) : LALR.assoc * nat :=
  match find (fun k => N.eqb (kind_code k) a) all_kinds with
  | Some k => prec_of (OfToken k)
  | None => (LALR.right_assoc, 0)
  end.

Definition grammar : LALR.grammar :=
  LALR.mkGrammar
    (LALR.mkProd 100 [nonterminal_code start] (LALR.right_assoc, 0) 0
       :: map production_of rules)
    (map kind_code all_kinds)
    token_prec.

(** The tables SLY builds when the class is created. *)
Definition tables : LALR.tables :=
  Eval vm_compute in LALR.build grammar 1000 1000.

End Grammar.

(* ================================================================== *)
(** ** SLY's driver: [Parser.parse] *)
(* ================================================================== *)

Module Parser.

(** The lookahead of the loop: not read yet, a token, or [$end]. *)
Inductive lookahead : Set :=
| Unread
| Tok (t : Token)
| EndOfInput.

Record config : Set := mkConfig {
  statestack : list nat;     (* top first *)
  symstack : list sval;      (* top first *)
  look : lookahead;
  tokens : Lexer.scanner     (* the generator handed to [parse] *)
}.

Section Driver.

(** The lexer the token generator comes from. *)
Variable next_token : Lexer.scanner -> Lexer.scan_result.

Definition rule_of (p : nat) : option Grammar.rule :=
  match p with
  | O => None
  | S n => nth_error Grammar.rules n
  end.

(** [def error(self, p)] *)
Definition error (p : lookahead) : exn :=
  match p with
  | Tok t =>
      ParsingException ("Syntax error at token " +++ kind_name (type t) +++ ": "
                          +++ dquote +++ format_value (value t) +++ dquote)
  | _ => ParsingException "Syntax error at EOF"
  end.

Definition lookahead_code (l : lookahead) : N :=
  match l with
  | Tok t => kind_code (type t)
  | _ => 0%N
  end.

(** Read the lookahead if the loop has none. *)
Definition fetch (c : config) : result config :=
  match look c with
  | Unread =>
      match next_token (tokens c) with
      | Lexer.ScanEnd =>
          Ok (mkConfig (statestack c) (symstack c) EndOfInput (tokens c))
      | Lexer.ScanToken t sc =>
          Ok (mkConfig (statestack c) (symstack c) (Tok t) sc)
      | Lexer.ScanError e => Raise (LexError e)
      end
  | _ => Ok c
  end.

Inductive step_result : Set :=
| Continue (c : config)
| Done (v : sval)
| Failed (e : exn).

Definition reduce (p : nat) (c : config) : step_result :=
  match rule_of p with
  | None => Failed (Impossible "no such production")
  | Some r =>
      let plen := List.length (Grammar.syms r) in
      let slice := rev (firstn plen (symstack c)) in
      match Grammar.func r slice with
      | Raise e => Failed e
      | Ok v =>
          let states := skipn plen (statestack c) in
          match states with
          | [] => Failed (Impossible "empty state stack")
          | s :: _ =>
              match LALR.assoc_nat (Grammar.nonterminal_code (Grammar.name r))
                                   (nth s (LALR.lr_goto Grammar.tables) []) with
              | None => Failed (Impossible "no goto")
              | Some j =>
                  Continue (mkConfig (j :: states)
                                     (v :: skipn plen (symstack c))
                                     (look c) (tokens c))
              end
          end
      end
  end.

(** One turn of the [while True] loop. *)
Definition step (c : config) : step_result :=
  match statestack c with
  | [] => Failed (Impossible "empty state stack")
  | state :: _ =>
      match nth state (LALR.defaulted_states Grammar.tables) None with
      | Some p => reduce p c
      | None =>
          match fetch c with
          | Raise e => Failed e
          | Ok c' =>
              match LALR.assoc_action (lookahead_code (look c'))
                                      (nth state (LALR.lr_action Grammar.tables) []) with
              | Some (LALR.Shift j) =>
                  match look c' with
                  | Tok t =>
                      Continue (mkConfig (j :: statestack c')
                                         (VToken (value t) :: symstack c')
                                         Unread (tokens c'))
                  | _ => Failed (Impossible "shift of $end")
                  end
              | Some (LALR.Reduce p) => reduce p c'
              | Some LALR.Accept =>
                  match symstack c' with
                  | v :: _ => Done v
                  | [] => Failed (Impossible "empty symbol stack")
                  end
              | Some LALR.NoAction | None => Failed (error (look c'))
              end
          end
      end
  end.

Fixpoint run (fuel : nat) (c : config) : result sval :=
  match fuel with
  | O => Raise OutOfFuel
  | S k =>
      match step c with
      | Continue c' => run k c'
      | Done v => Ok v
      | Failed e => Raise e
      end
  end.

Definition initial (text : string) : config :=
  mkConfig [0] [] Unread (Lexer.start text).

(** Turns allowed for a text: a number of turns for every character,
    with room for the end of the input. *)
Definition fuel_for (text : string) : nat :=
  (String.length text + 2) * (2 + List.length Grammar.rules).

Definition parse (text : string) : result sval :=
  run (fuel_for text) (initial text).

End Driver.

End Parser.

(** [parse_sql] of the tests: [SQLParser().parse(SQLLexer().tokenize(sql))]. *)
Definition parse_sql (sql : string) : result sval :=
  Parser.parse Lexer.next_token sql.


(** The same with the join keywords as single tokens. *)
Definition parse_sql_joins (sql : string) : result sval :=
  Parser.parse (Lexer.scan_with Lexer.rules_with_joins) sql.

(* ================================================================== *)
(** ** Notions used to state the properties *)
(* ================================================================== *)

Module Props.

Import Chars.

(** The text [r] does not go on with a character of the class [p]. *)
Definition stops (p : ascii -> bool) (r : string) : bool :=
  match r with
  | String c _ => negb (p c)
  | EmptyString => true
  end.


(** The 256 characters. *)
Definition all_ascii : list ascii := map ascii_of_nat (seq 0 256).

(** The two strings are the same up to the case of their letters. *)
Fixpoint nocase_eq (a b : string) : bool :=
  match a, b with
  | EmptyString, EmptyString => true
  | String x a', String y b' => eqb_nocase x y && nocase_eq a' b'
  | _, _ => false
  end.

(** The character before the index [i] of [text]. *)
Definition char_before (text : string) (i : nat) : option ascii :=
  Text.last_char None (Text.take i text).



(** A necessary condition on the first character for a pattern to match. *)
Definition may_start (p : Lexer.pattern) (c : ascii) : bool :=
  match p with
  | Lexer.Keyword w =>
      match w with String a _ => eqb_nocase a c | EmptyString => true end
  | Lexer.Literal w =>
      match w with String a _ => Ascii.eqb a c | EmptyString => true end
  | Lexer.PatID => is_idchar c || Ascii.eqb c "`"
  | Lexer.PatFLOAT | Lexer.PatINTEGER => is_digit c
  | Lexer.PatSTRING => Ascii.eqb c Lexer.dquote || Ascii.eqb c "'"
  end.

Definition candidates (rs : list (TokenKind * Lexer.pattern)) (c : ascii)
  : list (TokenKind * Lexer.pattern) :=
  filter (fun kp => may_start (snd kp) c) rs.





(** *** The statements of the clause-order test *)








(** The shape of the keywords of the class: the first and the last
    character are word characters. *)
Definition wordy (v : string) : bool :=
  match v with
  | String c _ => is_word c && word_opt (Text.last_char None v)
  | EmptyString => false
  end.

(** *** Nodes as the constructors build them *)

(** [Constant(z)], [Identifier(s)] and [BinaryOperation(o, (x, y))] with
    no alias and no parentheses. *)
Definition int_const (z : Z) : ASTNode := Constant (PyInt z) None false.
Definition ident (s : string) : ASTNode := Identifier s None false.
Definition binop (o : string) (x y : ASTNode) : ASTNode :=
  BinaryOperation o x y None false.

(** [SELECT c FROM t], the statement the clauses of the examples are
    attached to. *)
Definition select_c_from_t : Select :=
  mkSelect [ident "c"] false (Some (FromNode (ident "t")))
           None None None None None None.



(** *** Rendering and parsing again *)

(** The statement [sql] parses with [parse] to a tree whose text is [sql]
    again, and which comes back when that text is parsed.  The tree form
    that [to_tree] compares is the tree itself. *)
Definition comes_back (parse : string -> result sval) (sql : string) : Prop :=
  exists s,
    parse sql = Ok (VSelect s) /\
    Render.select_to_string s = sql /\
    parse (Render.select_to_string s) = Ok (VSelect s).

End Props.

(* ================================================================== *)
(** ** Notions used to state further properties of the lexer *)
(* ================================================================== *)

Module LexProps.

Import Chars Props.

(** No rule of the list has an empty keyword or literal. *)
Definition pattern_nonempty (p : Lexer.pattern) : bool :=
  match p with
  | Lexer.Keyword w | Lexer.Literal w => negb (String.eqb w "")
  | _ => true
  end.

Definition rules_nonempty (rs : list (TokenKind * Lexer.pattern)) : bool :=
  forallb (fun kp => pattern_nonempty (snd kp)) rs.

(** The tokens follow one another from [lo] on and end by [hi], each
    with at least one character. *)
Fixpoint spans_within (lo hi : nat) (ts : list Token) : bool :=
  match ts with
  | [] => lo <=? hi
  | t :: r => (lo <=? index t) && (index t <? end_ t) && spans_within (end_ t) hi r
  end.

(** [text[i:j]] *)
Definition slice (text : string) (i j : nat) : string :=
  Text.take (j - i) (Text.drop i text).

(** The index [i] lies in one of the tokens. *)
Definition covered (ts : list Token) (i : nat) : bool :=
  existsb (fun t => (index t <=? i) && (i <? end_ t)) ts.

(** How far the lexer read: to the end of the text, or to the index of
    the error. *)
Definition read_up_to (text : string) (e : option Lexer.LexError) : nat :=
  match e with
  | None => String.length text
  | Some e => Lexer.error_index e
  end.

(** The character at the index [i] is one the lexer ignores. *)
Definition ignored_at (text : string) (i : nat) : bool :=
  match Text.head (Text.drop i text) with
  | Some c => is_ignored c
  | None => false
  end.

(** The scanner stands at an index of [text]. *)
Definition stands_in (text : string) (sc : Lexer.scanner) : Prop :=
  Lexer.rest sc = Text.drop (Lexer.pos sc) text /\
  Lexer.pos sc <= String.length text /\
  Lexer.before sc = char_before text (Lexer.pos sc).

(** The token is the first match of the rules [rs] at its index, and its
    value is what its method makes of the text between its indices. *)
Definition carries (rs : list (TokenKind * Lexer.pattern)) (text : string)
           (t : Token) : Prop :=
  Lexer.first_match rs (char_before text (index t)) (Text.drop (index t) text)
  = Some (type t, end_ t - index t) /\
  value t = Lexer.token_value (type t) (slice text (index t) (end_ t)).

(** What one turn of the scanner answers with, in terms of the number
    [j] of ignored characters it skips. *)
Inductive scanned (rs : list (TokenKind * Lexer.pattern)) (b : option ascii)
          (s : string) (i : nat) : Lexer.scan_result -> Prop :=
| scanned_end :
    Text.forallb is_ignored s = true -> scanned rs b s i Lexer.ScanEnd
| scanned_token j k n :
    Text.forallb is_ignored (Text.take j s) = true ->
    j + n <= String.length s -> 0 < n ->
    Lexer.first_match rs (Text.last_char b (Text.take j s)) (Text.drop j s) = Some (k, n) ->
    stops is_ignored (Text.drop j s) = true ->
    scanned rs b s i
      (Lexer.ScanToken (mkToken k (Lexer.token_value k (Text.take n (Text.drop j s)))
                          (i + j) (i + j + n))
                 (Lexer.mkScanner (Text.last_char b (Text.take (j + n) s))
                            (Text.drop (j + n) s) (i + j + n)))
| scanned_error j :
    Text.forallb is_ignored (Text.take j s) = true ->
    j < String.length s ->
    stops is_ignored (Text.drop j s) = true ->
    Lexer.first_match rs (Text.last_char b (Text.take j s)) (Text.drop j s) = None ->
    scanned rs b s i (Lexer.ScanError (Lexer.mkLexError (i + j) (Text.drop j s))).

End LexProps.

Module ScanProps.

Import Chars.

(** The text [s] holds no character [q]. *)
Definition free_of (q : ascii) (s : string) : bool :=
  Text.forallb (fun c => negb (Ascii.eqb c q)) s.

(** The two delimiters of [STRING]. *)
Definition is_quote (c : ascii) : bool :=
  Ascii.eqb c Lexer.dquote || Ascii.eqb c "'".

(** The characters some rule of the lexer can start with, apart from the
    ignored ones: those of identifiers, numbers and keywords, the
    back quote, the two quotes, and the punctuation and operator
    characters. *)
Definition starts_token (c : ascii) : bool :=
  is_idchar c || Text.existsb (Ascii.eqb c) "`'*.,()?+-/%=!><|"
  || Ascii.eqb c Lexer.dquote.

(** The token of kind [k] for the [n] characters [w] at the index [i],
    and the scanner after it. *)
Definition reads (k : TokenKind) (w : string) (b : option ascii)
           (r : string) (i : nat) : Lexer.scan_result :=
  Lexer.ScanToken (mkToken k (PyStr w) i (i + String.length w))
                  (Lexer.mkScanner (Text.last_char b w) r (i + String.length w)).

(** The text [r] goes on with the character [c]. *)
Definition goes_on_with (c : ascii) (r : string) : bool :=
  match r with
  | String x _ => Ascii.eqb x c
  | EmptyString => false
  end.

End ScanProps.

(* ================================================================== *)
(** ** Notions used to state further properties of the parser *)
(* ================================================================== *)

Module ParseProps.

Definition nonempty {A : Type} (l : list A) : bool :=
  match l with [] => false | _ :: _ => true end.

(** [Constant] with an [int] value. *)
Definition is_int_constant (n : ASTNode) : bool :=
  match n with Constant (PyInt _) _ _ => true | _ => false end.

(** What [FROM] holds: an identifier, or a join of two identifiers whose
    type is a text, implicit when it has no condition of its own. *)
Definition from_ok (f : FromTable) : bool :=
  match f with
  | FromNode n => Node.is_Identifier n
  | FromJoin j => Node.is_Identifier (left j) && Node.is_Identifier (right j)
  end.

(** An ordering term: an identifier with one of the three directions. *)
Definition order_ok (o : OrderBy) : bool :=
  Node.is_Identifier (field o)
  && existsb (String.eqb (direction o)) ["default"; "ASC"; "DESC"].

(** The shape of every [Select] the grammar rules build: what each
    clause holds, and which clauses come with which. *)
Definition well_formed (s : Select) : bool :=
  nonempty (targets s)
  && match from_table s with Some f => from_ok f | None => true end
  && match where_ s with
     | Some e => Node.is_Operation e && truth (from_table s)
     | None => true
     end
  && match group_by s with
     | Some l => nonempty l && forallb Node.is_Identifier l && truth (from_table s)
     | None => true
     end
  && match having s with
     | Some e => Node.is_Operation e && truth_list (group_by s)
     | None => true
     end
  && match order_by s with
     | Some l => nonempty l && forallb order_ok l && truth (from_table s)
     | None => true
     end
  && match limit s with Some c => is_int_constant c | None => true end
  && match offset s with Some c => is_int_constant c | None => true end.

(** The value a token of kind [k] carries: an [int] for [INTEGER], a
    [float] for [FLOAT], a text for any other kind. *)
Definition value_fits (k : TokenKind) (v : pyval) : bool :=
  match k, v with
  | INTEGER, PyInt _ => true
  | INTEGER, _ => false
  | FLOAT, PyFloat _ => true
  | FLOAT, _ => false
  | _, PyStr _ => true
  | _, _ => false
  end.

(** What stands on the parser's stack for a grammar symbol. *)
Definition shape (X : Grammar.symbol) (v : sval) : bool :=
  match X with
  | Grammar.T k => match v with VToken x => value_fits k x | _ => false end
  | Grammar.NT Grammar.select => match v with VSelect s => well_formed s | _ => false end
  | Grammar.NT Grammar.ordering_terms =>
      match v with VOrders l => nonempty l && forallb order_ok l | _ => false end
  | Grammar.NT Grammar.ordering_term => match v with VOrder o => order_ok o | _ => false end
  | Grammar.NT Grammar.from_table => match v with VFrom f => from_ok f | _ => false end
  | Grammar.NT Grammar.table_or_subquery | Grammar.NT Grammar.identifier =>
      match v with VNode n => Node.is_Identifier n | _ => false end
  | Grammar.NT Grammar.join_clause => match v with VToken (PyStr _) => true | _ => false end
  | Grammar.NT Grammar.result_columns | Grammar.NT Grammar.expr_list | Grammar.NT Grammar.enumeration =>
      match v with VNodes l => nonempty l | _ => false end
  | Grammar.NT Grammar.result_column | Grammar.NT Grammar.expr => match v with VNode _ => true | _ => false end
  | Grammar.NT Grammar.constant => match v with VNode n => Node.is_Constant n | _ => false end
  end.

(** The values [vs] have the shapes of the symbols [Xs], one by one. *)
Definition shaped (Xs : list Grammar.symbol) (vs : list sval) : Prop :=
  Forall2 (fun X v => shape X v = true) Xs vs.

(** The outcome of a rule: a value of the shape of [X], or a
    [ParsingException]. *)
Definition rule_ok (X : Grammar.symbol) (r : result sval) : Prop :=
  match r with
  | Ok v => shape X v = true
  | Raise (ParsingException _) => True
  | Raise _ => False
  end.

(** The outcome of a parse: a value of the shape of [X], or one of the
    two exceptions of the package. *)
Definition sound (X : Grammar.symbol) (r : result sval) : Prop :=
  match r with
  | Ok v => shape X v = true
  | Raise (ParsingException _) => True
  | Raise (LexError _) => True
  | Raise (Impossible _) => False
  | Raise OutOfFuel => False
  end.

(** The clause [op] is set in [select], as [ensure_select_keyword_order]
    tests it. *)
Definition is_set (select : Select) (op : string) : bool :=
  match get op (op_to_attr select) with
  | Some b => b
  | None => false
  end.

(** The clauses from [op] on in the canonical order, and the clauses
    [op] requires. *)
Definition from_on (op : string) : list string :=
  match index_of op precedence with
  | Some i => skipn i precedence
  | None => []
  end.

Definition required_by (op : string) : list string :=
  match get op requirements with
  | Some l => l
  | None => []
  end.

(** A [Select] with the given clauses set, and the seven truth values
    of a [Select]. *)
Definition when {A : Type} (b : bool) (x : A) : option A :=
  if b then Some x else None.

Definition sample (b : list bool) : Select :=
  let x := Identifier "x" None false in
  mkSelect [x] false
           (when (nth 0 b false) (FromNode x)) (when (nth 1 b false) x)
           (when (nth 2 b false) [x]) (when (nth 3 b false) x)
           (when (nth 4 b false) [mkOrderBy x "default" None])
           (when (nth 5 b false) x) (when (nth 6 b false) x).

Definition clauses_set (select : Select) : list bool :=
  map snd (op_to_attr select).

(** The lists of [n] truth values. *)
Fixpoint truth_tables (n : nat) : list (list bool) :=
  match n with
  | O => [[]]
  | S k => flat_map (fun l => [true :: l; false :: l]) (truth_tables k)
  end.

(** The statement about the clause-order check, as a test on one
    [Select] and one clause. *)
Definition passes (select : Select) (op : string) : bool :=
  forallb (fun o => negb (is_set select o)) (from_on op)
  && forallb (is_set select) (required_by op).

Definition order_check_agrees (select : Select) (op : string) : bool :=
  match ensure_select_keyword_order select op with
  | Ok _ => passes select op
  | Raise (ParsingException _) => negb (passes select op)
  | Raise _ => false
  end.

End ParseProps.

(* ================================================================== *)
(** ** The automaton of the tables *)
(* ================================================================== *)

Module Automaton.

Import ParseProps.

Definition action_row (s : nat) : list (N * LALR.action) :=
  nth s (LALR.lr_action Grammar.tables) [].

Definition goto_row (s : nat) : list (N * nat) :=
  nth s (LALR.lr_goto Grammar.tables) [].

Definition state_count : nat := List.length (LALR.lr_action Grammar.tables).

Definition nonterminals : list Grammar.nonterminal :=
  [ Grammar.select; Grammar.ordering_terms; Grammar.ordering_term;
    Grammar.from_table; Grammar.table_or_subquery; Grammar.join_clause;
    Grammar.result_columns; Grammar.result_column; Grammar.expr;
    Grammar.expr_list; Grammar.identifier; Grammar.enumeration;
    Grammar.constant ].

Definition symbols : list Grammar.symbol :=
  map Grammar.T all_kinds ++ map Grammar.NT nonterminals.

Definition symbol_of_code (a : N) : option Grammar.symbol :=
  find (fun X => N.eqb (Grammar.symbol_code X) a) symbols.

Definition symbol_eqb (X Y : Grammar.symbol) : bool :=
  N.eqb (Grammar.symbol_code X) (Grammar.symbol_code Y).

(** Where the automaton goes from the state [s] on the symbol [X]: by a
    shift when [X] is a token, by the goto table when it is a
    nonterminal. *)
Definition target (s : nat) (X : Grammar.symbol) : option nat :=
  match X with
  | Grammar.T k =>
      match LALR.assoc_action (kind_code k) (action_row s) with
      | Some (LALR.Shift j) => Some j
      | _ => None
      end
  | Grammar.NT n => LALR.assoc_nat (Grammar.nonterminal_code n) (goto_row s)
  end.

Definition leads_to (j : nat) (s : nat) (X : Grammar.symbol) : bool :=
  match target s X with
  | Some j' => j' =? j
  | None => false
  end.

(** The edges that lead into each state. *)
Definition edges_into (j : nat) : list (nat * Grammar.symbol) :=
  flat_map (fun s => map (fun X => (s, X)) (filter (leads_to j s) symbols))
           (seq 0 state_count).

Definition preds : list (list (nat * Grammar.symbol)) :=
  Eval vm_compute in map edges_into (seq 0 state_count).

Definition preds_of (j : nat) : list (nat * Grammar.symbol) := nth j preds [].

(** [preds] leaves no edge out. *)
Definition edges_recorded : bool :=
  forallb (fun s =>
             forallb (fun X =>
                        match target s X with
                        | Some j =>
                            existsb (fun e => (fst e =? s) && symbol_eqb (snd e) X)
                                    (preds_of j)
                        | None => true
                        end) symbols)
          (seq 0 state_count).

(** Walking back from the state [s] along the symbols [rhs_rev], last
    symbol first: every path into [s] spells these symbols, and the
    state it starts from satisfies [final]. *)
Fixpoint back (final : nat -> bool) (rhs_rev : list Grammar.symbol) (s : nat)
  : bool :=
  match rhs_rev with
  | [] => final s
  | X :: r =>
      negb (s =? 0)
      && forallb (fun e => symbol_eqb (snd e) X && back final r (fst e))
                 (preds_of s)
  end.

Definition goes_on (lhs : Grammar.nonterminal) (s : nat) : bool :=
  match LALR.assoc_nat (Grammar.nonterminal_code lhs) (goto_row s) with
  | Some _ => true
  | None => false
  end.

(** An action of the state [s] finds on the stack what it needs: a
    reduction the symbols of its rule and below them a state with a goto
    for the name of the rule, the acceptance a [select]. *)
Definition action_checked (s : nat) (act : LALR.action) : bool :=
  match act with
  | LALR.Reduce p =>
      match Parser.rule_of p with
      | Some r => back (goes_on (Grammar.name r)) (rev (Grammar.syms r)) s
      | None => false
      end
  | LALR.Accept => back (fun _ => true) [Grammar.NT Grammar.select] s
  | LALR.Shift _ | LALR.NoAction => true
  end.

Definition tables_checked : bool :=
  forallb (fun s => forallb (fun e => action_checked s (snd e)) (action_row s))
          (seq 0 state_count).

(** The two stacks of the parser: the states form a path of the
    automaton from state 0, and each value has the shape of the symbol
    of its edge. *)
Inductive stack_ok : list nat -> list sval -> Prop :=
| stack_bottom : stack_ok [0] []
| stack_push s X j v st vs :
    stack_ok (s :: st) vs -> target s X = Some j -> shape X v = true ->
    stack_ok (j :: s :: st) (v :: vs).

(** A configuration of the loop: the stacks are as above, and the
    lookahead, if there is one, carries a value that fits its kind. *)
Definition config_ok (c : Parser.config) : Prop :=
  stack_ok (Parser.statestack c) (Parser.symstack c) /\
  match Parser.look c with
  | Parser.Tok t => value_fits (type t) (value t) = true
  | _ => True
  end.

(** What one turn of the loop may end with, from the configuration [c]
    and with the lexer [next_token]: a [LexError] is the one the lexer
    answers with when the loop asks for the lookahead. *)
Definition turn_ok (next_token : Lexer.scanner -> Lexer.scan_result)
           (c : Parser.config) (r : Parser.step_result) : Prop :=
  match r with
  | Parser.Continue c' =>
      config_ok c' /\
      (Parser.tokens c' = Parser.tokens c \/
       exists t, next_token (Parser.tokens c) = Lexer.ScanToken t (Parser.tokens c'))
  | Parser.Done v => shape (Grammar.NT Grammar.select) v = true
  | Parser.Failed (ParsingException _) => True
  | Parser.Failed (LexError e) =>
      next_token (Parser.tokens c) = Lexer.ScanError e
  | Parser.Failed _ => False
  end.

(** What a bounded number of turns may end with. *)
Definition run_ok (r : result sval) : Prop :=
  match r with
  | Ok v => shape (Grammar.NT Grammar.select) v = true
  | Raise (Impossible _) => False
  | Raise _ => True
  end.

(** No state shifts the end of the input. *)
Definition no_shift_of_end : bool :=
  forallb (fun row =>
             forallb (fun e => match snd e with
                               | LALR.Shift _ => negb (N.eqb (fst e) 0)
                               | _ => true
                               end) row)
          (LALR.lr_action Grammar.tables).

(** A rank of the symbols under which the rules with one symbol go
    up: the name of such a rule ranks above its symbol. *)
Definition rank (X : Grammar.symbol) : nat :=
  match X with
  | Grammar.T _ => 0
  | Grammar.NT Grammar.constant | Grammar.NT Grammar.identifier
  | Grammar.NT Grammar.join_clause | Grammar.NT Grammar.enumeration => 1
  | Grammar.NT Grammar.expr | Grammar.NT Grammar.table_or_subquery
  | Grammar.NT Grammar.ordering_term => 2
  | Grammar.NT Grammar.result_column | Grammar.NT Grammar.expr_list
  | Grammar.NT Grammar.ordering_terms | Grammar.NT Grammar.from_table => 3
  | Grammar.NT Grammar.result_columns | Grammar.NT Grammar.select => 4
  end.

(** The symbol on the edges into a state, and the weight of a state on
    the stack. *)
Definition state_symbol (s : nat) : option Grammar.symbol :=
  match preds_of s with
  | (_, X) :: _ => Some X
  | [] => None
  end.

Definition weight (s : nat) : nat :=
  match state_symbol s with
  | Some X => 9 - rank X
  | None => 9
  end.

Definition pending (l : Parser.lookahead) : nat :=
  match l with Parser.Tok _ => 1 | _ => 0 end.

(** A bound on the turns the loop still takes: each turn makes it
    smaller. *)
Definition potential (c : Parser.config) : nat :=
  10 * (String.length (Lexer.rest (Parser.tokens c)) + pending (Parser.look c))
  + list_sum (map weight (Parser.statestack c)).

(** A reduction by a rule with one symbol leads to a lighter state. *)
Definition units_checked : bool :=
  forallb (fun s =>
             forallb (fun e =>
                        match snd e with
                        | LALR.Reduce p =>
                            match Parser.rule_of p with
                            | Some r =>
                                match Grammar.syms r with
                                | [] => false
                                | [_] => 9 - rank (Grammar.NT (Grammar.name r)) <? weight s
                                | _ => true
                                end
                            | None => true
                            end
                        | _ => true
                        end) (action_row s))
          (seq 0 state_count).

Definition gotos_weighed : bool :=
  forallb (fun s =>
             forallb (fun n =>
                        match LALR.assoc_nat (Grammar.nonterminal_code n) (goto_row s) with
                        | Some j => weight j <=? 9 - rank (Grammar.NT n)
                        | None => true
                        end) nonterminals)
          (seq 0 state_count).

End Automaton.

Module LazyProps.

(** The error the token generator ends with when it is run to its end
    from the scanner [sc]. *)
Definition remaining_error (rs : list (TokenKind * Lexer.pattern))
           (sc : Lexer.scanner) : option Lexer.LexError :=
  snd (Lexer.drain rs (S (String.length (Lexer.rest sc))) sc).

End LazyProps.

Module ExprProps.

Import Props.

(** The binary operators the lexer has a token for, each with its
    text. *)
Definition binary_operators : list (TokenKind * string) :=
  [ (PLUS, "+"); (MINUS, "-"); (STAR, "*"); (DIVIDE, "/"); (MODULO, "%");
    (EQUALS, "="); (NEQUALS, "!="); (GEQ, ">="); (GREATER, ">"); (LEQ, "<=");
    (LESS, "<"); (AND, "AND"); (OR, "OR"); (NOT, "NOT"); (IS, "IS");
    (LIKE, "LIKE"); (IN, "IN") ].

Inductive grouping : Set := ToTheLeft | ToTheRight | Refused.

(** How [a o1 b o2 c] is grouped, by the precedence table alone: the
    operator of the higher level binds first, and on one level the
    associativity of the level decides. *)
Definition grouping_of (o1 o2 : TokenKind) : grouping :=
  let p1 := Grammar.prec_of (Grammar.OfToken o1) in
  let p2 := Grammar.prec_of (Grammar.OfToken o2) in
  if snd p2 <? snd p1 then ToTheLeft
  else if snd p1 <? snd p2 then ToTheRight
  else match fst p1 with
       | LALR.left_assoc => ToTheLeft
       | LALR.right_assoc => ToTheRight
       | LALR.nonassoc => Refused
       end.

(** [SELECT a o1 b o2 c], and what the grouping makes of it. *)
Definition chain (t1 t2 : string) : string :=
  "SELECT a " +++ t1 +++ " b " +++ t2 +++ " c".

Definition grouped (g : grouping) (k2 : TokenKind) (t1 t2 : string)
  : result sval :=
  match g with
  | ToTheLeft =>
      Ok (VSelect (Rules.new_Select
                     [binop t2 (binop t1 (ident "a") (ident "b")) (ident "c")]
                     false))
  | ToTheRight =>
      Ok (VSelect (Rules.new_Select
                     [binop t1 (ident "a") (binop t2 (ident "b") (ident "c"))]
                     false))
  | Refused =>
      Raise (ParsingException
               ("Syntax error at token " +++ kind_name k2 +++ ": "
                  +++ dquote +++ t2 +++ dquote))
  end.

(** [SELECT u a o b] for a unary operator [u]. *)
Definition after_unary (u t : string) : string :=
  "SELECT " +++ u +++ " a " +++ t +++ " b".

Definition unary_first (u t : string) : result sval :=
  Ok (VSelect (Rules.new_Select
                 [binop t (UnaryOperation u (ident "a") None false) (ident "b")]
                 false)).

End ExprProps.

Module WordProps.

Import Chars Props.

(** The keyword [kw] gets out of step with the word [v]: the two differ
    at a place both have, or [kw] goes on with a word character where
    [v] has ended. *)
Fixpoint out_of_step (kw v : string) : bool :=
  match kw, v with
  | String a kw', String c v' =>
      if eqb_nocase a c then out_of_step kw' v' else true
  | String a _, EmptyString => is_word a
  | EmptyString, _ => false
  end.

(** The keyword [kw] ends inside the word [v]: [v] starts with [kw], in
    any case, and goes on with a word character. *)
Definition ends_inside (kw v : string) : bool :=
  let n := String.length kw in
  nocase_eq (Text.take n v) kw
  && word_opt (Text.head (Text.drop n v))
  && wordy kw.

Definition differs (kw v : string) : bool :=
  out_of_step kw v || ends_inside kw v.




(** The first word of a keyword: all of it, or [GROUP], [ORDER] and
    [NULLS] for the keywords of two words. *)
Definition first_word (kw : string) : string :=
  Text.take (Text.span is_word kw) kw.

Definition keywords : list string :=
  flat_map (fun kp => match snd kp with
                      | Lexer.Keyword kw => [kw]
                      | _ => []
                      end) Lexer.rules.

(** The word [w] is, in some case, the first word of a keyword. *)
Definition names_keyword (w : string) : bool :=
  existsb (fun kw => nocase_eq w (first_word kw)) keywords.

(** The text [r] does not go on the name before it: it starts with no
    identifier character and no dot. *)
Definition ends_name (r : string) : bool :=
  match r with
  | String c _ => negb (is_idchar c || Ascii.eqb c ".")
  | EmptyString => true
  end.

(** The rules ahead of the first rule with the pattern of [ID]. *)
Fixpoint ahead_of_ID (rs : list (TokenKind * Lexer.pattern))
  : list (TokenKind * Lexer.pattern) :=
  match rs with
  | [] => []
  | (_, Lexer.PatID) :: _ => []
  | kp :: r => kp :: ahead_of_ID r
  end.

(** A keyword with a word at each end, or a literal that starts with no
    word character. *)
Definition no_name_rule (kp : TokenKind * Lexer.pattern) : bool :=
  match snd kp with
  | Lexer.Keyword kw => wordy kw
  | Lexer.Literal l =>
      match l with
      | String a _ => negb (is_word a)
      | EmptyString => false
      end
  | _ => false
  end.

End WordProps.

(* ================================================================== *)
(** ** Facts about text *)
(* ================================================================== *)

Module TextFacts.

Import Chars Props.

Lemma append_assoc (a b c : string) : (a +++ b) +++ c = a +++ (b +++ c).
Proof. induction a; simpl; congruence. Qed.


Lemma take_append (a r : string) : Text.take (String.length a) (a +++ r) = a.
Proof. induction a; simpl; congruence. Qed.

Lemma drop_append (a r : string) : Text.drop (String.length a) (a +++ r) = r.
Proof. induction a; simpl; congruence. Qed.

Lemma span_append (p : ascii -> bool) (a r : string) :
  Text.forallb p a = true -> stops p r = true ->
  Text.span p (a +++ r) = String.length a.
Proof.
  induction a as [|c a IH]; simpl; intros Ha Hr.
  - destruct r as [|c r]; simpl in *; auto.
    destruct (p c); simpl in *; congruence.
  - apply andb_true_iff in Ha as [Hc Ha]. rewrite Hc. f_equal. auto.
Qed.


Lemma forallb_weaken (p q : ascii -> bool) (a : string) :
  (forall c, p c = true -> q c = true) ->
  Text.forallb p a = true -> Text.forallb q a = true.
Proof.
  intros H. induction a as [|c a IH]; simpl; auto.
  intros Ha. apply andb_true_iff in Ha as [Hc Ha].
  rewrite (H c Hc). simpl. auto.
Qed.

Lemma last_char_append (d : option ascii) (a b : string) :
  Text.last_char d (a +++ b) = Text.last_char (Text.last_char d a) b.
Proof. revert d. induction a; simpl; auto. Qed.

(** Character classes, by inspection of the 256 characters. *)
Ltac by_cases c :=
  destruct c as [[] [] [] [] [] [] [] []]; vm_compute; congruence.




Lemma digit_word c : is_digit c = true -> is_word c = true.
Proof. by_cases c. Qed.

Lemma word_to_lower c : is_word (to_lower c) = is_word c.
Proof. by_cases c. Qed.


Lemma in_all_ascii c : In c all_ascii.
Proof.
  assert (H : existsb (Ascii.eqb c) all_ascii = true)
    by (destruct c as [[] [] [] [] [] [] [] []]; vm_compute; reflexivity).
  apply existsb_exists in H as (x & Hx & E). apply Ascii.eqb_eq in E. now subst.
Qed.

(** The shortcut of [eqb_nocase] changes nothing. *)
Lemma eqb_nocase_fold a b :
  eqb_nocase a b = Ascii.eqb (to_lower a) (to_lower b).
Proof.
  assert (H : forallb (fun x => forallb (fun y =>
                 Bool.eqb (eqb_nocase x y) (Ascii.eqb (to_lower x) (to_lower y)))
                 all_ascii) all_ascii = true) by (vm_compute; reflexivity).
  rewrite forallb_forall in H. specialize (H a (in_all_ascii a)).
  rewrite forallb_forall in H. specialize (H b (in_all_ascii b)).
  now apply Bool.eqb_prop in H.
Qed.

End TextFacts.

(* ================================================================== *)
(** ** Facts about the lexer *)
(* ================================================================== *)

Module LexerFacts.

Import Chars Props TextFacts Lexer.

(** *** Choosing the rule by the first character *)

Lemma starts_with_head (eq : ascii -> ascii -> bool) a w c r :
  eq a c = false -> Text.starts_with eq (String a w) (String c r) = false.
Proof. intros H. simpl. now rewrite H. Qed.

Lemma match_may_start p b c r :
  may_start p c = false -> match_pattern p b (String c r) = None.
Proof.
  destruct p as [w|w| | | |]; simpl; intros H.
  - unfold match_keyword. destruct w as [|a w]; [discriminate|].
    now rewrite starts_with_head by exact H.
  - unfold match_literal. destruct w as [|a w]; [discriminate|].
    now rewrite starts_with_head by exact H.
  - apply orb_false_iff in H as [Hid Hq].
    unfold match_ID, match_segment, match_bare. simpl. rewrite Hid. simpl.
    destruct c as [[] [] [] [] [] [] [] []]; try reflexivity; discriminate.
  - unfold match_FLOAT. simpl. now rewrite H.
  - unfold match_INTEGER. simpl. now rewrite H.
  - apply orb_false_iff in H as [H1 H2].
    unfold match_STRING, match_delimited. now rewrite H1, H2.
Qed.

Lemma first_match_candidates rs b c r :
  first_match rs b (String c r) = first_match (candidates rs c) b (String c r).
Proof.
  induction rs as [|[k p] rs IH]; simpl; [reflexivity|].
  destruct (may_start p c) eqn:H; simpl.
  - now rewrite IH.
  - now rewrite match_may_start by exact H.
Qed.

Lemma first_match_app l1 l2 b s :
  first_match (l1 ++ l2) b s =
  match first_match l1 b s with
  | Some x => Some x
  | None => first_match l2 b s
  end.
Proof.
  induction l1 as [|[k p] l1 IH]; simpl; [reflexivity|].
  destruct (match_pattern p b s); auto.
Qed.

(** One turn of the scanner on a text that starts with a character that
    is not ignored. *)
Lemma scan_text_match rs b c r i k n :
  is_ignored c = false ->
  first_match rs b (String c r) = Some (k, n) ->
  scan_text rs b (String c r) i =
  ScanToken (mkToken k (token_value k (Text.take n (String c r))) i (i + n))
            (advance n (mkScanner b (String c r) i)).
Proof. intros Hc Hm. simpl. now rewrite Hc, Hm. Qed.

(** *** The value of an [INTEGER] token *)

Lemma scan_text_INTEGER rs s : forall b i t sc,
  scan_text rs b s i = ScanToken t sc -> type t = INTEGER ->
  exists z, value t = PyInt z /\ (0 <= z)%Z.
Proof.
  induction s as [|c r IH]; intros b i t sc; simpl; [discriminate|].
  destruct (is_ignored c); [apply IH|].
  destruct (first_match rs b (String c r)) as [[k n]|]; [|discriminate].
  intros H Hk. inversion H; subst; simpl in *. subst k. simpl.
  eexists; split; [reflexivity|]. unfold Num.int_of_digits. lia.
Qed.

Lemma drain_INTEGER rs fuel : forall sc t,
  In t (fst (drain rs fuel sc)) -> type t = INTEGER ->
  exists z, value t = PyInt z /\ (0 <= z)%Z.
Proof.
  induction fuel as [|k IH]; intros sc t; simpl; [tauto|].
  unfold scan_with.
  destruct (scan_text rs (before sc) (rest sc) (pos sc)) as [|t' sc'|e] eqn:E;
    simpl; try tauto.
  destruct (drain rs k sc') as [ts e] eqn:D. simpl.
  intros [Ht|Ht] Hk.
  - subst t'. eapply scan_text_INTEGER; eauto.
  - apply (IH sc'); [rewrite D; exact Ht|exact Hk].
Qed.

(** *** The minus sign *)

Lemma minus_candidates : candidates rules "-" = [(MINUS, Literal "-")].
Proof. vm_compute. reflexivity. Qed.

Lemma scan_minus b r i :
  next_token (mkScanner b (String "-" r) i) =
  ScanToken (mkToken MINUS (PyStr "-") i (i + 1))
            (mkScanner (Some "-"%char) r (i + 1)).
Proof.
  unfold next_token, scan_with. simpl before; simpl rest; simpl pos.
  rewrite scan_text_match with (k := MINUS) (n := 1); [reflexivity|reflexivity|].
  rewrite first_match_candidates, minus_candidates. reflexivity.
Qed.

(** *** Numbers *)

Lemma scan_text_head rs b s c i k n :
  Text.head s = Some c -> is_ignored c = false ->
  first_match rs b s = Some (k, n) ->
  scan_text rs b s i =
  ScanToken (mkToken k (token_value k (Text.take n s)) i (i + n))
            (advance n (mkScanner b s i)).
Proof.
  destruct s as [|c' r]; simpl; [discriminate|].
  intros H Hc Hm. inversion H; subst. now rewrite Hc, Hm.
Qed.














(** *** Keywords *)

Lemma eqb_nocase_sym x y : eqb_nocase x y = eqb_nocase y x.
Proof. rewrite !eqb_nocase_fold. apply Ascii.eqb_sym. Qed.

Lemma eqb_nocase_lower x y : eqb_nocase x y = true -> to_lower x = to_lower y.
Proof. rewrite eqb_nocase_fold. apply Ascii.eqb_eq. Qed.

Lemma eqb_nocase_transfer a x y :
  eqb_nocase x y = true -> eqb_nocase a x = eqb_nocase a y.
Proof. intros H. rewrite !eqb_nocase_fold. now rewrite (eqb_nocase_lower _ _ H). Qed.

Lemma nocase_word x y : eqb_nocase x y = true -> is_word x = is_word y.
Proof.
  intros H. rewrite <- (word_to_lower x), <- (word_to_lower y).
  now rewrite (eqb_nocase_lower _ _ H).
Qed.


Lemma nocase_eq_length w : forall v,
  nocase_eq w v = true -> String.length w = String.length v.
Proof.
  induction w as [|x w IH]; destruct v as [|y v]; simpl; try discriminate; auto.
  intros H. apply andb_true_iff in H as [_ H]. f_equal. auto.
Qed.

Lemma starts_with_transfer rest w : forall kw v,
  nocase_eq w v = true ->
  Text.starts_with eqb_nocase kw (w +++ rest) =
  Text.starts_with eqb_nocase kw (v +++ rest).
Proof.
  induction w as [|x w IH]; destruct v as [|y v]; simpl; try discriminate; auto.
  intros H. apply andb_true_iff in H as [Hx H].
  destruct kw as [|a kw]; [reflexivity|]. simpl.
  now rewrite (eqb_nocase_transfer a _ _ Hx), (IH kw v H).
Qed.



Lemma last_char_word w : forall v d d',
  nocase_eq w v = true -> word_opt d = word_opt d' ->
  word_opt (Text.last_char d w) = word_opt (Text.last_char d' v).
Proof.
  induction w as [|x w IH]; destruct v as [|y v]; simpl; try discriminate; auto.
  intros d d' H _. apply andb_true_iff in H as [Hx H].
  apply IH; [exact H|]. simpl. now apply nocase_word.
Qed.





End LexerFacts.

Unset Implicit Arguments.

Import Props.

(* ================================================================== *)
(** ** The tables *)
(* ================================================================== *)

(** The construction of the tables met no reduce/reduce conflict and no
    conflict after a [nonassoc] entry. *)
Lemma tables_clean :
  LALR.remarks Grammar.tables = [] /\ List.length (LALR.lr_action Grammar.tables) = 106.
Proof. split; reflexivity. Qed.

(** [MODULO] is in no line of the precedence table, so it has the default
    precedence, and so has the rule [expr MODULO expr]. *)
Lemma MODULO_precedence :
  Grammar.prec_of (Grammar.OfToken MODULO) = (LALR.right_assoc, 0) /\
  Grammar.rule_prec (Grammar.binary MODULO 257) = (LALR.right_assoc, 0) /\
  Grammar.prec_of (Grammar.OfToken STAR) = (LALR.left_assoc, 3) /\
  Grammar.prec_of (Grammar.OfToken PLUS) = (LALR.left_assoc, 2).
Proof. repeat split; reflexivity. Qed.

(* ================================================================== *)
(** ** Expressions *)
(* ================================================================== *)

(** C3. [SELECT 1 + 2 * 3] yields a Select whose only target is
    [1 + (2 * 3)], and [SELECT a = b AND c = d] yields a target whose root
    is [AND] over the two comparisons. *)
Theorem C3_expression_precedence :
  parse_sql "SELECT 1 + 2 * 3" =
    Ok (VSelect (Rules.new_Select
                   [binop "+" (int_const 1) (binop "*" (int_const 2) (int_const 3))]
                   false)) /\
  parse_sql "SELECT a = b AND c = d" =
    Ok (VSelect (Rules.new_Select
                   [binop "AND" (binop "=" (ident "a") (ident "b"))
                                (binop "=" (ident "c") (ident "d"))]
                   false)).
Proof. split; vm_compute; reflexivity. Qed.

(** C4, what the code does: [%] binds looser than [+] and groups to the
    right.  [SELECT 1 + 2 % 3] yields [(1 + 2) % 3] and [SELECT 8 % 3 % 2]
    yields [8 % (3 % 2)]. *)
Theorem C4_modulo_as_parsed :
  parse_sql "SELECT 1 + 2 % 3" =
    Ok (VSelect (Rules.new_Select
                   [binop "%" (binop "+" (int_const 1) (int_const 2)) (int_const 3)]
                   false)) /\
  parse_sql "SELECT 8 % 3 % 2" =
    Ok (VSelect (Rules.new_Select
                   [binop "%" (int_const 8) (binop "%" (int_const 3) (int_const 2))]
                   false)) /\
  parse_sql "SELECT 1 + 2 * 3" =
    Ok (VSelect (Rules.new_Select
                   [binop "+" (int_const 1) (binop "*" (int_const 2) (int_const 3))]
                   false)) /\
  parse_sql "SELECT 8 * 3 * 2" =
    Ok (VSelect (Rules.new_Select
                   [binop "*" (binop "*" (int_const 8) (int_const 3)) (int_const 2)]
                   false)).
Proof. repeat split; vm_compute; reflexivity. Qed.

(** C10. Every [INTEGER] token carries an integer that is not negative,
    a minus sign under the scanner is a [MINUS] token of its own, and
    [SELECT -5] yields the unary operation [-] on the constant [5]. *)
Theorem C10_no_negative_literals :
  (forall text t,
      In t (fst (Lexer.tokenize text)) -> type t = INTEGER ->
      exists z, value t = PyInt z /\ (0 <= z)%Z) /\
  (forall b r i,
      Lexer.next_token (Lexer.mkScanner b (String "-" r) i) =
      Lexer.ScanToken (mkToken MINUS (PyStr "-") i (i + 1))
                      (Lexer.mkScanner (Some "-"%char) r (i + 1))) /\
  parse_sql "SELECT -5" =
    Ok (VSelect (Rules.new_Select
                   [UnaryOperation "-" (int_const 5) None false] false)).
Proof.
  split; [|split].
  - intros text t. apply LexerFacts.drain_INTEGER.
  - apply LexerFacts.scan_minus.
  - vm_compute. reflexivity.
Qed.

Lemma C10_witness :
  let t := mkToken INTEGER (PyInt 5) 8 9 in
  In t (fst (Lexer.tokenize "SELECT -5")) /\ type t = INTEGER /\
  exists z, value t = PyInt z /\ (0 <= z)%Z.
Proof.
  assert (H : In (mkToken INTEGER (PyInt 5) 8 9) (fst (Lexer.tokenize "SELECT -5")))
    by (vm_compute; tauto).
  split; [exact H|]. split; [reflexivity|].
  exact (proj1 C10_no_negative_literals "SELECT -5" _ H eq_refl).
Defined.

(* ================================================================== *)
(** ** Numbers and two-word keywords under the scanner *)
(* ================================================================== *)







(* ================================================================== *)
(** ** Joins *)
(* ================================================================== *)


(* ================================================================== *)
(** ** The checks on the operands of the clauses *)
(* ================================================================== *)







(* ================================================================== *)
(** ** The order of the clauses *)
(* ================================================================== *)

Module OrderFacts.





End OrderFacts.



(* ================================================================== *)
(** ** Rendering and parsing again *)
(* ================================================================== *)

Module RoundTrip.

Ltac comes_back_by_computation :=
  eexists; split; [vm_compute; reflexivity|];
  split; vm_compute; reflexivity.

(** Statements of the tests that compare [str(ast)] with the text they
    parsed; each comes back from its own tree. *)
Lemma test_statements_come_back :
  comes_back parse_sql "SELECT 1" /\
  comes_back parse_sql "SELECT 1.0" /\
  comes_back parse_sql ("SELECT " +++ dquote +++ "string" +++ dquote) /\
  comes_back parse_sql "SELECT column AS column_alias" /\
  comes_back parse_sql "SELECT DISTINCT column1 FROM t1" /\
  comes_back parse_sql
    "SELECT *, column1, column1 AS aliased, column1 + column2 FROM t1" /\
  comes_back parse_sql "SELECT column FROM t WHERE column != 1 AND column > 10" /\
  comes_back parse_sql
    "SELECT column1, column2, sum(column3) AS total FROM t1 GROUP BY column1, column2" /\
  comes_back parse_sql
    "SELECT column FROM t WHERE column != 1 GROUP BY column1, column2 HAVING column1 > 10" /\
  comes_back parse_sql
    "SELECT * FROM t1 ORDER BY column1 ASC, column2, column3 DESC NULLS FIRST" /\
  comes_back parse_sql "SELECT * FROM t1 LIMIT 1 OFFSET 2" /\
  comes_back parse_sql "SELECT * FROM t1, t2" /\
  comes_back parse_sql_joins
    "SELECT * FROM t1 INNER JOIN t2 ON t1.x1 = t2.x2 AND t1.x2 = t2.x2".
Proof. repeat split; comes_back_by_computation. Qed.

(** A statement need not be the text of its tree to come back: the
    parentheses of [((1))] are kept once, and a second parse gives the
    same tree. *)
Lemma nested_parentheses_come_back :
  exists s,
    parse_sql "SELECT ((1)) + (2)" = Ok (VSelect s) /\
    Render.select_to_string s = "SELECT (1) + (2)" /\
    parse_sql (Render.select_to_string s) = Ok (VSelect s).
Proof. comes_back_by_computation. Qed.

(** A string constant is written between double quotes, whatever quotes
    it was read in.  The text of a constant that holds a double quote is
    no text of a constant, and the statement does not come back. *)
Lemma embedded_quote_does_not_come_back :
  let sql := "SELECT 'a" +++ dquote +++ "b'" in
  let s := Rules.new_Select
             [Constant (PyStr ("a" +++ dquote +++ "b")) None false] false in
  parse_sql sql = Ok (VSelect s) /\
  Render.select_to_string s = "SELECT " +++ dquote +++ "a" +++ dquote +++ "b" +++ dquote /\
  parse_sql (Render.select_to_string s) =
    Raise (ParsingException
             ("Syntax error at token ID: " +++ dquote +++ "b" +++ dquote)).
Proof. repeat split; vm_compute; reflexivity. Qed.

End RoundTrip.

(* ================================================================== *)
(** ** The token stream as a whole *)
(* ================================================================== *)

Module LexerLaws.

Import Chars Lexer LexProps TextFacts LexerFacts.

Lemma length_take n : forall s, String.length (Text.take n s) = Nat.min n (String.length s).
Proof. induction n; destruct s; simpl; auto. Qed.

Lemma length_drop n : forall s, String.length (Text.drop n s) = String.length s - n.
Proof. induction n; destruct s; simpl; auto. Qed.

Lemma drop_drop n : forall m s, Text.drop n (Text.drop m s) = Text.drop (m + n) s.
Proof.
  intros m. induction m; intros s; simpl; auto.
  destruct s; simpl; auto. now destruct n.
Qed.

Lemma span_le p s : Text.span p s <= String.length s.
Proof. induction s; simpl; [lia|]. destruct (p a); simpl; lia. Qed.

Lemma starts_with_length eq w : forall s,
  Text.starts_with eq w s = true -> String.length w <= String.length s.
Proof.
  induction w as [|a w IH]; destruct s as [|c s]; simpl; try discriminate; try lia.
  destruct (eq a c); [|discriminate]. intros H. apply IH in H. lia.
Qed.

Lemma nonempty_length w : negb (String.eqb w "") = true -> 0 < String.length w.
Proof. destruct w; simpl; [discriminate|lia]. Qed.

Lemma match_bare_bounds s n :
  match_bare s = Some n -> 0 < n <= String.length s.
Proof.
  unfold match_bare. pose proof (span_le is_idchar s) as L.
  destruct (Text.span is_idchar s) eqn:E; simpl; [discriminate|].
  destruct (Text.existsb _ _); [|discriminate]. intros H. inversion H. lia.
Qed.

Lemma drop_cons_length n s c r :
  Text.drop n s = String c r -> n < String.length s.
Proof.
  intros H. assert (L := length_drop n s). rewrite H in L. simpl in L. lia.
Qed.

Lemma match_quoted_segment_bounds s n :
  match_quoted_segment s = Some n -> 0 < n <= String.length s.
Proof.
  unfold match_quoted_segment. destruct s as [|c r]; [discriminate|].
  destruct (Ascii.eqb_spec c "`"%char) as [->|Hc].
  - cbv zeta.
    destruct (Text.span _ r) as [|m] eqn:E; [discriminate|].
    destruct (Text.drop (S m) r) as [|c' r'] eqn:D; [discriminate|].
    apply drop_cons_length in D.
    destruct (Ascii.eqb_spec c' "`"%char) as [->|Hc'].
    + intros H. inversion H. simpl. lia.
    + destruct c' as [[] [] [] [] [] [] [] []]; try discriminate; congruence.
  - destruct c as [[] [] [] [] [] [] [] []]; try discriminate; congruence.
Qed.

Lemma match_segment_bounds s n :
  match_segment s = Some n -> 0 < n <= String.length s.
Proof.
  unfold match_segment. destruct (match_bare s) eqn:E.
  - intros H. inversion H. subst. now apply match_bare_bounds.
  - apply match_quoted_segment_bounds.
Qed.

Lemma match_more_segments_le fuel : forall s,
  match_more_segments fuel s <= String.length s.
Proof.
  induction fuel as [|k IH]; intros s; simpl; [lia|].
  destruct s as [|c r]; [simpl; lia|].
  destruct (Ascii.eqb_spec c "."%char) as [->|Hc].
  - destruct (match_segment r) as [n|] eqn:E; [|lia].
    apply match_segment_bounds in E. specialize (IH (Text.drop n r)).
    rewrite length_drop in IH. simpl. lia.
  - destruct c as [[] [] [] [] [] [] [] []]; try lia; congruence.
Qed.

Lemma match_ID_bounds s n : match_ID s = Some n -> 0 < n <= String.length s.
Proof.
  unfold match_ID. destruct (match_segment s) as [m|] eqn:E; [|discriminate].
  apply match_segment_bounds in E.
  pose proof (match_more_segments_le (String.length s) (Text.drop m s)) as L.
  rewrite length_drop in L. intros H. inversion H. lia.
Qed.

Lemma match_FLOAT_bounds s n : match_FLOAT s = Some n -> 0 < n <= String.length s.
Proof.
  unfold match_FLOAT. cbv zeta.
  destruct (Text.span is_digit s) as [|m] eqn:E; [discriminate|].
  destruct (Text.drop (S m) s) as [|c r] eqn:D; [discriminate|].
  assert (L := length_drop (S m) s). rewrite D in L. simpl in L.
  destruct (Ascii.eqb_spec c "."%char) as [->|Hc].
  - pose proof (span_le is_digit r).
    destruct (Text.span is_digit r); [discriminate|].
    intros H'. inversion H'. lia.
  - destruct c as [[] [] [] [] [] [] [] []]; try discriminate; congruence.
Qed.

Lemma match_INTEGER_bounds s n :
  match_INTEGER s = Some n -> 0 < n <= String.length s.
Proof.
  unfold match_INTEGER. pose proof (span_le is_digit s).
  destruct (Text.span is_digit s); [discriminate|].
  intros H'. inversion H'. lia.
Qed.

Lemma match_delimited_bounds q s n :
  match_delimited q s = Some n -> 0 < n <= String.length s.
Proof.
  unfold match_delimited. destruct s as [|c r]; [discriminate|].
  destruct (Ascii.eqb c q); [|discriminate]. cbv zeta.
  destruct (Text.drop _ r) eqn:D; [discriminate|].
  apply drop_cons_length in D. intros H. inversion H. simpl. lia.
Qed.

Lemma match_pattern_bounds p b s n :
  pattern_nonempty p = true ->
  match_pattern p b s = Some n -> 0 < n <= String.length s.
Proof.
  destruct p as [w|w| | | |]; simpl; intros Hp.
  - unfold match_keyword. cbv zeta.
    destruct (Text.starts_with eqb_nocase w s) eqn:E; [|discriminate].
    apply starts_with_length in E. apply nonempty_length in Hp.
    destruct (boundary b _); [|discriminate].
    destruct (boundary _ _); [|discriminate].
    intros H. inversion H. lia.
  - unfold match_literal.
    destruct (Text.starts_with Ascii.eqb w s) eqn:E; [|discriminate].
    apply starts_with_length in E. apply nonempty_length in Hp.
    intros H. inversion H. lia.
  - apply match_ID_bounds.
  - apply match_FLOAT_bounds.
  - apply match_INTEGER_bounds.
  - unfold match_STRING. destruct (match_delimited dquote s) eqn:E.
    + intros H. inversion H. subst. eapply match_delimited_bounds; eauto.
    + apply match_delimited_bounds.
Qed.

Lemma first_match_bounds rs b s k n :
  rules_nonempty rs = true ->
  first_match rs b s = Some (k, n) -> 0 < n <= String.length s.
Proof.
  induction rs as [|[k' p] rs IH]; simpl; [discriminate|].
  intros H. apply andb_true_iff in H as [Hp H]. simpl in Hp.
  destruct (match_pattern p b s) as [m|] eqn:E.
  - intros H'. inversion H'. subst. eapply match_pattern_bounds; eauto.
  - auto.
Qed.

Lemma rules_are_nonempty : rules_nonempty Lexer.rules = true.
Proof. reflexivity. Qed.

Lemma take_take_drop j n : forall s,
  Text.take (j + n) s = Text.take j s +++ Text.take n (Text.drop j s).
Proof.
  induction j; intros s; simpl; auto.
  destruct s; simpl; [now destruct n|]. now rewrite IHj.
Qed.

Lemma scan_text_scanned rs :
  rules_nonempty rs = true ->
  forall s b i, scanned rs b s i (scan_text rs b s i).
Proof.
  intros Hrs. induction s as [|c r IH]; intros b i.
  - simpl. now constructor.
  - simpl. destruct (is_ignored c) eqn:Hc.
    + specialize (IH (Some c) (S i)).
      inversion IH as [Hall|j k n Hj Hle Hn Hm Hs|j Hj Hlt Hs Hm].
      * constructor. simpl. now rewrite Hc.
      * pose proof (@scanned_token rs b (String c r) i (S j) k n) as T.
        simpl in T. replace (i + S j) with (S (i + j)) in T by lia.
        simpl in T. rewrite Hc in T. apply T; auto; lia.
      * pose proof (@scanned_error rs b (String c r) i (S j)) as T.
        simpl in T. replace (i + S j) with (S (i + j)) in T by lia.
        rewrite Hc in T. apply T; auto; lia.
    + destruct (first_match rs b (String c r)) as [[k n]|] eqn:Hm.
      * pose proof (first_match_bounds _ _ _ _ _ Hrs Hm) as [Hn Hle].
        unfold advance. cbn [before rest pos].
        pose proof (@scanned_token rs b (String c r) i 0 k n) as T.
        simpl Text.take in T. simpl Text.drop in T. simpl Text.last_char in T.
        replace (i + 0) with i in T by lia. simpl plus in T.
        apply T; auto. simpl. now rewrite Hc.
      * pose proof (@scanned_error rs b (String c r) i 0) as T.
        simpl Text.take in T. simpl Text.drop in T. simpl Text.last_char in T.
        replace (i + 0) with i in T by lia.
        apply T; auto; simpl; [lia|now rewrite Hc].
Qed.


Lemma forallb_take_at p j : forall s k,
  Text.forallb p (Text.take j s) = true -> k < j -> k < String.length s ->
  exists c, Text.head (Text.drop k s) = Some c /\ p c = true.
Proof.
  induction j; intros s k H Hk Hl; [lia|].
  destruct s as [|c r]; [simpl in Hl; lia|]. simpl in H.
  apply andb_true_iff in H as [Hc H].
  destruct k as [|k]; simpl; [eauto|].
  apply IHj; auto; simpl in Hl; lia.
Qed.

Lemma stops_head p s :
  stops p s = true -> s <> "" ->
  exists c, Text.head s = Some c /\ p c = false.
Proof.
  destruct s as [|c r]; [congruence|]. simpl. intros H _.
  apply negb_true_iff in H. eauto.
Qed.

Lemma drop_all n : forall s, String.length s <= n -> Text.drop n s = "".
Proof.
  induction n; destruct s; simpl; auto; intros; try lia. apply IHn. lia.
Qed.

Lemma forallb_take_all p s :
  Text.forallb p s = true -> forall j, Text.forallb p (Text.take j s) = true.
Proof.
  induction s as [|c r IH]; intros H j; destruct j; simpl; auto.
  simpl in H. apply andb_true_iff in H as [Hc H]. rewrite Hc. simpl. auto.
Qed.

Lemma covered_cons t ts i :
  covered (t :: ts) i = ((index t <=? i) && (i <? end_ t)) || covered ts i.
Proof. reflexivity. Qed.

Section Drain.

Variable rs : list (TokenKind * pattern).
Hypothesis Hrs : rules_nonempty rs = true.
Variable text : string.

Lemma ignored_between sc j i :
  stands_in text sc ->
  Text.forallb is_ignored (Text.take j (rest sc)) = true ->
  pos sc <= i < pos sc + j -> i < String.length text ->
  ignored_at text i = true.
Proof.
  intros (Hr & Hp & _) Hj Hi Hl.
  destruct (forallb_take_at is_ignored j (rest sc) (i - pos sc) Hj) as (c & Hc & Hig).
  - lia.
  - rewrite Hr, length_drop. lia.
  - rewrite Hr, drop_drop in Hc. replace (pos sc + (i - pos sc)) with i in Hc by lia.
    unfold ignored_at. now rewrite Hc.
Qed.

Lemma char_before_step sc j :
  stands_in text sc ->
  Text.last_char (before sc) (Text.take j (rest sc)) = char_before text (pos sc + j).
Proof.
  intros (Hr & Hp & Hb). unfold char_before in *.
  now rewrite take_take_drop, last_char_append, Hb, Hr.
Qed.

Lemma drain_spec fuel : forall sc,
  stands_in text sc -> String.length (rest sc) < fuel ->
  spans_within (pos sc) (String.length text) (fst (drain rs fuel sc)) = true /\
  Forall (carries rs text) (fst (drain rs fuel sc)) /\
  (forall i, pos sc <= i < read_up_to text (snd (drain rs fuel sc)) ->
             covered (fst (drain rs fuel sc)) i = true \/ ignored_at text i = true) /\
  match snd (drain rs fuel sc) with
  | Some e =>
      pos sc <= error_index e < String.length text /\
      error_text e = Text.drop (error_index e) text /\
      ignored_at text (error_index e) = false /\
      first_match rs (char_before text (error_index e))
                  (Text.drop (error_index e) text) = None
  | None => True
  end.
Proof.
  induction fuel as [|fuel IH]; intros sc St Hf; [lia|].
  pose proof St as (Hr & Hp & Hb).
  assert (Ls : String.length (rest sc) = String.length text - pos sc)
    by (rewrite Hr; apply length_drop).
  simpl. unfold scan_with.
  pose proof (scan_text_scanned rs Hrs (rest sc) (before sc) (pos sc)) as Sc.
  inversion Sc as [Hall|j k n Hj Hle Hn Hm Hs|j Hj Hlt Hs Hm]; simpl.
  - (* end of the text *)
    repeat split; auto.
    + apply Nat.leb_le; lia.
    + intros i Hi. right.
      apply (ignored_between sc (String.length (rest sc)) i St); try lia.
      now apply forallb_take_all.
  - (* a token *)
    set (sc' := mkScanner (Text.last_char (before sc) (Text.take (j + n) (rest sc)))
                          (Text.drop (j + n) (rest sc)) (pos sc + j + n)).
    assert (St' : stands_in text sc').
    { split; [|split]; simpl; [|lia|].
      - rewrite Hr, drop_drop. f_equal. lia.
      - rewrite (char_before_step sc (j + n) St). f_equal. lia. }
    assert (Hf' : String.length (rest sc') < fuel).
    { simpl. rewrite length_drop. lia. }
    destruct (IH sc' St' Hf') as (Sp & Ca & Co & Er).
    destruct (drain rs fuel sc') as [ts e] eqn:D. simpl in *.
    repeat split.
    + apply andb_true_iff. split; [apply andb_true_iff; split|exact Sp].
      * apply Nat.leb_le; lia.
      * apply Nat.ltb_lt; lia.
    + constructor; [|exact Ca].
      unfold carries, slice. simpl. split.
      * rewrite <- (char_before_step sc j St), <- drop_drop, <- Hr, Hm.
        do 2 f_equal. lia.
      * rewrite Hr, drop_drop. do 2 f_equal. lia.
    + intros i Hi.
      destruct (Nat.lt_ge_cases i (pos sc + j)) as [Hlo|Hhi].
      * right. apply (ignored_between sc j i St Hj); [lia|].
        destruct e as [e|]; simpl in Hi; [|lia].
        destruct Er as [[? ?] _]. lia.
      * destruct (Nat.lt_ge_cases i (pos sc + j + n)) as [Hin|Hout].
        -- left. unfold covered. simpl.
           apply orb_true_iff. left. apply andb_true_iff. split.
           ++ apply Nat.leb_le; lia.
           ++ apply Nat.ltb_lt; lia.
        -- destruct (Co i) as [C|C]; [lia| |now right].
           left. unfold covered in *. simpl. rewrite C. apply orb_true_r.
    + destruct e as [e|]; [|exact I].
      destruct Er as ([? ?] & ? & ? & ?). repeat split; auto; lia.
  - (* no rule matches *)
    repeat split; auto.
    + apply Nat.leb_le; lia.
    + intros i Hi. right. apply (ignored_between sc j i St Hj); lia.
    + lia.
    + lia.
    + rewrite Hr, drop_drop. reflexivity.
    + destruct (stops_head is_ignored (Text.drop j (rest sc)) Hs) as (c & Hc & Hig).
      * intros E. assert (L := length_drop j (rest sc)). rewrite E in L.
        simpl in L. lia.
      * rewrite Hr, drop_drop in Hc. unfold ignored_at. now rewrite Hc.
    + now rewrite <- (char_before_step sc j St), <- drop_drop, <- Hr.
Qed.

End Drain.

Lemma start_stands_in text : stands_in text (start text).
Proof. split; [|split]; simpl; [reflexivity|lia|reflexivity]. Qed.

Lemma tokenize_spec text :
  spans_within 0 (String.length text) (fst (tokenize text)) = true /\
  Forall (carries rules text) (fst (tokenize text)) /\
  (forall i, 0 <= i < read_up_to text (snd (tokenize text)) ->
             covered (fst (tokenize text)) i = true \/ ignored_at text i = true) /\
  match snd (tokenize text) with
  | Some e =>
      0 <= error_index e < String.length text /\
      error_text e = Text.drop (error_index e) text /\
      ignored_at text (error_index e) = false /\
      first_match rules (char_before text (error_index e))
                  (Text.drop (error_index e) text) = None
  | None => True
  end.
Proof.
  apply (drain_spec rules rules_are_nonempty text (S (String.length text))
           (start text) (start_stands_in text)).
  simpl. lia.
Qed.

(** The tokens of a text follow one another inside the text, each with
    at least one character; each is the first match of the rules at its
    index and carries what its method makes of the text it spans. *)
Theorem tokens_in_order text :
  spans_within 0 (String.length text) (fst (tokenize text)) = true /\
  Forall (carries rules text) (fst (tokenize text)).
Proof. destruct (tokenize_spec text) as (Sp & Ca & _). now split. Qed.

(** Up to the end of the text, or up to the index of the error, every
    character is part of a token or is one the lexer ignores. *)
Theorem nothing_skipped text i :
  i < read_up_to text (snd (tokenize text)) ->
  covered (fst (tokenize text)) i = true \/ ignored_at text i = true.
Proof.
  destruct (tokenize_spec text) as (_ & _ & Co & _).
  intros Hi. apply Co. split; [lia|exact Hi].
Qed.

(** A [LexError] names an index of the text where a character stands that
    is not ignored and where no rule matches, and holds the text from
    there on. *)
Theorem lex_error_place text e :
  snd (tokenize text) = Some e ->
  error_index e < String.length text /\
  error_text e = Text.drop (error_index e) text /\
  ignored_at text (error_index e) = false /\
  first_match rules (char_before text (error_index e))
              (Text.drop (error_index e) text) = None.
Proof.
  destruct (tokenize_spec text) as (_ & _ & _ & Er).
  intros E. rewrite E in Er. destruct Er as ([_ ?] & ? & ? & ?). auto.
Qed.

End LexerLaws.
(* ================================================================== *)
(** ** Strings, operators and characters no rule starts with *)
(* ================================================================== *)

Module ScanLaws.

Import Chars Lexer LexProps ScanProps TextFacts LexerFacts LexerLaws.

(** One turn of the scanner in front of a character that is not ignored:
    only the rules that can start with the character matter. *)
Lemma scan_by_candidates b c r i :
  is_ignored c = false ->
  next_token (mkScanner b (String c r) i) =
  match first_match (candidates rules c) b (String c r) with
  | Some (k, n) =>
      ScanToken (mkToken k (token_value k (Text.take n (String c r))) i (i + n))
                (advance n (mkScanner b (String c r) i))
  | None => ScanError (mkLexError i (String c r))
  end.
Proof.
  intros Hc. unfold next_token, scan_with. cbn [before rest pos].
  cbn [scan_text]. rewrite Hc. now rewrite first_match_candidates.
Qed.

(** *** [Text.rev] and [strip] *)

Lemma rev_onto_append s : forall acc, Text.rev_onto s acc = Text.rev s +++ acc.
Proof.
  unfold Text.rev. induction s as [|c s IH]; intros acc; simpl; [reflexivity|].
  rewrite IH, (IH (String c "")), append_assoc. reflexivity.
Qed.

Lemma rev_onto_split a : forall b acc,
  Text.rev_onto (a +++ b) acc = Text.rev_onto b (Text.rev_onto a acc).
Proof. induction a as [|c a IH]; intros b acc; simpl; auto. Qed.

Lemma rev_append a b : Text.rev (a +++ b) = Text.rev b +++ Text.rev a.
Proof.
  unfold Text.rev at 1. rewrite rev_onto_split. apply rev_onto_append.
Qed.

Lemma rev_cons c s : Text.rev (String c s) = Text.rev s +++ String c "".
Proof. unfold Text.rev. simpl. apply rev_onto_append. Qed.

Lemma rev_involutive s : Text.rev (Text.rev s) = s.
Proof.
  induction s as [|c s IH]; [reflexivity|].
  rewrite rev_cons, rev_append, IH. reflexivity.
Qed.

Lemma forallb_append p a b :
  Text.forallb p (a +++ b) = Text.forallb p a && Text.forallb p b.
Proof. induction a as [|c a IH]; simpl; [reflexivity|]. now rewrite IH, andb_assoc. Qed.

Lemma free_of_rev q s : free_of q (Text.rev s) = free_of q s.
Proof.
  unfold free_of. induction s as [|c s IH]; [reflexivity|].
  rewrite rev_cons, forallb_append, IH. simpl.
  now rewrite andb_true_r, andb_comm.
Qed.

Lemma lstrip_free q s : free_of q s = true -> Text.lstrip q s = s.
Proof.
  destruct s as [|c s]; [reflexivity|]. unfold free_of. simpl.
  intros H. apply andb_true_iff in H as [Hc _].
  apply negb_true_iff in Hc. now rewrite Hc.
Qed.

(** Stripping takes the two delimiters off and nothing else. *)
Lemma strip_delimited q s :
  free_of q s = true -> Text.strip q (String q (s +++ String q "")) = s.
Proof.
  intros H. unfold Text.strip. simpl Text.lstrip at 2. rewrite Ascii.eqb_refl.
  destruct s as [|c s].
  - simpl. rewrite Ascii.eqb_refl. reflexivity.
  - assert (Hc : Ascii.eqb c q = false).
    { unfold free_of in H. simpl in H. apply andb_true_iff in H as [Hc _].
      now apply negb_true_iff in Hc. }
    change (String c s +++ String q "") with (String c (s +++ String q "")).
    simpl Text.lstrip at 2. rewrite Hc.
    change (String c (s +++ String q "")) with (String c s +++ String q "").
    rewrite rev_append.
    change (Text.rev (String q "")) with (String q "").
    simpl Text.lstrip. rewrite Ascii.eqb_refl.
    rewrite (lstrip_free q (Text.rev (String c s))).
    + apply rev_involutive.
    + now rewrite free_of_rev.
Qed.

Lemma span_free q s r :
  free_of q s = true ->
  Text.span (fun x => negb (Ascii.eqb x q)) (s +++ String q r) = String.length s.
Proof.
  intros H. apply span_append; [exact H|]. simpl. now rewrite Ascii.eqb_refl.
Qed.

Lemma span_free_all q s :
  free_of q s = true ->
  Text.span (fun x => negb (Ascii.eqb x q)) s = String.length s.
Proof.
  intros H. rewrite <- (span_append (fun x => negb (Ascii.eqb x q)) s "" H eq_refl).
  f_equal. clear H. induction s as [|c s IH]; simpl; [reflexivity|]. now rewrite <- IH.
Qed.

Lemma match_delimited_closed q s r :
  free_of q s = true ->
  match_delimited q (String q (s +++ String q r)) = Some (String.length s + 2).
Proof.
  intros H. unfold match_delimited. rewrite Ascii.eqb_refl. cbv zeta.
  now rewrite span_free, drop_append by exact H.
Qed.

Lemma match_delimited_open q s :
  free_of q s = true -> match_delimited q (String q s) = None.
Proof.
  intros H. unfold match_delimited. rewrite Ascii.eqb_refl. cbv zeta.
  rewrite span_free_all by exact H.
  now rewrite (drop_all (String.length s) s (le_n _)).
Qed.

Lemma match_delimited_other q c r :
  Ascii.eqb c q = false -> match_delimited q (String c r) = None.
Proof. intros H. unfold match_delimited. now rewrite H. Qed.

Lemma quote_cases q :
  is_quote q = true -> q = dquote \/ (q = "'"%char /\ Ascii.eqb q dquote = false).
Proof.
  unfold is_quote. intros H. apply orb_true_iff in H as [H|H];
    apply Ascii.eqb_eq in H; subst; [now left|right; split; reflexivity].
Qed.

Lemma quote_candidates q :
  is_quote q = true ->
  is_ignored q = false /\ candidates rules q = [(STRING, PatSTRING)].
Proof.
  intros H. destruct (quote_cases q H) as [->|[-> _]]; split; reflexivity.
Qed.

Lemma match_STRING_closed q s r :
  is_quote q = true -> free_of q s = true ->
  match_STRING (String q (s +++ String q r)) = Some (String.length s + 2).
Proof.
  intros Hq H. unfold match_STRING.
  destruct (quote_cases q Hq) as [->|[-> Hd]].
  - now rewrite match_delimited_closed.
  - rewrite match_delimited_other by reflexivity. now apply match_delimited_closed.
Qed.

Lemma match_STRING_open q s :
  is_quote q = true -> free_of q s = true -> match_STRING (String q s) = None.
Proof.
  intros Hq H. unfold match_STRING.
  destruct (quote_cases q Hq) as [->|[-> Hd]].
  - rewrite match_delimited_open by exact H.
    now apply match_delimited_other.
  - rewrite match_delimited_other by reflexivity. now apply match_delimited_open.
Qed.

Lemma take_quoted q s r :
  Text.take (String.length s + 2) (String q (s +++ String q r))
  = String q (s +++ String q "").
Proof.
  replace (String.length s + 2) with (S (String.length s + 1)) by lia.
  simpl. f_equal. induction s as [|c s IH]; simpl; [reflexivity|]. now rewrite IH.
Qed.

Lemma drop_quoted q s r :
  Text.drop (String.length s + 2) (String q (s +++ String q r)) = r.
Proof.
  replace (String.length s + 2) with (S (String.length s + 1)) by lia.
  simpl. induction s as [|c s IH]; simpl; [reflexivity|]. exact IH.
Qed.

Lemma last_char_quoted b q s :
  Text.last_char b (String q (s +++ String q "")) = Some q.
Proof.
  simpl. generalize (Some q) at 1. induction s as [|c s IH]; intros d; simpl; auto.
Qed.

Lemma string_value q s :
  is_quote q = true -> free_of q s = true ->
  token_value STRING (String q (s +++ String q "")) = PyStr s.
Proof.
  intros Hq H. unfold token_value.
  destruct (quote_cases q Hq) as [->|[-> Hd]].
  - rewrite Ascii.eqb_refl. now rewrite strip_delimited.
  - rewrite Hd. now rewrite strip_delimited.
Qed.

(** A string literal: between two quotes of the same kind, a text
    without that quote.  The token spans the quotes, and its value is the
    text between them, unchanged. *)
Theorem string_literal_value q s b r i :
  is_quote q = true -> free_of q s = true ->
  next_token (mkScanner b (String q (s +++ String q r)) i) =
  ScanToken (mkToken STRING (PyStr s) i (i + (String.length s + 2)))
            (mkScanner (Some q) r (i + (String.length s + 2))).
Proof.
  intros Hq H. destruct (quote_candidates q Hq) as [Hi Hc].
  rewrite scan_by_candidates by exact Hi. rewrite Hc.
  cbn [first_match match_pattern]. rewrite match_STRING_closed by assumption.
  unfold advance. cbn [before rest pos].
  now rewrite take_quoted, drop_quoted, last_char_quoted, string_value.
Qed.

(** A quote that is not closed is a [LexError] at the quote, whatever
    follows it. *)
Theorem unterminated_string q s b i :
  is_quote q = true -> free_of q s = true ->
  next_token (mkScanner b (String q s) i) =
  ScanError (mkLexError i (String q s)).
Proof.
  intros Hq H. destruct (quote_candidates q Hq) as [Hi Hc].
  rewrite scan_by_candidates by exact Hi. rewrite Hc.
  cbn [first_match match_pattern]. now rewrite match_STRING_open.
Qed.

(** A character that is not ignored and that no rule starts with is a
    [LexError] at the character: so are the semicolon, the brackets, [#],
    [&], [:], [@] and every character beyond ASCII. *)
Theorem illegal_character c b r i :
  is_ignored c = false -> starts_token c = false ->
  next_token (mkScanner b (String c r) i) =
  ScanError (mkLexError i (String c r)).
Proof.
  intros Hi Hs. rewrite scan_by_candidates by exact Hi.
  replace (candidates rules c) with (@nil (TokenKind * pattern)); [reflexivity|].
  clear Hi. destruct c as [[] [] [] [] [] [] [] []];
    vm_compute in Hs; try discriminate Hs; vm_compute; reflexivity.
Qed.

Ltac scan_operator c :=
  rewrite scan_by_candidates by reflexivity;
  let cs := eval vm_compute in (candidates rules c) in
  change (candidates rules c) with cs.

Lemma literal_longer c d r :
  goes_on_with d r = false ->
  match_literal (String c (String d "")) (String c r) = None.
Proof.
  unfold match_literal. simpl. rewrite Ascii.eqb_refl.
  destruct r as [|x r]; [reflexivity|]. simpl. intros H.
  rewrite Ascii.eqb_sym. now rewrite H.
Qed.

(** The operators of two characters are one token each, and their first
    character alone is [GREATER] or [LESS], where it is an operator, and
    a [LexError] where it is none ([!] and [|]). *)
Theorem operator_characters b r i :
  next_token (mkScanner b (">=" +++ r) i) = reads GEQ ">=" b r i /\
  next_token (mkScanner b ("<=" +++ r) i) = reads LEQ "<=" b r i /\
  next_token (mkScanner b ("!=" +++ r) i) = reads NEQUALS "!=" b r i /\
  next_token (mkScanner b ("||" +++ r) i) = reads CONCAT "||" b r i /\
  (goes_on_with "=" r = false ->
   next_token (mkScanner b (">" +++ r) i) = reads GREATER ">" b r i /\
   next_token (mkScanner b ("<" +++ r) i) = reads LESS "<" b r i /\
   next_token (mkScanner b ("!" +++ r) i) = ScanError (mkLexError i ("!" +++ r))) /\
  (goes_on_with "|" r = false ->
   next_token (mkScanner b ("|" +++ r) i) = ScanError (mkLexError i ("|" +++ r))).
Proof.
  unfold reads. cbn [String.append String.length Text.last_char].
  split; [|split; [|split; [|split; [|split]]]].
  - scan_operator ">"%char. reflexivity.
  - scan_operator "<"%char. reflexivity.
  - scan_operator "!"%char. reflexivity.
  - scan_operator "|"%char. reflexivity.
  - intros H. split; [|split].
    + scan_operator ">"%char. cbn [first_match match_pattern].
      now rewrite literal_longer.
    + scan_operator "<"%char. cbn [first_match match_pattern].
      now rewrite literal_longer.
    + scan_operator "!"%char. cbn [first_match match_pattern].
      now rewrite literal_longer.
  - intros H. scan_operator "|"%char. cbn [first_match match_pattern].
    now rewrite literal_longer.
Qed.

End ScanLaws.

(* ================================================================== *)
(** ** The first turn of the parser *)
(* ================================================================== *)

Module FirstTurn.

Import Chars LexProps.

Lemma scan_blank rs s : forall b i,
  Text.forallb is_ignored s = true -> Lexer.scan_text rs b s i = Lexer.ScanEnd.
Proof.
  induction s as [|c r IH]; intros b i; simpl; [reflexivity|].
  intros H. apply andb_true_iff in H as [Hc H]. rewrite Hc. now apply IH.
Qed.

Lemma fuel_positive text : exists k, Parser.fuel_for text = S k.
Proof.
  unfold Parser.fuel_for. change (List.length Grammar.rules) with 62.
  exists ((String.length text + 2) * 64 - 1). lia.
Qed.

(** State 0 shifts [SELECT] and has no other action. *)
Lemma state_0 a :
  nth 0 (LALR.defaulted_states Grammar.tables) None = None /\
  LALR.assoc_action a (nth 0 (LALR.lr_action Grammar.tables) []) =
  if N.eqb a (kind_code SELECT) then Some (LALR.Shift 2) else None.
Proof. split; reflexivity. Qed.

Lemma kind_code_SELECT k : N.eqb (kind_code k) (kind_code SELECT) = true -> k = SELECT.
Proof. destruct k; vm_compute; congruence. Qed.

Section AnyLexer.

Variable next_token : Lexer.scanner -> Lexer.scan_result.

Lemma first_turn text :
  match next_token (Lexer.start text) with
  | Lexer.ScanEnd =>
      Parser.parse next_token text = Raise (ParsingException "Syntax error at EOF")
  | Lexer.ScanError e => Parser.parse next_token text = Raise (LexError e)
  | Lexer.ScanToken t sc =>
      type t <> SELECT ->
      Parser.parse next_token text = Raise (Parser.error (Parser.Tok t))
  end.
Proof.
  unfold Parser.parse. destruct (fuel_positive text) as [k ->].
  cbn [Parser.run]. unfold Parser.step, Parser.fetch, Parser.initial.
  cbn [Parser.statestack Parser.look Parser.tokens Parser.symstack].
  rewrite (proj1 (state_0 0%N)).
  destruct (next_token (Lexer.start text)) as [|t sc|e];
    cbn [Parser.statestack Parser.look Parser.tokens Parser.symstack
         Parser.lookahead_code].
  - rewrite (proj2 (state_0 0%N)). reflexivity.
  - intros Ht. rewrite (proj2 (state_0 (kind_code (type t)))).
    destruct (N.eqb (kind_code (type t)) (kind_code SELECT)) eqn:E; [|reflexivity].
    apply kind_code_SELECT in E. contradiction.
  - reflexivity.
Qed.

End AnyLexer.

(** A text with nothing but blanks, the empty text too, is a syntax
    error at the end of the input. *)
Theorem blank_text text :
  Text.forallb is_ignored text = true ->
  parse_sql text = Raise (ParsingException "Syntax error at EOF").
Proof.
  intros H. pose proof (first_turn Lexer.next_token text) as T.
  unfold Lexer.next_token, Lexer.scan_with in T. cbn [Lexer.start Lexer.before Lexer.rest Lexer.pos] in T.
  now rewrite (scan_blank Lexer.rules text None 0 H) in T.
Qed.


End FirstTurn.

(* ================================================================== *)
(** ** The clause-order check and the rules *)
(* ================================================================== *)

Module RuleLaws.

Import ParseProps.

Lemma in_truth_tables n : forall l, List.length l = n -> In l (truth_tables n).
Proof.
  induction n as [|n IH]; intros l H.
  - destruct l; [now left|discriminate].
  - destruct l as [|b l]; [discriminate|]. simpl. apply in_flat_map.
    exists l. split; [apply IH; now inversion H|].
    destruct b; simpl; auto.
Qed.

Lemma sample_clauses select : op_to_attr (sample (clauses_set select)) = op_to_attr select.
Proof.
  unfold clauses_set, op_to_attr, sample. simpl.
  destruct (from_table select), (where_ select), (group_by select) as [[|? ?]|],
    (having select), (order_by select) as [[|? ?]|], (limit select), (offset select);
    reflexivity.
Qed.

Lemma order_check_sample select op :
  order_check_agrees select op = order_check_agrees (sample (clauses_set select)) op.
Proof.
  unfold order_check_agrees, passes, is_set, ensure_select_keyword_order.
  now rewrite sample_clauses.
Qed.

Lemma order_check_all :
  forallb (fun b => forallb (order_check_agrees (sample b)) precedence)
          (truth_tables 7) = true.
Proof. vm_compute. reflexivity. Qed.

Lemma order_check_agrees_true select op :
  In op precedence -> order_check_agrees select op = true.
Proof.
  intros Hop. rewrite order_check_sample.
  pose proof order_check_all as H. rewrite forallb_forall in H.
  specialize (H (clauses_set select) (in_truth_tables 7 (clauses_set select) eq_refl)).
  rewrite forallb_forall in H. exact (H op Hop).
Qed.

(** [ensure_select_keyword_order] lets the clause [op] pass exactly when
    neither [op] nor a clause after it in the canonical order is set and
    the clauses it requires are set; otherwise it raises a
    [ParsingException]. *)
Theorem order_check_passes op select :
  In op precedence ->
  (ensure_select_keyword_order select op = Ok tt <->
   forallb (fun o => negb (is_set select o)) (from_on op) = true /\
   forallb (is_set select) (required_by op) = true) /\
  (ensure_select_keyword_order select op = Ok tt \/
   exists msg, ensure_select_keyword_order select op = Raise (ParsingException msg)).
Proof.
  intros Hop. pose proof (order_check_agrees_true select op Hop) as H.
  unfold order_check_agrees, passes in H.
  destruct (ensure_select_keyword_order select op) as [[]|[msg|e|w|]];
    try discriminate H.
  - apply andb_true_iff in H. split; [tauto|now left].
  - apply negb_true_iff in H. split; [|right; eauto].
    split; [discriminate|]. intros E. apply andb_true_iff in E. congruence.
Qed.

Lemma ensure_cases select op :
  In op precedence ->
  (ensure_select_keyword_order select op = Ok tt /\ passes select op = true) \/
  exists msg, ensure_select_keyword_order select op = Raise (ParsingException msg).
Proof.
  intros Hop. pose proof (order_check_agrees_true select op Hop) as H.
  unfold order_check_agrees in H.
  destruct (ensure_select_keyword_order select op) as [[]|[msg|e|w|]];
    try discriminate H; eauto.
Qed.

(** *** The rules keep the shapes *)

Ltac split_args H :=
  lazymatch type of H with
  | Forall2 _ [] _ => inversion H; subst; clear H
  | Forall2 _ (_ :: _) _ =>
      let v := fresh "v" in
      let Hv := fresh "Hv" in
      let H' := fresh "H" in
      inversion H as [|? v ? ? Hv H']; subst; clear H; split_args H'
  end.

Ltac shape_cases :=
  repeat match goal with
         | H : shape _ ?v = true |- _ =>
             unfold shape in H; destruct v; try discriminate H
         | H : value_fits _ ?x = true |- _ =>
             destruct x; try discriminate H; clear H
         end.

Ltac clause_rule op :=
  match goal with
  | |- context [ensure_select_keyword_order ?s op] =>
      let E := fresh "E" in
      let P := fresh "P" in
      destruct (ensure_cases s op) as [[E P]|[? E]];
      [simpl; tauto|rewrite E; cbn [bind]|rewrite E; exact I];
      unfold passes, from_on, required_by, is_set, op_to_attr in P;
      simpl in P
  end.

Lemma wf_fields s :
  well_formed s = true ->
  nonempty (targets s) = true /\
  match from_table s with Some f => from_ok f | None => true end = true /\
  match where_ s with
  | Some e => Node.is_Operation e && truth (from_table s)
  | None => true
  end = true /\
  match group_by s with
  | Some l => nonempty l && forallb Node.is_Identifier l && truth (from_table s)
  | None => true
  end = true /\
  match having s with
  | Some e => Node.is_Operation e && truth_list (group_by s)
  | None => true
  end = true /\
  match order_by s with
  | Some l => nonempty l && forallb order_ok l && truth (from_table s)
  | None => true
  end = true /\
  match limit s with Some c => is_int_constant c | None => true end = true /\
  match offset s with Some c => is_int_constant c | None => true end = true.
Proof.
  unfold well_formed. intros H.
  repeat (apply andb_true_iff in H; destruct H as [H ?]). tauto.
Qed.

Lemma wf_build s :
  nonempty (targets s) = true ->
  match from_table s with Some f => from_ok f | None => true end = true ->
  match where_ s with
  | Some e => Node.is_Operation e && truth (from_table s)
  | None => true
  end = true ->
  match group_by s with
  | Some l => nonempty l && forallb Node.is_Identifier l && truth (from_table s)
  | None => true
  end = true ->
  match having s with
  | Some e => Node.is_Operation e && truth_list (group_by s)
  | None => true
  end = true ->
  match order_by s with
  | Some l => nonempty l && forallb order_ok l && truth (from_table s)
  | None => true
  end = true ->
  match limit s with Some c => is_int_constant c | None => true end = true ->
  match offset s with Some c => is_int_constant c | None => true end = true ->
  well_formed s = true.
Proof.
  unfold well_formed. intros. repeat (apply andb_true_iff; split); assumption.
Qed.

Ltac wf_goal Hv :=
  apply wf_fields in Hv; destruct Hv as (? & ? & ? & ? & ? & ? & ? & ?);
  cbn [rule_ok shape]; apply wf_build;
  cbn [Rules.set_offset Rules.set_limit Rules.set_order_by Rules.set_having
       Rules.set_group_by Rules.set_where Rules.set_from_table
       targets distinct from_table where_ group_by having order_by limit offset];
  try assumption.

Ltac unset_clauses P :=
  repeat match type of P with
         | context [truth ?x] => destruct x; simpl in P; try discriminate P
         | context [truth_list ?x] =>
             destruct x as [[|? ?]|]; simpl in P; try discriminate P
         end.

Lemma select_OFFSET_sound args :
  shaped [Grammar.NT Grammar.select; Grammar.T OFFSET; Grammar.NT Grammar.constant] args ->
  rule_ok (Grammar.NT Grammar.select) (Rules.select_OFFSET args).
Proof.
  intros H. unfold shaped in H. split_args H. shape_cases. unfold Rules.select_OFFSET.
  clause_rule "OFFSET".
  destruct n as [[] ? ?| | | |]; try discriminate; cbn [Rules.int_valued bind fst];
    try exact I.
  wf_goal Hv; reflexivity.
Qed.

Lemma select_LIMIT_sound args :
  shaped [Grammar.NT Grammar.select; Grammar.T LIMIT; Grammar.NT Grammar.constant] args ->
  rule_ok (Grammar.NT Grammar.select) (Rules.select_LIMIT args).
Proof.
  intros H. unfold shaped in H. split_args H. shape_cases. unfold Rules.select_LIMIT.
  clause_rule "LIMIT".
  destruct n as [[] ? ?| | | |]; try discriminate; cbn [Rules.int_valued bind fst];
    try exact I.
  wf_goal Hv; reflexivity.
Qed.

Lemma select_ORDER_BY_sound args :
  shaped [Grammar.NT Grammar.select; Grammar.T ORDER_BY;
          Grammar.NT Grammar.ordering_terms] args ->
  rule_ok (Grammar.NT Grammar.select) (Rules.select_ORDER_BY args).
Proof.
  intros H. unfold shaped in H. split_args H. shape_cases. unfold Rules.select_ORDER_BY.
  clause_rule "ORDER BY".
  apply andb_true_iff in P as [P Q]. rewrite andb_true_r in Q.
  wf_goal Hv. now rewrite Hv1, Q.
Qed.

Lemma select_HAVING_sound args :
  shaped [Grammar.NT Grammar.select; Grammar.T HAVING; Grammar.NT Grammar.expr] args ->
  rule_ok (Grammar.NT Grammar.select) (Rules.select_HAVING args).
Proof.
  intros H. unfold shaped in H. split_args H. shape_cases. unfold Rules.select_HAVING.
  clause_rule "HAVING".
  apply andb_true_iff in P as [P Q]. rewrite andb_true_r in Q.
  destruct (Node.is_Operation n) eqn:Op; [|exact I].
  wf_goal Hv. now rewrite Op, Q.
Qed.

Lemma select_GROUP_BY_sound args :
  shaped [Grammar.NT Grammar.select; Grammar.T GROUP_BY; Grammar.NT Grammar.expr_list] args ->
  rule_ok (Grammar.NT Grammar.select) (Rules.select_GROUP_BY args).
Proof.
  intros H. unfold shaped in H. split_args H. shape_cases. unfold Rules.select_GROUP_BY.
  clause_rule "GROUP BY".
  apply andb_true_iff in P as [P Q]. rewrite andb_true_r in Q.
  destruct (forallb Node.is_Identifier l) eqn:Ids; [|exact I].
  wf_goal Hv.
  - now rewrite Hv1, Ids, Q.
  - unset_clauses P; clear E; simpl in *; congruence.
Qed.

Lemma select_WHERE_sound args :
  shaped [Grammar.NT Grammar.select; Grammar.T WHERE; Grammar.NT Grammar.expr] args ->
  rule_ok (Grammar.NT Grammar.select) (Rules.select_WHERE args).
Proof.
  intros H. unfold shaped in H. split_args H. shape_cases. unfold Rules.select_WHERE.
  clause_rule "WHERE".
  apply andb_true_iff in P as [P Q]. rewrite andb_true_r in Q.
  destruct (Node.is_Operation n) eqn:Op; [|exact I].
  wf_goal Hv. now rewrite Op, Q.
Qed.

Lemma select_FROM_sound args :
  shaped [Grammar.NT Grammar.select; Grammar.T FROM; Grammar.NT Grammar.from_table] args ->
  rule_ok (Grammar.NT Grammar.select) (Rules.select_FROM args).
Proof.
  intros H. unfold shaped in H. split_args H. shape_cases. unfold Rules.select_FROM.
  clause_rule "FROM".
  wf_goal Hv; unset_clauses P; clear E; simpl in *; congruence.
Qed.

Lemma nonempty_app {A : Type} (l : list A) (x : A) : nonempty (l ++ [x]) = true.
Proof. destruct l; reflexivity. Qed.

Ltac node_cases :=
  repeat match goal with
         | H : Node.is_Identifier ?n = true |- _ =>
             is_var n; destruct n; try discriminate H; clear H
         | H : Node.is_Constant ?n = true |- _ =>
             is_var n; destruct n; try discriminate H; clear H
         end.

Ltac plain_rule :=
  let args := fresh "args" in
  let H := fresh "H" in
  intros args H; unfold shaped in H; split_args H; shape_cases;
  cbn [rule_ok shape Rules.ordering_terms_append Rules.ordering_terms_single
       Rules.ordering_term_NULLS Rules.ordering_term_directed
       Rules.ordering_term_plain Rules.from_table_join Rules.from_table_comma
       Rules.from_table_join_on Rules.from_table_single Rules.pass
       Rules.select_DISTINCT Rules.select_plain Rules.result_columns_append
       Rules.singleton Rules.result_column_AS Rules.expr_function
       Rules.expr_parentheses Rules.identifier_of_token Rules.expr_binary
       Rules.expr_unary Rules.enumeration_append Rules.enumeration_pair
       Rules.constant_INTEGER Rules.constant_FLOAT Rules.constant_STRING
       value_fits];
  rewrite ?nonempty_app, ?forallb_app;
  try reflexivity; try assumption.

(** Every rule of the grammar, given values of the shapes of its
    symbols, returns a value of the shape of its name or raises a
    [ParsingException]. *)
Lemma rules_sound :
  Forall (fun r => forall args,
              shaped (Grammar.syms r) args ->
              rule_ok (Grammar.NT (Grammar.name r)) (Grammar.func r args))
         Grammar.rules.
Proof.
  unfold Grammar.rules, Grammar.binary.
  repeat (apply Forall_cons; [cbn [Grammar.syms Grammar.name Grammar.func]|]);
    [..|apply Forall_nil].
  all: try (intros args H; first [ now apply select_OFFSET_sound
                                 | now apply select_LIMIT_sound
                                 | now apply select_ORDER_BY_sound
                                 | now apply select_HAVING_sound
                                 | now apply select_GROUP_BY_sound
                                 | now apply select_WHERE_sound
                                 | now apply select_FROM_sound ]).
  all: try plain_rule.
  all: try (unfold well_formed, order_ok, from_ok in *; node_cases;
            cbn [Rules.new_Select targets distinct from_table where_ group_by
                 having order_by limit offset field direction left right
                 Node.is_Identifier forallb existsb String.eqb Ascii.eqb
                 Bool.eqb andb orb] in *;
            repeat match goal with
                   | H : _ && _ = true |- _ => apply andb_true_iff in H; destruct H
                   end;
            repeat match goal with
                   | H : ?x = true |- context [?x] => rewrite H
                   end;
            try reflexivity; try assumption).
Qed.

End RuleLaws.

(* ================================================================== *)
(** ** The stacks of the parser *)
(* ================================================================== *)

Module StackLaws.

Import ParseProps Automaton RuleLaws.

Lemma edges_are_recorded : edges_recorded = true.
Proof. vm_compute. reflexivity. Qed.

Lemma tables_are_checked : tables_checked = true.
Proof. vm_compute. reflexivity. Qed.

Lemma no_defaults s : nth s (LALR.defaulted_states Grammar.tables) None = None.
Proof.
  assert (H : forallb (fun d => match d with None => true | Some _ => false end)
                      (LALR.defaulted_states Grammar.tables) = true)
    by (vm_compute; reflexivity).
  rewrite forallb_forall in H.
  destruct (nth_in_or_default s (LALR.defaulted_states Grammar.tables) None) as [I|E];
    [|exact E].
  specialize (H _ I). destruct (nth s _ None); [discriminate|reflexivity].
Qed.

Lemma symbol_decoded X : symbol_of_code (Grammar.symbol_code X) = Some X.
Proof. destruct X as [k|n]; [destruct k|destruct n]; vm_compute; reflexivity. Qed.

Lemma symbol_eqb_eq X Y : symbol_eqb X Y = true -> X = Y.
Proof.
  unfold symbol_eqb. intros H. apply N.eqb_eq in H.
  pose proof (symbol_decoded X) as HX. rewrite H, symbol_decoded in HX.
  congruence.
Qed.

Lemma in_symbols X : In X symbols.
Proof.
  pose proof (symbol_decoded X) as H. unfold symbol_of_code in H.
  apply find_some in H. tauto.
Qed.

Lemma target_in_range s X j : target s X = Some j -> s < state_count.
Proof.
  intros H. destruct (Nat.lt_ge_cases s state_count) as [L|G]; [exact L|].
  exfalso. unfold target, action_row, goto_row in H.
  rewrite (nth_overflow (LALR.lr_action Grammar.tables)) in H by exact G.
  rewrite (nth_overflow (LALR.lr_goto Grammar.tables)) in H by exact G.
  destruct X; discriminate.
Qed.

(** Every edge of the automaton is in the list of its target. *)
Lemma edge_recorded s X j : target s X = Some j -> In (s, X) (preds_of j).
Proof.
  intros H. pose proof edges_are_recorded as R. unfold edges_recorded in R.
  rewrite forallb_forall in R.
  specialize (R s (proj2 (in_seq _ _ _) (conj (Nat.le_0_l s) (target_in_range s X j H)))).
  rewrite forallb_forall in R. specialize (R X (in_symbols X)). rewrite H in R.
  apply existsb_exists in R as ([s' X'] & I & E). simpl in E.
  apply andb_true_iff in E as [E1 E2].
  apply Nat.eqb_eq in E1. apply symbol_eqb_eq in E2. now subst.
Qed.

Lemma Forall2_rev {A B : Type} (P : A -> B -> Prop) l1 l2 :
  Forall2 P l1 l2 -> Forall2 P (rev l1) (rev l2).
Proof.
  induction 1 as [|x y l1 l2 Hxy H IH]; simpl; [constructor|].
  apply Forall2_app; [exact IH|]. constructor; [exact Hxy|constructor].
Qed.

(** What [back] promises of a stack whose top state is [s]. *)
Lemma back_sound final rhs_rev : forall s st vs,
  stack_ok (s :: st) vs -> back final rhs_rev s = true ->
  exists top vs0 s0 st0,
    vs = top ++ vs0 /\
    List.length top = List.length rhs_rev /\
    Forall2 (fun X v => shape X v = true) rhs_rev top /\
    skipn (List.length rhs_rev) (s :: st) = s0 :: st0 /\
    stack_ok (s0 :: st0) vs0 /\
    final s0 = true.
Proof.
  induction rhs_rev as [|X r IH]; intros s st vs Hs Hb.
  - exists [], vs, s, st. simpl in *. repeat split; auto.
  - cbn [back] in Hb. apply andb_true_iff in Hb as [H0 Hb].
    rewrite forallb_forall in Hb.
    inversion Hs as [|s' X' j v st' vs' Hs' Ht Hv]; subst.
    + discriminate H0.
    + specialize (Hb (s', X') (edge_recorded s' X' s Ht)). simpl in Hb.
      apply andb_true_iff in Hb as [HX Hb]. apply symbol_eqb_eq in HX. subst X'.
      destruct (IH s' st' vs' Hs' Hb) as (top & vs0 & s0 & st0 & E & L & F & K & S0 & Fin).
      exists (v :: top), vs0, s0, st0. subst vs'. simpl.
      repeat split; auto.
Qed.

Lemma end_is_not_shifted : no_shift_of_end = true.
Proof. vm_compute. reflexivity. Qed.

Lemma assoc_action_in a row act :
  LALR.assoc_action a row = Some act -> In (a, act) row.
Proof.
  induction row as [|[b x] row IH]; simpl; [discriminate|].
  destruct (N.eqb_spec a b) as [->|N].
  - intros H. inversion H. now left.
  - intros H. right. auto.
Qed.

Lemma action_row_in s e : In e (action_row s) -> s < state_count.
Proof.
  intros H. destruct (Nat.lt_ge_cases s state_count) as [L|G]; [exact L|].
  unfold action_row in H.
  rewrite (nth_overflow (LALR.lr_action Grammar.tables)) in H by exact G.
  destruct H.
Qed.

Lemma action_is_checked s a act :
  LALR.assoc_action a (action_row s) = Some act -> action_checked s act = true.
Proof.
  intros H. apply assoc_action_in in H.
  pose proof tables_are_checked as C. unfold tables_checked in C.
  rewrite forallb_forall in C.
  specialize (C s (proj2 (in_seq _ _ _)
                          (conj (Nat.le_0_l s) (action_row_in s _ H)))).
  rewrite forallb_forall in C. exact (C _ H).
Qed.

Lemma shift_has_token s act :
  LALR.assoc_action 0%N (action_row s) = Some act ->
  match act with LALR.Shift _ => False | _ => True end.
Proof.
  intros H. apply assoc_action_in in H.
  pose proof end_is_not_shifted as C. unfold no_shift_of_end in C.
  rewrite forallb_forall in C.
  assert (I : In (action_row s) (LALR.lr_action Grammar.tables)).
  { unfold action_row.
    destruct (nth_in_or_default s (LALR.lr_action Grammar.tables) []) as [I|E];
      [exact I|]. unfold action_row in H. rewrite E in H. destruct H. }
  specialize (C _ I). rewrite forallb_forall in C. specialize (C _ H).
  simpl in C. destruct act; auto. discriminate C.
Qed.

Lemma firstn_exact {A : Type} (top rest : list A) n :
  List.length top = n -> firstn n (top ++ rest) = top /\ skipn n (top ++ rest) = rest.
Proof.
  intros <-. split.
  - rewrite firstn_app, firstn_all, Nat.sub_diag. simpl. apply app_nil_r.
  - rewrite skipn_app, skipn_all, Nat.sub_diag. reflexivity.
Qed.

Lemma rule_in_grammar p r : Parser.rule_of p = Some r -> In r Grammar.rules.
Proof.
  unfold Parser.rule_of. destruct p; [discriminate|]. apply nth_error_In.
Qed.

Lemma rule_is_sound r args :
  In r Grammar.rules -> shaped (Grammar.syms r) args ->
  rule_ok (Grammar.NT (Grammar.name r)) (Grammar.func r args).
Proof.
  intros H. pose proof rules_sound as S. rewrite Forall_forall in S.
  exact (S r H args).
Qed.

(** A reduction the tables allow in the top state keeps the stacks in
    order and leaves the lexer alone; the only exception it raises is a
    [ParsingException] of its rule. *)
Lemma reduce_ok p c s st :
  config_ok c -> Parser.statestack c = s :: st ->
  action_checked s (LALR.Reduce p) = true ->
  match Parser.reduce p c with
  | Parser.Continue c' => config_ok c' /\ Parser.tokens c' = Parser.tokens c
  | Parser.Failed (ParsingException _) => True
  | _ => False
  end.
Proof.
  intros [Hs Hl] E Hc. unfold action_checked in Hc. unfold Parser.reduce.
  destruct (Parser.rule_of p) as [r|] eqn:R; [|discriminate].
  rewrite E in Hs.
  destruct (back_sound _ _ s st (Parser.symstack c) Hs Hc)
    as (top & vs0 & s0 & st0 & Ev & L & F & K & S0 & Fin).
  rewrite length_rev in L, K. cbv zeta.
  destruct (firstn_exact top vs0 _ L) as [F1 F2].
  rewrite Ev, F1, F2, E, K.
  apply Forall2_rev in F. rewrite rev_involutive in F.
  pose proof (rule_is_sound r (rev top) (rule_in_grammar p r R) F) as Snd.
  destruct (Grammar.func r (rev top)) as [v|e].
  - unfold goes_on in Fin. unfold goto_row in Fin.
    destruct (LALR.assoc_nat _ _) as [j|] eqn:G; [|discriminate].
    simpl. split; [split; [|exact Hl]|reflexivity].
    apply stack_push with (X := Grammar.NT (Grammar.name r)); auto.
  - destruct e; simpl in *; auto.
Qed.

Section Soundness.

Variable next_token : Lexer.scanner -> Lexer.scan_result.

Hypothesis tokens_fit : forall sc t sc',
  next_token sc = Lexer.ScanToken t sc' -> value_fits (type t) (value t) = true.

Lemma fetch_ok c :
  config_ok c ->
  match Parser.fetch next_token c with
  | Ok c' =>
      config_ok c' /\ Parser.statestack c' = Parser.statestack c /\
      Parser.symstack c' = Parser.symstack c /\ Parser.look c' <> Parser.Unread /\
      (Parser.tokens c' = Parser.tokens c \/
       exists t, next_token (Parser.tokens c) = Lexer.ScanToken t (Parser.tokens c'))
  | Raise (LexError e) => next_token (Parser.tokens c) = Lexer.ScanError e
  | Raise _ => False
  end.
Proof.
  intros [Hs Hl]. unfold Parser.fetch.
  destruct (Parser.look c) as [|t|] eqn:L.
  - destruct (next_token (Parser.tokens c)) as [|t sc|e] eqn:N; simpl; auto.
    + split; [split; [exact Hs|exact I]|].
      repeat split; auto. discriminate.
    + split; [split; [exact Hs|eapply tokens_fit; eauto]|].
      repeat split; eauto. discriminate.
  - split; [split; [exact Hs|now rewrite L]|].
    rewrite L. repeat split; auto. discriminate.
  - split; [split; [exact Hs|now rewrite L]|].
    rewrite L. repeat split; auto. discriminate.
Qed.

Lemma stack_top sts vs : stack_ok sts vs -> exists s st, sts = s :: st.
Proof. intros H. inversion H; eauto. Qed.

(** One turn of the loop keeps the configuration in order. *)
Lemma step_ok c : config_ok c -> turn_ok next_token c (Parser.step next_token c).
Proof.
  intros Hc. unfold Parser.step.
  destruct (stack_top _ _ (proj1 Hc)) as (s & st & E). rewrite E, no_defaults.
  pose proof (fetch_ok c Hc) as F.
  destruct (Parser.fetch next_token c) as [c'|e]; [|destruct e; simpl; auto].
  destruct F as (Hc' & Es & Ev & Hl & Ht).
  fold (action_row s).
  destruct (LALR.assoc_action _ (action_row s)) as [[j|p| |]|] eqn:A.
  - (* shift *)
    destruct (Parser.look c') as [|t|] eqn:L.
    + congruence.
    + simpl. split; [|exact Ht]. split; [|exact I]. rewrite Es, E.
      apply stack_push with (X := Grammar.T (type t)).
      * rewrite <- E, <- Es. exact (proj1 Hc').
      * simpl in A. unfold target. now rewrite A.
      * destruct Hc' as [_ Hv]. rewrite L in Hv. exact Hv.
    + simpl in A. exact (shift_has_token s _ A).
  - (* reduce *)
    pose proof (reduce_ok p c' s st Hc' (eq_trans Es E)
                          (action_is_checked s _ _ A)) as R.
    destruct (Parser.reduce p c') as [c''|v|e]; simpl; [|destruct R|].
    + destruct R as [Hc'' T]. split; [exact Hc''|]. now rewrite T.
    + destruct e; simpl in *; auto; destruct R.
  - (* accept *)
    pose proof (action_is_checked s _ _ A) as C. unfold action_checked in C.
    destruct Hc' as [Hs' _]. rewrite Es, E in Hs'.
    destruct (back_sound _ _ s st _ Hs' C)
      as (top & vs0 & s0 & st0 & Evs & L & F & _).
    rewrite Evs. inversion F as [|X v l1 l2 Hv F']; subst. simpl. exact Hv.
  - destruct (Parser.look c'); simpl; exact I.
  - destruct (Parser.look c'); simpl; exact I.
Qed.

Lemma run_is_ok fuel : forall c,
  config_ok c -> run_ok (Parser.run next_token fuel c).
Proof.
  induction fuel as [|k IH]; intros c Hc; simpl; [exact I|].
  pose proof (step_ok c Hc) as S.
  destruct (Parser.step next_token c) as [c'|v|e]; simpl in *.
  - apply IH. tauto.
  - exact S.
  - destruct e; auto.
Qed.

Lemma initial_ok text : config_ok (Parser.initial text).
Proof. split; simpl; [constructor|exact I]. Qed.

End Soundness.

(** *** The loop ends *)

Lemma units_are_checked : units_checked = true.
Proof. vm_compute. reflexivity. Qed.

Lemma gotos_are_weighed : gotos_weighed = true.
Proof. vm_compute. reflexivity. Qed.

Lemma rank_bound X : rank X <= 4.
Proof. destruct X as [k|n]; [simpl; lia|destruct n; simpl; lia]. Qed.

Lemma weight_bounds s : 5 <= weight s <= 9.
Proof.
  unfold weight. destruct (state_symbol s) as [X|]; [|lia].
  pose proof (rank_bound X). lia.
Qed.

Lemma weights_sum l : 5 * List.length l <= list_sum (map weight l).
Proof.
  induction l as [|s l IH]; simpl; [lia|]. pose proof (weight_bounds s). lia.
Qed.

Lemma list_sum_split n l :
  list_sum (map weight l)
  = list_sum (map weight (firstn n l)) + list_sum (map weight (skipn n l)).
Proof.
  rewrite <- (firstn_skipn n l) at 1. now rewrite map_app, list_sum_app.
Qed.

Lemma in_nonterminals n : In n nonterminals.
Proof. destruct n; simpl; tauto. Qed.

Lemma goto_weight s n j :
  LALR.assoc_nat (Grammar.nonterminal_code n) (goto_row s) = Some j ->
  weight j <= 9 - rank (Grammar.NT n).
Proof.
  intros H. pose proof gotos_are_weighed as C. unfold gotos_weighed in C.
  rewrite forallb_forall in C.
  assert (L : s < state_count) by exact (target_in_range s (Grammar.NT n) j H).
  specialize (C s (proj2 (in_seq _ _ _) (conj (Nat.le_0_l s) L))).
  rewrite forallb_forall in C. specialize (C n (in_nonterminals n)).
  rewrite H in C. now apply Nat.leb_le in C.
Qed.

Lemma unit_weight s a p r :
  LALR.assoc_action a (action_row s) = Some (LALR.Reduce p) ->
  Parser.rule_of p = Some r ->
  match Grammar.syms r with
  | [] => False
  | [_] => 9 - rank (Grammar.NT (Grammar.name r)) < weight s
  | _ => True
  end.
Proof.
  intros H R. apply assoc_action_in in H.
  pose proof units_are_checked as C. unfold units_checked in C.
  rewrite forallb_forall in C.
  specialize (C s (proj2 (in_seq _ _ _)
                          (conj (Nat.le_0_l s) (action_row_in s _ H)))).
  rewrite forallb_forall in C. specialize (C _ H). simpl in C. rewrite R in C.
  destruct (Grammar.syms r) as [|X [|Y l]]; auto; [discriminate|].
  now apply Nat.ltb_lt in C.
Qed.

Lemma reduce_lighter p c c' s st a :
  Parser.statestack c = s :: st ->
  LALR.assoc_action a (action_row s) = Some (LALR.Reduce p) ->
  Parser.reduce p c = Parser.Continue c' ->
  list_sum (map weight (Parser.statestack c'))
  < list_sum (map weight (Parser.statestack c)) /\
  Parser.tokens c' = Parser.tokens c /\ Parser.look c' = Parser.look c.
Proof.
  intros E A. unfold Parser.reduce.
  destruct (Parser.rule_of p) as [r|] eqn:R; [|discriminate].
  pose proof (unit_weight s a p r A R) as U. cbv zeta.
  destruct (Grammar.func r _) as [v|e]; [|discriminate].
  destruct (skipn (List.length (Grammar.syms r)) (Parser.statestack c))
    as [|s0 st0] eqn:K; [discriminate|].
  destruct (LALR.assoc_nat _ _) as [j|] eqn:G; [|discriminate].
  intros H. inversion H; subst c'; clear H. simpl. split; [|split; reflexivity].
  rewrite (list_sum_split (List.length (Grammar.syms r)) (Parser.statestack c)), K.
  simpl. pose proof (goto_weight s0 (Grammar.name r) j G) as W.
  assert (Len : List.length (Grammar.syms r) < List.length (Parser.statestack c)).
  { destruct (Nat.lt_ge_cases (List.length (Grammar.syms r))
                              (List.length (Parser.statestack c))) as [L|L]; [exact L|].
    rewrite skipn_all2 in K by exact L. discriminate. }
  pose proof (weights_sum (firstn (List.length (Grammar.syms r)) (Parser.statestack c))) as S.
  rewrite length_firstn in S.
  destruct (Grammar.syms r) as [|X [|Y l]]; [destruct U| |].
  - rewrite E. simpl. rewrite E in K. simpl in K. lia.
  - simpl List.length in *. pose proof (weight_bounds j). lia.
Qed.

Section Termination.

Variable next_token : Lexer.scanner -> Lexer.scan_result.

Hypothesis progress : forall sc t sc',
  next_token sc = Lexer.ScanToken t sc' ->
  String.length (Lexer.rest sc') < String.length (Lexer.rest sc).

Lemma fetch_potential c c' :
  Parser.fetch next_token c = Ok c' ->
  Parser.statestack c' = Parser.statestack c /\
  Parser.look c' <> Parser.Unread /\
  String.length (Lexer.rest (Parser.tokens c')) + pending (Parser.look c')
  <= String.length (Lexer.rest (Parser.tokens c)) + pending (Parser.look c).
Proof.
  unfold Parser.fetch. destruct (Parser.look c) as [|t|] eqn:L.
  - destruct (next_token (Parser.tokens c)) as [|t sc|e] eqn:N;
      intros H; inversion H; subst; simpl.
    + repeat split; [discriminate|lia].
    + apply progress in N. repeat split; [discriminate|lia].
  - intros H. inversion H; subst. rewrite L. repeat split; [discriminate|lia].
  - intros H. inversion H; subst. rewrite L. repeat split; [discriminate|lia].
Qed.

(** Every turn that goes on makes the potential smaller. *)
Lemma step_decreases c c' :
  Parser.step next_token c = Parser.Continue c' -> potential c' < potential c.
Proof.
  unfold Parser.step. destruct (Parser.statestack c) as [|s st] eqn:E; [discriminate|].
  rewrite no_defaults.
  destruct (Parser.fetch next_token c) as [c1|e] eqn:F; [|discriminate].
  apply fetch_potential in F as (Es & Hl & Hp).
  fold (action_row s).
  destruct (LALR.assoc_action _ (action_row s)) as [[j|p| |]|] eqn:A;
    try discriminate.
  - destruct (Parser.look c1) as [|t|] eqn:L; try discriminate.
    intros H. inversion H; subst c'; clear H. unfold potential. simpl.
    rewrite Es, E. simpl in *. pose proof (weight_bounds j). lia.
  - intros H.
    destruct (reduce_lighter p c1 c' s st _ (eq_trans Es E) A H) as (W & T & K).
    unfold potential. rewrite T, K. rewrite Es in W. lia.
  - destruct (Parser.symstack c1); discriminate.
Qed.

Hypothesis tokens_fit : forall sc t sc',
  next_token sc = Lexer.ScanToken t sc' -> value_fits (type t) (value t) = true.

(** Within a number of turns above the potential the loop has ended:
    with a [Select] of the shape the rules build, or with one of the two
    exceptions. *)
Lemma run_sound fuel : forall c,
  config_ok c -> potential c < fuel ->
  sound (Grammar.NT Grammar.select) (Parser.run next_token fuel c).
Proof.
  induction fuel as [|k IH]; intros c Hc H; [lia|]. simpl.
  pose proof (step_ok next_token tokens_fit c Hc) as T.
  destruct (Parser.step next_token c) as [c'|v|e] eqn:S; simpl in T.
  - apply IH; [exact (proj1 T)|]. apply step_decreases in S. lia.
  - exact T.
  - destruct e; simpl; auto.
Qed.

Lemma fuel_suffices text : potential (Parser.initial text) < Parser.fuel_for text.
Proof.
  unfold potential, Parser.fuel_for. change (List.length Grammar.rules) with 62.
  cbn [Parser.initial Parser.tokens Parser.look Parser.statestack Lexer.start
       Lexer.rest pending map list_sum].
  pose proof (weight_bounds 0). simpl list_sum. lia.
Qed.

Lemma parse_sound text :
  sound (Grammar.NT Grammar.select) (Parser.parse next_token text).
Proof.
  unfold Parser.parse. apply run_sound; [apply initial_ok|apply fuel_suffices].
Qed.

End Termination.

Import Chars Lexer LexProps LexerLaws.

Lemma token_value_fits k text : value_fits k (token_value k text) = true.
Proof.
  destruct k; try reflexivity. simpl.
  destruct text as [|c r]; [reflexivity|]. now destruct (Ascii.eqb c dquote).
Qed.

Lemma scan_fits rs sc t sc' :
  scan_with rs sc = ScanToken t sc' -> value_fits (type t) (value t) = true.
Proof.
  unfold scan_with. generalize (before sc), (rest sc), (pos sc).
  intros b s. revert b. induction s as [|c r IH]; intros b i; simpl; [discriminate|].
  destruct (is_ignored c); [apply IH|].
  destruct (first_match rs b (String c r)) as [[k n]|]; [|discriminate].
  intros H. inversion H; subst. simpl. apply token_value_fits.
Qed.

Lemma scan_progress rs sc t sc' :
  rules_nonempty rs = true ->
  scan_with rs sc = ScanToken t sc' ->
  String.length (rest sc') < String.length (rest sc).
Proof.
  intros Hrs. unfold scan_with.
  pose proof (scan_text_scanned rs Hrs (rest sc) (before sc) (pos sc)) as S.
  intros E. rewrite E in S.
  inversion S as [|j k n Hj Hle Hn Hm Hs|]; subst. simpl.
  rewrite length_drop. lia.
Qed.

(** Whatever the text, parsing ends, and it ends with a [Select] of the
    shape the rules build, with a [ParsingException] or with a
    [LexError]: the loop does not go on for ever, and no rule is handed a
    value it cannot work on. *)
Theorem parse_total rs text :
  rules_nonempty rs = true ->
  sound (Grammar.NT Grammar.select) (Parser.parse (scan_with rs) text).
Proof.
  intros Hrs. apply parse_sound.
  - intros sc t sc'. now apply scan_progress.
  - intros sc t sc'. apply scan_fits.
Qed.

(** What [parse_sql] returns is a [Select] in which [WHERE], [GROUP BY]
    and [ORDER BY] come with [FROM] and [HAVING] comes with [GROUP BY],
    the conditions are operations, the grouping and ordering terms and
    the tables are identifiers, and [LIMIT] and [OFFSET] are integer
    constants. *)
Theorem parse_sql_well_formed text v :
  parse_sql text = Ok v -> exists s, v = VSelect s /\ well_formed s = true.
Proof.
  intros E. pose proof (parse_total rules text rules_are_nonempty) as S.
  fold next_token in S. fold (parse_sql text) in S. rewrite E in S. simpl in S.
  destruct v; try discriminate S. eauto.
Qed.

End StackLaws.

(* ================================================================== *)
(** ** The parser and the token generator *)
(* ================================================================== *)

Module LazyLaws.

Import ParseProps Automaton LexProps LazyProps LexerLaws StackLaws.

Section Generator.

Variable rs : list (TokenKind * Lexer.pattern).
Hypothesis Hrs : rules_nonempty rs = true.

(** The generator does not stop for lack of turns. *)
Lemma drain_fuel f1 : forall f2 sc,
  String.length (Lexer.rest sc) < f1 -> String.length (Lexer.rest sc) < f2 ->
  Lexer.drain rs f1 sc = Lexer.drain rs f2 sc.
Proof.
  induction f1 as [|f1 IH]; intros f2 sc H1 H2; [lia|].
  destruct f2 as [|f2]; [lia|]. simpl.
  destruct (Lexer.scan_with rs sc) as [|t sc'|e] eqn:E; try reflexivity.
  pose proof (scan_progress rs sc t sc' Hrs E) as P.
  rewrite (IH f2 sc'); [reflexivity|lia|lia].
Qed.

Lemma remaining_error_token sc t sc' :
  Lexer.scan_with rs sc = Lexer.ScanToken t sc' ->
  remaining_error rs sc = remaining_error rs sc'.
Proof.
  intros E. unfold remaining_error at 1. cbn [Lexer.drain]. rewrite E.
  pose proof (scan_progress rs sc t sc' Hrs E) as P.
  rewrite (drain_fuel (String.length (Lexer.rest sc))
                      (S (String.length (Lexer.rest sc'))) sc'); [|lia|lia].
  unfold remaining_error.
  now destruct (Lexer.drain rs (S (String.length (Lexer.rest sc'))) sc').
Qed.

Lemma remaining_error_error sc e :
  Lexer.scan_with rs sc = Lexer.ScanError e -> remaining_error rs sc = Some e.
Proof. intros E. unfold remaining_error. cbn [Lexer.drain]. now rewrite E. Qed.

Lemma run_lex_error fuel : forall c e,
  config_ok c ->
  Parser.run (Lexer.scan_with rs) fuel c = Raise (LexError e) ->
  remaining_error rs (Parser.tokens c) = Some e.
Proof.
  induction fuel as [|k IH]; intros c e Hc; simpl; [discriminate|].
  pose proof (step_ok (Lexer.scan_with rs) (scan_fits rs) c Hc) as T.
  destruct (Parser.step (Lexer.scan_with rs) c) as [c'|v|x]; simpl in T.
  - intros R. destruct T as [Hc' [Same|[t Next]]].
    + rewrite <- Same. now apply IH.
    + rewrite (remaining_error_token _ _ _ Next). now apply IH.
  - discriminate.
  - intros R. inversion R; subst. now apply remaining_error_error.
Qed.

(** The parser reads its tokens one at a time and stops at its first
    error; a [LexError] it ends with is the error the whole token stream
    ends with. *)
Lemma parse_lex_error text e :
  Parser.parse (Lexer.scan_with rs) text = Raise (LexError e) ->
  snd (Lexer.tokenize_with rs text) = Some e.
Proof.
  intros H. apply run_lex_error in H; [exact H|apply initial_ok].
Qed.

End Generator.

End LazyLaws.

(* ================================================================== *)
(** ** Operators side by side *)
(* ================================================================== *)

Module ExprLaws.

Import ExprProps.

Lemma chains_grouped :
  Forall (fun o1 =>
            Forall (fun o2 =>
                      parse_sql (chain (snd o1) (snd o2))
                      = grouped (grouping_of (fst o1) (fst o2)) (fst o2)
                                (snd o1) (snd o2))
                   binary_operators)
         binary_operators.
Proof.
  unfold binary_operators.
  repeat (apply Forall_cons; [repeat (apply Forall_cons; [vm_compute; reflexivity|]);
                              apply Forall_nil|]).
  apply Forall_nil.
Qed.

(** Two binary operators side by side are grouped as the precedence
    table has it: the higher level first, on one level to the left for
    [left], to the right for [right] and for the operators the table
    does not list, and not at all for [nonassoc]. *)
Lemma operators_side_by_side k1 t1 k2 t2 :
  In (k1, t1) binary_operators -> In (k2, t2) binary_operators ->
  parse_sql (chain t1 t2) = grouped (grouping_of k1 k2) k2 t1 t2.
Proof.
  intros H1 H2. pose proof chains_grouped as C.
  rewrite Forall_forall in C. specialize (C _ H1).
  rewrite Forall_forall in C. exact (C _ H2).
Qed.

Lemma unary_chains :
  Forall (fun o =>
            parse_sql (after_unary "-" (snd o)) = unary_first "-" (snd o) /\
            parse_sql (after_unary "NOT" (snd o)) = unary_first "NOT" (snd o))
         binary_operators.
Proof.
  unfold binary_operators.
  repeat (apply Forall_cons; [split; vm_compute; reflexivity|]).
  apply Forall_nil.
Qed.

(** A unary minus and a unary [NOT] bind tighter than any binary
    operator after their operand. *)
Lemma unary_binds_first k t :
  In (k, t) binary_operators ->
  parse_sql (after_unary "-" t) = unary_first "-" t /\
  parse_sql (after_unary "NOT" t) = unary_first "NOT" t.
Proof.
  intros H. pose proof unary_chains as C. rewrite Forall_forall in C.
  exact (C _ H).
Qed.

End ExprLaws.

(* ================================================================== *)
(** ** Keywords and names *)
(* ================================================================== *)

Module WordLaws.

Import Chars Lexer LexProps ScanProps WordProps TextFacts LexerFacts LexerLaws.




Lemma out_of_step_start kw : forall v r,
  out_of_step kw v = true -> word_opt (Text.head r) = false ->
  Text.starts_with eqb_nocase kw (v +++ r) = false.
Proof.
  induction kw as [|a kw IH]; intros v r H Hr; [discriminate|].
  destruct v as [|c v]; simpl in *.
  - destruct r as [|x r]; [reflexivity|]. simpl in *.
    destruct (eqb_nocase a x) eqn:E; [|reflexivity].
    apply nocase_word in E. congruence.
  - destruct (eqb_nocase a c); [now apply IH|reflexivity].
Qed.

Lemma take_drop n : forall s, Text.take n s +++ Text.drop n s = s.
Proof. induction n; destruct s; simpl; auto. now rewrite IHn. Qed.

Lemma nocase_eq_take n : forall w v,
  nocase_eq w v = true -> nocase_eq (Text.take n w) (Text.take n v) = true.
Proof.
  induction n; intros w v H; [reflexivity|].
  destruct w as [|x w], v as [|y v]; simpl in *; try discriminate; auto.
  apply andb_true_iff in H as [H1 H2]. rewrite H1. simpl. auto.
Qed.

Lemma nocase_eq_drop n : forall w v,
  nocase_eq w v = true ->
  word_opt (Text.head (Text.drop n w)) = word_opt (Text.head (Text.drop n v)).
Proof.
  induction n; intros w v H.
  - destruct w as [|x w], v as [|y v]; simpl in *; try discriminate; auto.
    apply andb_true_iff in H as [H1 _]. now apply nocase_word.
  - destruct w as [|x w], v as [|y v]; simpl in *; try discriminate; auto.
    apply andb_true_iff in H as [_ H2]. auto.
Qed.

Lemma nocase_eq_trans a : forall b c,
  nocase_eq a b = true -> nocase_eq b c = true -> nocase_eq a c = true.
Proof.
  induction a as [|x a IH]; intros b c; destruct b as [|y b], c as [|z c];
    simpl; try discriminate; auto.
  intros H1 H2. apply andb_true_iff in H1 as [E1 H1].
  apply andb_true_iff in H2 as [E2 H2].
  apply andb_true_iff. split; [|eauto].
  rewrite !eqb_nocase_fold in *. apply Ascii.eqb_eq in E1, E2.
  apply Ascii.eqb_eq. congruence.
Qed.

Lemma head_append a r c : Text.head a = Some c -> Text.head (a +++ r) = Some c.
Proof. destruct a; simpl; congruence. Qed.

(** A keyword that ends inside the word does not match: there is no
    word boundary after it. *)
Lemma ends_inside_none kw v w b r :
  ends_inside kw v = true -> nocase_eq w v = true -> word_opt b = false ->
  match_keyword kw b (w +++ r) = None.
Proof.
  unfold ends_inside. cbv zeta. intros H Hw Hb.
  apply andb_true_iff in H as [H Hk]. apply andb_true_iff in H as [Ht Hh].
  set (n := String.length kw) in *.
  assert (T : nocase_eq (Text.take n w) kw = true)
    by (eapply nocase_eq_trans; [apply nocase_eq_take; exact Hw|exact Ht]).
  assert (L : String.length (Text.take n w) = n)
    by (apply nocase_eq_length in T; exact T).
  rewrite <- (nocase_eq_drop n w v Hw) in Hh.
  destruct (Text.head (Text.drop n w)) as [c|] eqn:Hd; [|discriminate].
  assert (Ew : w = Text.take n w +++ Text.drop n w) by (symmetry; apply take_drop).
  remember (Text.take n w) as w1 eqn:E1. remember (Text.drop n w) as w2 eqn:E2.
  clear E1 E2. subst w.
  unfold match_keyword. fold n.
  rewrite append_assoc, <- L, take_append, drop_append, L.
  rewrite (head_append _ r c Hd).
  destruct (Text.starts_with _ _ _); [|reflexivity].
  destruct (boundary b _); [|reflexivity].
  unfold boundary.
  rewrite (last_char_word w1 kw b None T) by (simpl; exact Hb).
  unfold wordy in Hk. destruct kw as [|a kw']; [discriminate|].
  apply andb_true_iff in Hk as [_ Hk].
  rewrite Hk. simpl in Hh. cbn [word_opt]. now rewrite Hh.
Qed.

Lemma differs_none kw v w b r :
  differs kw v = true -> nocase_eq w v = true ->
  word_opt b = false -> word_opt (Text.head r) = false ->
  match_keyword kw b (w +++ r) = None.
Proof.
  unfold differs. intros H Hw Hb Hr. apply orb_true_iff in H as [H|H].
  - unfold match_keyword.
    now rewrite (starts_with_transfer r w kw v Hw), (out_of_step_start kw v r H Hr).
  - now apply ends_inside_none with (v := v).
Qed.




(** *** Names *)

Lemma nocase_eq_refl w : nocase_eq w w = true.
Proof.
  induction w as [|c w IH]; simpl; [reflexivity|].
  now rewrite IH, eqb_nocase_fold, Ascii.eqb_refl.
Qed.

Lemma nocase_eq_sym w : forall v, nocase_eq w v = nocase_eq v w.
Proof.
  induction w as [|x w IH]; destruct v as [|y v]; simpl; auto.
  now rewrite IH, eqb_nocase_sym.
Qed.

Lemma nocase_forallb_word w : forall v,
  nocase_eq w v = true -> Text.forallb is_word w = true ->
  Text.forallb is_word v = true.
Proof.
  induction w as [|x w IH]; destruct v as [|y v]; simpl; try discriminate; auto.
  intros H Hw. apply andb_true_iff in H as [E H].
  apply andb_true_iff in Hw as [Hx Hw].
  rewrite <- (nocase_word _ _ E), Hx. simpl. auto.
Qed.

Lemma span_all p s : Text.forallb p s = true -> Text.span p s = String.length s.
Proof.
  induction s as [|c s IH]; simpl; [reflexivity|].
  intros H. apply andb_true_iff in H as [Hc H]. rewrite Hc. f_equal. auto.
Qed.

Lemma take_all s : Text.take (String.length s) s = s.
Proof. induction s; simpl; congruence. Qed.

(** How a keyword that is not out of step with a word lies along it: it
    is a start of the word, or the word is a start of it that a
    character which is no word character follows. *)
Lemma in_step kw : forall w,
  Text.forallb is_word w = true -> out_of_step kw w = false ->
  (String.length kw <= String.length w /\
   nocase_eq (Text.take (String.length kw) w) kw = true) \/
  (nocase_eq w (first_word kw) = true).
Proof.
  induction kw as [|a kw IH]; intros w Hw H.
  - left. simpl. split; [lia|reflexivity].
  - destruct w as [|c w]; simpl in H.
    + right. unfold first_word. simpl. now rewrite H.
    + simpl in Hw. apply andb_true_iff in Hw as [Hc Hw].
      destruct (eqb_nocase a c) eqn:E; [|discriminate].
      assert (Ha : is_word a = true) by (rewrite (nocase_word _ _ E); exact Hc).
      destruct (IH w Hw H) as [[L T]|T].
      * left. simpl. split; [lia|]. now rewrite eqb_nocase_sym, E, T.
      * right. unfold first_word in *. simpl. rewrite Ha. simpl.
        now rewrite eqb_nocase_sym, E, T.
Qed.

Lemma word_differs kw w :
  wordy kw = true -> Text.forallb is_word w = true ->
  nocase_eq w (first_word kw) = false -> differs kw w = true.
Proof.
  intros Hk Hw Hn. unfold differs.
  destruct (out_of_step kw w) eqn:O; [reflexivity|]. simpl.
  destruct (in_step kw w Hw O) as [[L T]|T]; [|congruence].
  unfold ends_inside. cbv zeta. rewrite T, Hk, andb_true_r. simpl.
  destruct (Nat.eq_dec (String.length kw) (String.length w)) as [E|N].
  - exfalso. rewrite E, take_all in T.
    assert (Kw : Text.forallb is_word kw = true)
      by exact (nocase_forallb_word w kw T Hw).
    unfold first_word in Hn. rewrite (span_all _ _ Kw), take_all in Hn. congruence.
  - assert (Lt : String.length kw < String.length w) by lia.
    destruct (forallb_take_at is_word (String.length w) w (String.length kw))
      as (c & Hc & Wc); auto.
    + now apply forallb_take_all.
    + rewrite Hc. exact Wc.
Qed.

Lemma keyword_not_word kw w b r :
  wordy kw = true -> w <> "" -> Text.forallb is_word w = true ->
  word_opt (Text.head r) = false -> nocase_eq w (first_word kw) = false ->
  match_keyword kw b (w +++ r) = None.
Proof.
  intros Hk Hne Hw Hr Hn. destruct (word_opt b) eqn:Hb.
  - unfold match_keyword. destruct w as [|x w]; [congruence|].
    simpl in Hw. apply andb_true_iff in Hw as [Hx _].
    destruct (Text.starts_with _ _ _); [|reflexivity].
    unfold boundary. simpl. now rewrite Hb, Hx.
  - apply differs_none with (v := w); auto using nocase_eq_refl, word_differs.
Qed.

Lemma literal_not_word l w r :
  no_name_rule (STAR, Literal l) = true -> w <> "" ->
  Text.forallb is_word w = true -> match_literal l (w +++ r) = None.
Proof.
  unfold no_name_rule. simpl. intros Hl Hne Hw.
  destruct l as [|a l]; [discriminate|]. destruct w as [|x w]; [congruence|].
  simpl in Hw. apply andb_true_iff in Hw as [Hx _].
  unfold match_literal. simpl.
  destruct (Ascii.eqb_spec a x) as [->|N]; [|reflexivity].
  rewrite Hx in Hl. discriminate.
Qed.

Lemma ahead_in rs kp : In kp (ahead_of_ID rs) -> In kp rs.
Proof.
  induction rs as [|[k p] rs IH]; simpl; [tauto|].
  destruct p; simpl; tauto.
Qed.

Lemma ahead_are_no_names : forallb no_name_rule (ahead_of_ID rules) = true.
Proof. vm_compute. reflexivity. Qed.

Lemma ID_after_them :
  exists post, rules = ahead_of_ID rules ++ (ID, PatID) :: post.
Proof. eexists. vm_compute. reflexivity. Qed.

Lemma not_named w k kw :
  names_keyword w = false -> In (k, Keyword kw) rules ->
  nocase_eq w (first_word kw) = false.
Proof.
  intros H Hin. unfold names_keyword in H.
  destruct (nocase_eq w (first_word kw)) eqn:E; [|reflexivity].
  rewrite <- H. symmetry. apply existsb_exists. exists kw. split; [|exact E].
  unfold keywords. apply in_flat_map. exists (k, Keyword kw). simpl. tauto.
Qed.

Lemma first_match_ahead w b r pre :
  (forall kp, In kp pre -> In kp rules) ->
  forallb no_name_rule pre = true ->
  w <> "" -> Text.forallb is_word w = true ->
  word_opt (Text.head r) = false -> names_keyword w = false ->
  first_match pre b (w +++ r) = None.
Proof.
  intros Hin Hpre Hne Hw Hr Hn. induction pre as [|[k p] pre IH]; [reflexivity|].
  simpl in Hpre. apply andb_true_iff in Hpre as [Hp Hpre].
  cbn [first_match].
  assert (M : match_pattern p b (w +++ r) = None).
  { destruct p as [kw|l| | | |]; try discriminate Hp; cbn [match_pattern].
    - apply keyword_not_word; auto.
      apply (not_named w k kw Hn). apply Hin. now left.
    - now apply literal_not_word. }
  rewrite M. apply IH; auto. intros kp H. apply Hin. now right.
Qed.

Lemma word_idchar c : is_word c = true -> is_idchar c = true.
Proof. by_cases c. Qed.

Lemma ends_name_stops r :
  ends_name r = true ->
  stops is_idchar r = true /\ word_opt (Text.head r) = false /\
  match_more_segments (String.length r) r = 0 /\
  forall fuel, match_more_segments fuel r = 0.
Proof.
  destruct r as [|c r]; simpl.
  - intros _. repeat split. intros [|f]; reflexivity.
  - intros H. apply negb_true_iff in H. apply orb_false_iff in H as [Hi Hd].
    assert (Hw : is_word c = false).
    { destruct (is_word c) eqn:W; [|reflexivity].
      apply word_idchar in W. congruence. }
    rewrite Hi, Hw.
    assert (F : forall fuel, match_more_segments fuel (String c r) = 0).
    { intros [|f]; [reflexivity|]. simpl.
      destruct c as [[] [] [] [] [] [] [] []]; try reflexivity; discriminate Hd. }
    repeat split; auto. apply (F (S (String.length r))).
Qed.

Lemma match_ID_word w r :
  Text.forallb is_word w = true -> Text.existsb is_idstart w = true ->
  ends_name r = true -> match_ID (w +++ r) = Some (String.length w).
Proof.
  intros Hw Hs Hr. destruct (ends_name_stops r Hr) as (St & _ & _ & F).
  unfold match_ID, match_segment, match_bare. cbv zeta.
  rewrite span_append; [|exact (forallb_weaken _ _ _ word_idchar Hw)|exact St].
  rewrite take_append, Hs, drop_append, F. f_equal. lia.
Qed.

(** A word of letters, digits and underscores that is not all digits and
    that is, in no case, a keyword or the first word of one is one [ID]
    token, valued by the word. *)
Lemma name_token w b r i :
  Text.forallb is_word w = true -> Text.existsb is_idstart w = true ->
  names_keyword w = false -> ends_name r = true ->
  next_token (mkScanner b (w +++ r) i) = reads ID w b r i.
Proof.
  intros Hw Hs Hn Hr. destruct (ends_name_stops r Hr) as (_ & Wr & _).
  assert (Hne : w <> "") by (destruct w; [discriminate|congruence]).
  assert (Hh : exists x, Text.head (w +++ r) = Some x /\ is_ignored x = false).
  { destruct w as [|x w']; [congruence|]. exists x. split; [reflexivity|].
    simpl in Hw. apply andb_true_iff in Hw as [Hx _].
    clear - Hx. destruct x as [[] [] [] [] [] [] [] []]; vm_compute in Hx;
      try discriminate; reflexivity. }
  destruct Hh as (x & Hh & Hx).
  unfold next_token, scan_with. cbn [before rest pos].
  rewrite scan_text_head with (c := x) (k := ID) (n := String.length w);
    [| exact Hh | exact Hx |].
  - unfold reads, advance. cbn [before rest pos].
    now rewrite take_append, drop_append.
  - destruct ID_after_them as [post E]. rewrite E, first_match_app.
    rewrite first_match_ahead; auto using ahead_in, ahead_are_no_names.
    cbn [first_match match_pattern]. now rewrite match_ID_word.
Qed.

End WordLaws.

(* ================================================================== *)
(** ** Further properties of the lexer and of the parser *)
(* ================================================================== *)

Import LexProps ScanProps WordProps ParseProps ExprProps.

(** X1. The tokens of a text follow one another inside the text, each
    with at least one character; each token is the first match of the
    rules at its index, in the order of the class, and its value is what
    its method makes of the text between its indices. *)
Theorem X1_tokens_in_order text :
  spans_within 0 (String.length text) (fst (Lexer.tokenize text)) = true /\
  Forall (carries Lexer.rules text) (fst (Lexer.tokenize text)).
Proof. exact (LexerLaws.tokens_in_order text). Qed.

(** X2. The lexer drops nothing but the ignored characters: up to the
    end of the text, or up to the index of the [LexError], every
    character is part of a token or is a blank, a tab or a line end. *)
Theorem X2_nothing_skipped text i :
  i < read_up_to text (snd (Lexer.tokenize text)) ->
  covered (fst (Lexer.tokenize text)) i = true \/ ignored_at text i = true.
Proof. exact (LexerLaws.nothing_skipped text i). Qed.

Lemma X2_witness :
  7 < read_up_to "SELECT  1" (snd (Lexer.tokenize "SELECT  1")) /\
  (covered (fst (Lexer.tokenize "SELECT  1")) 7 = true \/
   ignored_at "SELECT  1" 7 = true).
Proof.
  assert (H : 7 < read_up_to "SELECT  1" (snd (Lexer.tokenize "SELECT  1")))
    by (apply Nat.ltb_lt; reflexivity).
  split; [exact H|]. exact (X2_nothing_skipped "SELECT  1" 7 H).
Defined.

(** X3. A [LexError] names an index inside the text at which a
    character stands that is not ignored and at which no rule matches,
    and it holds the text from that index on. *)
Theorem X3_lex_error_place text e :
  snd (Lexer.tokenize text) = Some e ->
  Lexer.error_index e < String.length text /\
  Lexer.error_text e = Text.drop (Lexer.error_index e) text /\
  ignored_at text (Lexer.error_index e) = false /\
  Lexer.first_match Lexer.rules (char_before text (Lexer.error_index e))
                    (Text.drop (Lexer.error_index e) text) = None.
Proof. exact (LexerLaws.lex_error_place text e). Qed.

Lemma X3_witness :
  snd (Lexer.tokenize "SELECT 1;") = Some (Lexer.mkLexError 8 ";") /\
  Lexer.error_index (Lexer.mkLexError 8 ";") < String.length "SELECT 1;".
Proof.
  assert (H : snd (Lexer.tokenize "SELECT 1;") = Some (Lexer.mkLexError 8 ";"))
    by reflexivity.
  split; [exact H|]. exact (proj1 (X3_lex_error_place "SELECT 1;" _ H)).
Defined.

(** X4. A string literal is a text without the quote it stands between;
    the [STRING] token spans the two quotes, and its value is the text
    between them, unchanged, the other quote at its ends included. *)
Theorem X4_string_literal_value q s b r i :
  is_quote q = true -> free_of q s = true ->
  Lexer.next_token (Lexer.mkScanner b (String q (s +++ String q r)) i) =
  Lexer.ScanToken (mkToken STRING (PyStr s) i (i + (String.length s + 2)))
                  (Lexer.mkScanner (Some q) r (i + (String.length s + 2))).
Proof. exact (ScanLaws.string_literal_value q s b r i). Qed.

Lemma X4_witness :
  let s := dquote +++ "x" +++ dquote in
  Lexer.next_token (Lexer.mkScanner (Some " "%char)
                                    (String "'" (s +++ String "'" " AS c")) 7) =
  Lexer.ScanToken (mkToken STRING (PyStr s) 7 12)
                  (Lexer.mkScanner (Some "'"%char) " AS c" 12).
Proof.
  exact (X4_string_literal_value "'"%char (dquote +++ "x" +++ dquote)
           (Some " "%char) " AS c" 7 eq_refl eq_refl).
Defined.

(** X5. A quote that is not closed is a [LexError] at the quote. *)
Theorem X5_unterminated_string q s b i :
  is_quote q = true -> free_of q s = true ->
  Lexer.next_token (Lexer.mkScanner b (String q s) i) =
  Lexer.ScanError (Lexer.mkLexError i (String q s)).
Proof. exact (ScanLaws.unterminated_string q s b i). Qed.

Lemma X5_witness :
  Lexer.next_token (Lexer.mkScanner (Some " "%char) (String "'" "abc FROM t") 7) =
  Lexer.ScanError (Lexer.mkLexError 7 (String "'" "abc FROM t")).
Proof.
  exact (X5_unterminated_string "'"%char "abc FROM t" (Some " "%char) 7
           eq_refl eq_refl).
Defined.

(** X6. A character that is not ignored and that no rule starts with is
    a [LexError] at the character: the semicolon, the brackets, [#],
    [&], [:], [@], [^], [~], the backslash, the control characters and
    every character beyond ASCII. *)
Theorem X6_illegal_character c b r i :
  Chars.is_ignored c = false -> starts_token c = false ->
  Lexer.next_token (Lexer.mkScanner b (String c r) i) =
  Lexer.ScanError (Lexer.mkLexError i (String c r)).
Proof. exact (ScanLaws.illegal_character c b r i). Qed.

Lemma X6_witness :
  Lexer.next_token (Lexer.mkScanner (Some "1"%char) (String ";" " SELECT 2") 8) =
  Lexer.ScanError (Lexer.mkLexError 8 (String ";" " SELECT 2")).
Proof.
  exact (X6_illegal_character ";"%char (Some "1"%char) " SELECT 2" 8
           eq_refl eq_refl).
Defined.

(** X7. The operators of two characters, [>=], [<=], [!=] and [||], are
    one token each; [>] and [<] that no [=] follows are [GREATER] and
    [LESS]; [!] that no [=] follows and [|] that no [|] follows are a
    [LexError]. *)
Theorem X7_operator_characters b r i :
  Lexer.next_token (Lexer.mkScanner b (">=" +++ r) i) = reads GEQ ">=" b r i /\
  Lexer.next_token (Lexer.mkScanner b ("<=" +++ r) i) = reads LEQ "<=" b r i /\
  Lexer.next_token (Lexer.mkScanner b ("!=" +++ r) i) = reads NEQUALS "!=" b r i /\
  Lexer.next_token (Lexer.mkScanner b ("||" +++ r) i) = reads CONCAT "||" b r i /\
  (goes_on_with "=" r = false ->
   Lexer.next_token (Lexer.mkScanner b (">" +++ r) i) = reads GREATER ">" b r i /\
   Lexer.next_token (Lexer.mkScanner b ("<" +++ r) i) = reads LESS "<" b r i /\
   Lexer.next_token (Lexer.mkScanner b ("!" +++ r) i)
   = Lexer.ScanError (Lexer.mkLexError i ("!" +++ r))) /\
  (goes_on_with "|" r = false ->
   Lexer.next_token (Lexer.mkScanner b ("|" +++ r) i)
   = Lexer.ScanError (Lexer.mkLexError i ("|" +++ r))).
Proof. exact (ScanLaws.operator_characters b r i). Qed.

Lemma X7_witness :
  Lexer.next_token (Lexer.mkScanner (Some " "%char) ("<" +++ "> 1") 9)
  = reads LESS "<" (Some " "%char) "> 1" 9 /\
  Lexer.next_token (Lexer.mkScanner (Some " "%char) ("|" +++ " 1") 9)
  = Lexer.ScanError (Lexer.mkLexError 9 ("|" +++ " 1")).
Proof.
  split.
  - exact (proj1 (proj2 (proj1 (proj2 (proj2 (proj2 (proj2
             (X7_operator_characters (Some " "%char) "> 1" 9))))) eq_refl))).
  - exact (proj2 (proj2 (proj2 (proj2 (proj2
             (X7_operator_characters (Some " "%char) " 1" 9))))) eq_refl).
Defined.



(** X9. A word of letters, digits and underscores that is not all
    digits, that no identifier character and no dot follows, and that
    is in no case a keyword or the first word of one, is one [ID] token
    valued by the word. *)
Theorem X9_name_token w b r i :
  Text.forallb Chars.is_word w = true ->
  Text.existsb Chars.is_idstart w = true ->
  names_keyword w = false -> ends_name r = true ->
  Lexer.next_token (Lexer.mkScanner b (w +++ r) i) = reads ID w b r i.
Proof. exact (WordLaws.name_token w b r i). Qed.

Lemma X9_witness :
  Lexer.next_token (Lexer.mkScanner (Some " "%char) ("selected" +++ " FROM t") 7)
  = reads ID "selected" (Some " "%char) " FROM t" 7.
Proof.
  exact (X9_name_token "selected" (Some " "%char) " FROM t" 7
           eq_refl eq_refl eq_refl eq_refl).
Defined.

(** X10. A text with nothing but ignored characters, the empty text
    too, is the syntax error of the end of the input. *)
Theorem X10_blank_text text :
  Text.forallb Chars.is_ignored text = true ->
  parse_sql text = Raise (ParsingException "Syntax error at EOF").
Proof. exact (FirstTurn.blank_text text). Qed.

Lemma X10_witness :
  parse_sql "" = Raise (ParsingException "Syntax error at EOF") /\
  parse_sql "   " = Raise (ParsingException "Syntax error at EOF").
Proof.
  split; [exact (X10_blank_text "" eq_refl)|exact (X10_blank_text "   " eq_refl)].
Defined.




(** X13. The [Select] that parsing returns has the shape the rules
    build: [WHERE], [GROUP BY] and [ORDER BY] come with [FROM], [HAVING]
    comes with [GROUP BY], the conditions of [WHERE] and [HAVING] are
    operations, the tables and the terms of [GROUP BY] and [ORDER BY]
    are identifiers, and [LIMIT] and [OFFSET] are integer constants.
    So it is with the join keywords read as single tokens. *)
Theorem X13_result_well_formed text s :
  parse_sql text = Ok (VSelect s) \/ parse_sql_joins text = Ok (VSelect s) ->
  well_formed s = true.
Proof.
  intros [E|E].
  - pose proof (StackLaws.parse_total Lexer.rules text LexerLaws.rules_are_nonempty) as S.
    fold Lexer.next_token in S. fold (parse_sql text) in S. now rewrite E in S.
  - pose proof (StackLaws.parse_total Lexer.rules_with_joins text eq_refl) as S.
    fold (parse_sql_joins text) in S. now rewrite E in S.
Qed.

Lemma X13_witness :
  exists s,
    parse_sql "SELECT a FROM t WHERE a = 1 ORDER BY a LIMIT 2" = Ok (VSelect s) /\
    well_formed s = true.
Proof.
  eexists. split; [vm_compute; reflexivity|].
  refine (X13_result_well_formed
            "SELECT a FROM t WHERE a = 1 ORDER BY a LIMIT 2" _ (or_introl _)).
  vm_compute. reflexivity.
Defined.

(** X14. The parser reads its tokens one at a time and stops at its
    first error: a [LexError] it ends with is the error the whole token
    stream of the text ends with. *)
Theorem X14_lex_error_of_the_stream text e :
  parse_sql text = Raise (LexError e) -> snd (Lexer.tokenize text) = Some e.
Proof.
  exact (LazyLaws.parse_lex_error Lexer.rules LexerLaws.rules_are_nonempty text e).
Qed.

Lemma X14_witness :
  parse_sql "SELECT 1;" = Raise (LexError (Lexer.mkLexError 8 ";")) /\
  snd (Lexer.tokenize "SELECT 1;") = Some (Lexer.mkLexError 8 ";").
Proof.
  assert (H : parse_sql "SELECT 1;" = Raise (LexError (Lexer.mkLexError 8 ";")))
    by (vm_compute; reflexivity).
  split; [exact H|]. exact (X14_lex_error_of_the_stream "SELECT 1;" _ H).
Defined.

(** X15. [ensure_select_keyword_order] lets a clause pass exactly when
    neither the clause nor a clause after it in the canonical order is
    set and the clauses it requires are set; in every other case it
    raises a [ParsingException]. *)
Theorem X15_order_check op select :
  In op precedence ->
  (ensure_select_keyword_order select op = Ok tt <->
   forallb (fun o => negb (is_set select o)) (from_on op) = true /\
   forallb (is_set select) (required_by op) = true) /\
  (ensure_select_keyword_order select op = Ok tt \/
   exists msg, ensure_select_keyword_order select op = Raise (ParsingException msg)).
Proof. exact (RuleLaws.order_check_passes op select). Qed.

Lemma X15_witness :
  In "HAVING" precedence /\
  (ensure_select_keyword_order select_c_from_t "HAVING" = Ok tt <->
   forallb (fun o => negb (is_set select_c_from_t o)) (from_on "HAVING") = true /\
   forallb (is_set select_c_from_t) (required_by "HAVING") = true).
Proof.
  assert (H : In "HAVING" precedence)
    by (unfold precedence; do 3 right; left; reflexivity).
  split; [exact H|]. exact (proj1 (X15_order_check "HAVING" select_c_from_t H)).
Defined.

(** X16. Two binary operators side by side are grouped as the
    precedence table has it: the operator of the higher level first; on
    one level to the left for a [left] level, to the right for the
    operators the table does not list, and for a [nonassoc] level the
    second operator is a syntax error. *)
Theorem X16_operators_side_by_side k1 t1 k2 t2 :
  In (k1, t1) binary_operators -> In (k2, t2) binary_operators ->
  parse_sql (chain t1 t2) = grouped (grouping_of k1 k2) k2 t1 t2.
Proof. exact (ExprLaws.operators_side_by_side k1 t1 k2 t2). Qed.

Lemma X16_witness :
  parse_sql (chain "<" "<=") = grouped Refused LEQ "<" "<=".
Proof.
  assert (H1 : In (LESS, "<") binary_operators)
    by (unfold binary_operators; do 10 right; left; reflexivity).
  assert (H2 : In (LEQ, "<=") binary_operators)
    by (unfold binary_operators; do 9 right; left; reflexivity).
  exact (X16_operators_side_by_side LESS "<" LEQ "<=" H1 H2).
Defined.

(** X17. A unary minus and a unary [NOT] bind tighter than any binary
    operator that follows their operand. *)
Theorem X17_unary_binds_first k t :
  In (k, t) binary_operators ->
  parse_sql (after_unary "-" t) = unary_first "-" t /\
  parse_sql (after_unary "NOT" t) = unary_first "NOT" t.
Proof. exact (ExprLaws.unary_binds_first k t). Qed.

Lemma X17_witness :
  parse_sql (after_unary "-" "*") = unary_first "-" "*".
Proof.
  assert (H : In (STAR, "*") binary_operators)
    by (unfold binary_operators; do 2 right; left; reflexivity).
  exact (proj1 (X17_unary_binds_first STAR "*" H)).
Defined.
